(** * ai-doc-helper: the Markdown-to-docx converter (utils/converter)

    A shallow embedding of [parseInlineStyles], [fetchImageBuffer] and
    [downloadDocx], with the JavaScript string and regular-expression
    primitives they are built from, followed by the properties of the
    converter stated in the specification.  The settings kept in
    [localStorage], the import of HTML ([htmlToMarkdown]) and the formula
    editor are embedded after the converter; their properties, and further
    properties of the converter, come after those of the specification. *)

From Stdlib Require Import List String Ascii NArith ZArith QArith Lia Bool Arith.
From Stdlib Require Import DecimalString.
From Stdlib Require Import PrimFloat FloatOps SpecFloat Uint63.
Import ListNotations.

Set Implicit Arguments.
Close Scope Q_scope.
Open Scope nat_scope.

(** ** JavaScript strings

    A JavaScript string is a sequence of UTF-16 code units. *)

Abbreviation char := N (only parsing).
Abbreviation jsstring := (list N) (only parsing).

Definition ch (a : ascii) : char := N_of_ascii a.

Definition js (s : string) : jsstring := map N_of_ascii (list_ascii_of_string s).

Definition jseqb (a b : jsstring) : bool :=
  if list_eq_dec N.eq_dec a b then true else false.

(** LineTerminator code points: LF, CR, LS, PS. *)
Definition is_line_terminator (c : char) : bool :=
  (N.eqb c 10 || N.eqb c 13 || N.eqb c 8232 || N.eqb c 8233)%bool.

(** WhiteSpace and LineTerminator code points: what [\s] matches and what
    [String.prototype.trim] strips. *)
Definition is_space (c : char) : bool :=
  (N.eqb c 9 || N.eqb c 10 || N.eqb c 11 || N.eqb c 12 || N.eqb c 13
   || N.eqb c 32 || N.eqb c 160 || N.eqb c 5760
   || (N.leb 8192 c && N.leb c 8202)
   || N.eqb c 8232 || N.eqb c 8233 || N.eqb c 8239 || N.eqb c 8287
   || N.eqb c 12288 || N.eqb c 65279)%bool.

Fixpoint drop_spaces (s : jsstring) : jsstring :=
  match s with
  | c :: s' => if is_space c then drop_spaces s' else s
  | [] => []
  end.

(** [s.trim()] *)
Definition trim (s : jsstring) : jsstring :=
  rev (drop_spaces (rev (drop_spaces s))).

(** [s.startsWith(p)] *)
Fixpoint startsWith (s p : jsstring) {struct p} : bool :=
  match p, s with
  | [], _ => true
  | x :: p', y :: s' => (N.eqb x y && startsWith s' p')%bool
  | _ :: _, [] => false
  end.

(** [s.includes(p)] *)
Fixpoint includes (s p : jsstring) : bool :=
  (startsWith s p ||
   match s with
   | [] => false
   | _ :: s' => includes s' p
   end)%bool.

(** [s.split(sep)] for a non-empty separator: the occurrences of [sep] are
    found from left to right and do not overlap.  [skip] counts the code
    units of the current occurrence that are still to be passed over and
    [cur] is the part being collected, reversed. *)
Fixpoint split_walk (sep : jsstring) (skip : nat) (cur : jsstring) (s : jsstring)
  : list jsstring :=
  match s with
  | [] => [rev cur]
  | c :: s' =>
      match skip with
      | S k => split_walk sep k cur s'
      | O =>
          if startsWith s sep
          then rev cur :: split_walk sep (Nat.pred (List.length sep)) [] s'
          else split_walk sep 0 (c :: cur) s'
      end
  end.

Definition split (s sep : jsstring) : list jsstring := split_walk sep 0 [] s.

(** The decimal digits of an array index, as a template literal prints it. *)
Definition dec (n : nat) : jsstring :=
  js (NilEmpty.string_of_uint (Nat.to_uint n)).

(** ** Regular expressions

    The fragment of ECMAScript regular expressions the converter uses
    (no flags but [g]): literals, character classes, concatenation,
    alternation, the greedy option [r?], greedy and lazy repetition of a
    single-character atom, capture groups, backreferences and the
    anchors.  Matching is the backtracking semantics of the standard,
    written with continuations: [rmatch r s k] tries the ways [r] can
    match at [s] in priority order and returns the first one that [k]
    accepts. *)

Module Regex.

Inductive regex : Type :=
| Eps
| Lit (c : char)
| Class (p : char -> bool)
| Cat (r1 r2 : regex)
| Or (r1 r2 : regex)
| Opt (r : regex)
| StarG (p : char -> bool)
| StarL (p : char -> bool)
| Grp (n : nat) (r : regex)
| Ref (n : nat)
| Bol
| Eol.

(** [pos] is the index of the next code unit, [rest] the input from
    there on, [caps] the capture groups set so far, latest first. *)
Record mstate : Type := MState {
  pos : nat;
  rest : jsstring;
  caps : list (nat * jsstring)
}.

Fixpoint lookup (n : nat) (l : list (nat * jsstring)) : option jsstring :=
  match l with
  | [] => None
  | (m, v) :: l' => if Nat.eqb n m then Some v else lookup n l'
  end.

Definition group (n : nat) (s : mstate) : jsstring :=
  match lookup n (caps s) with
  | Some v => v
  | None => []
  end.

Fixpoint star_greedy (p : char -> bool) (k : mstate -> option mstate)
  (i : nat) (cs : list (nat * jsstring)) (inp : jsstring) : option mstate :=
  match inp with
  | c :: inp' =>
      if p c then
        match star_greedy p k (S i) cs inp' with
        | Some r => Some r
        | None => k (MState i inp cs)
        end
      else k (MState i inp cs)
  | [] => k (MState i inp cs)
  end.

Fixpoint star_lazy (p : char -> bool) (k : mstate -> option mstate)
  (i : nat) (cs : list (nat * jsstring)) (inp : jsstring) : option mstate :=
  match k (MState i inp cs) with
  | Some r => Some r
  | None =>
      match inp with
      | c :: inp' => if p c then star_lazy p k (S i) cs inp' else None
      | [] => None
      end
  end.

Fixpoint rmatch (r : regex) (s : mstate) (k : mstate -> option mstate)
  : option mstate :=
  match r with
  | Eps => k s
  | Lit c =>
      match rest s with
      | x :: inp' => if N.eqb x c then k (MState (S (pos s)) inp' (caps s)) else None
      | [] => None
      end
  | Class p =>
      match rest s with
      | x :: inp' => if p x then k (MState (S (pos s)) inp' (caps s)) else None
      | [] => None
      end
  | Cat r1 r2 => rmatch r1 s (fun s' => rmatch r2 s' k)
  | Or r1 r2 =>
      match rmatch r1 s k with
      | Some m => Some m
      | None => rmatch r2 s k
      end
  | Opt r1 =>
      match rmatch r1 s k with
      | Some m => Some m
      | None => k s
      end
  | StarG p => star_greedy p k (pos s) (caps s) (rest s)
  | StarL p => star_lazy p k (pos s) (caps s) (rest s)
  | Grp n r1 =>
      rmatch r1 s (fun s' =>
        k (MState (pos s') (rest s')
             ((n, firstn (pos s' - pos s) (rest s)) :: caps s')))
  | Ref n =>
      match lookup n (caps s) with
      | None => k s
      | Some v =>
          if startsWith (rest s) v
          then k (MState (pos s + List.length v) (skipn (List.length v) (rest s)) (caps s))
          else None
      end
  | Bol => if Nat.eqb (pos s) 0 then k s else None
  | Eol => match rest s with [] => k s | _ :: _ => None end
  end.

(** One attempt to match [r] with the match starting at index [i], where
    the input from [i] on is [inp]. *)
Definition match_here (r : regex) (i : nat) (inp : jsstring) : option mstate :=
  rmatch r (MState i inp []) Some.

(** [s.match(r)] for a regular expression without the [g] flag: the
    leftmost index at which [r] matches, with the state at the end of the
    match. *)
Fixpoint search_from (r : regex) (i : nat) (inp : jsstring) : option (nat * mstate) :=
  match match_here r i inp with
  | Some m => Some (i, m)
  | None =>
      match inp with
      | [] => None
      | _ :: inp' => search_from r (S i) inp'
      end
  end.

Definition search (r : regex) (s : jsstring) : option (nat * mstate) :=
  search_from r 0 s.

(** [s.replace(r, f)] for a regular expression with the [g] flag and a
    replacer function [f] that may update a state of its own: the matches
    are found from left to right, each one starting where the previous one
    ended (one code unit further after an empty match), and [f] is called
    once per match, in order.  The walk visits every index once; [skip]
    counts the code units of the current match still to be passed over. *)
Fixpoint replace_walk {S : Type} (r : regex)
  (f : S -> mstate -> jsstring * S) (i skip : nat) (inp : jsstring) (st : S)
  : jsstring * S :=
  match skip with
  | Datatypes.S k =>
      match inp with
      | [] => ([], st)
      | _ :: inp' => replace_walk r f (Datatypes.S i) k inp' st
      end
  | O =>
      match match_here r i inp with
      | Some m =>
          let '(rep, st1) := f st m in
          match inp with
          | [] => (rep, st1)
          | c :: inp' =>
              match pos m - i with
              | O =>
                  let '(out, st2) := replace_walk r f (Datatypes.S i) 0 inp' st1 in
                  (rep ++ c :: out, st2)
              | Datatypes.S k =>
                  let '(out, st2) := replace_walk r f (Datatypes.S i) k inp' st1 in
                  (rep ++ out, st2)
              end
          end
      | None =>
          match inp with
          | [] => ([], st)
          | c :: inp' =>
              let '(out, st1) := replace_walk r f (Datatypes.S i) 0 inp' st in
              (c :: out, st1)
          end
      end
  end.

Definition replace_all {S : Type} (r : regex) (f : S -> mstate -> jsstring * S)
  (s : jsstring) (st : S) : jsstring * S :=
  replace_walk r f 0 0 s st.

(** [s.replace(r, '')] with the [g] flag. *)
Definition remove_all (r : regex) (s : jsstring) : jsstring :=
  fst (replace_all r (fun (u : unit) _ => ([], u)) s tt).

(** [s.replace(r, '')] without the [g] flag: the leftmost match only. *)
Definition remove_first (r : regex) (s : jsstring) : jsstring :=
  match search r s with
  | Some (i, m) => firstn i s ++ rest m
  | None => s
  end.

(** The least number of code units a match of [r] takes. *)
Fixpoint minlen (r : regex) : nat :=
  match r with
  | Lit _ | Class _ => 1
  | Cat r1 r2 => minlen r1 + minlen r2
  | Or r1 r2 => Nat.min (minlen r1) (minlen r2)
  | Grp _ r1 => minlen r1
  | Eps | Opt _ | StarG _ | StarL _ | Ref _ | Bol | Eol => 0
  end.

End Regex.

(** ** The docx document model

    The objects of the [docx] library the converter builds.  Cell borders,
    cell margins, the vertical alignment of cells and table widths are
    constants of the presentation and are left out; a number of the style
    configuration is a rational. *)

Record TextRun : Type := mkTextRun {
  text : jsstring;
  font : option jsstring;
  size : option Q;
  bold : bool;
  italics : bool;
  color : option jsstring;
  shading : option jsstring
}.

Inductive ParagraphChild : Type :=
| PTextRun (r : TextRun)
| PMath (mathRun : jsstring)
| PImageRun (data : list N) (width height : Z) (altText : jsstring).

Inductive HeadingLevel : Type := HEADING_1 | HEADING_2 | HEADING_3.

Inductive AlignmentType : Type := LEFT | CENTER | JUSTIFIED | RIGHT.

Record Spacing : Type := mkSpacing {
  sp_line : option Q;
  sp_before : option Q;
  sp_after : option Q
}.

Record Paragraph : Type := mkParagraph {
  p_children : list ParagraphChild;
  p_heading : option HeadingLevel;
  p_alignment : option AlignmentType;
  p_spacing : option Spacing
}.

Record TableCell : Type := mkTableCell {
  cell_children : list Paragraph;
  cell_shading : option jsstring
}.

Definition TableRow := list TableCell.

Inductive SectionChild : Type :=
| SParagraph (p : Paragraph)
| STable (rows : list TableRow).

(** [new TextRun({ text, font, size, color })] *)
Definition plain_run (t font : jsstring) (sz : Q) (color : jsstring) : ParagraphChild :=
  PTextRun (mkTextRun t (Some font) (Some sz) false false (Some color) None).

(** ** Inline styles: [parseInlineStyles] *)

Import Regex.

Definition dot (c : char) : bool := negb (is_line_terminator c).

Definition cats (l : list regex) : regex := fold_right Cat Eps l.

(** [/\$\$(.+?)\$\$/g] *)
Definition displayMathRegex : regex :=
  cats [Lit (ch "$"); Lit (ch "$"); Grp 1 (Cat (Class dot) (StarL dot));
        Lit (ch "$"); Lit (ch "$")].

(** [/\$(.+?)\$/g] *)
Definition inlineMathRegex : regex :=
  cats [Lit (ch "$"); Grp 1 (Cat (Class dot) (StarL dot)); Lit (ch "$")].

(** [(\*\*\*?|__?|`)] *)
Definition markerRegex : regex :=
  Or (cats [Lit (ch "*"); Lit (ch "*"); Opt (Lit (ch "*"))])
     (Or (cats [Lit (ch "_"); Opt (Lit (ch "_"))])
         (Lit (ch "`"))).

(** [/(\*\*\*?|__?|`)(.*?)\1/g] *)
Definition combinedRegex : regex :=
  cats [Grp 1 markerRegex; Grp 2 (StarL dot); Ref 1].

Record MathPlaceholder : Type := mkMathPlaceholder {
  placeholder : jsstring;
  content : jsstring;
  isDisplay : bool
}.

(** The replacer of the two [replace] calls; its state is the array
    [mathPlaceholders] with the counter [placeholderIndex]. *)
Definition math_replacer (tag : jsstring) (display : bool)
  (st : list MathPlaceholder * nat) (m : mstate)
  : jsstring * (list MathPlaceholder * nat) :=
  let '(mathPlaceholders, placeholderIndex) := st in
  let ph := js "__MATH_" ++ tag ++ js "_" ++ dec placeholderIndex ++ js "__" in
  (ph, (mathPlaceholders ++ [mkMathPlaceholder ph (trim (group 1 m)) display],
        S placeholderIndex)).

Record Segment : Type := mkSegment {
  seg_text : jsstring;
  seg_style : option jsstring
}.

Definition nonempty (s : jsstring) : bool :=
  match s with [] => false | _ :: _ => true end.

(** The loop
    [while ((match = r.exec(s)) !== null) {
       if (match.index > lastIndex) push(plain(s.substring(lastIndex, match.index)));
       push(styled(match)); lastIndex = r.lastIndex }
     if (lastIndex < s.length) push(plain(s.substring(lastIndex)))]
    of both versions of [parseInlineStyles].  [pending] is
    [s.substring(lastIndex, i)] and [skip] counts the code units of the last
    match still to be passed over.  The regular expressions it is used with
    match two code units or more, so [lastIndex] always advances. *)
Fixpoint exec_loop {A : Type} (r : regex) (plain : jsstring -> A) (styled : mstate -> A)
  (i skip : nat) (pending : jsstring) (inp : jsstring) : list A :=
  match skip with
  | S k =>
      match inp with
      | [] => []
      | _ :: inp' => exec_loop r plain styled (S i) k [] inp'
      end
  | O =>
      match match_here r i inp with
      | Some m =>
          (if nonempty pending then [plain pending] else [])
          ++ styled m
          :: match inp with
             | [] => []
             | _ :: inp' => exec_loop r plain styled (S i) (Nat.pred (pos m - i)) [] inp'
             end
      | None =>
          match inp with
          | [] => if nonempty pending then [plain pending] else []
          | c :: inp' => exec_loop r plain styled (S i) 0 (pending ++ [c]) inp'
          end
      end
  end.

Definition style_is (st : option jsstring) (marker : string) : bool :=
  match st with
  | Some s => jseqb s (js marker)
  | None => false
  end.

(** The body of [for (const segment of segments)]. *)
Definition runs_of_segment (mathPlaceholders : list MathPlaceholder)
  (font : jsstring) (fontSize : Q) (color : jsstring) (segment : Segment)
  : list ParagraphChild :=
  let segmentText := seg_text segment in
  let sz := (fontSize * 2)%Q in
  match find (fun m => includes segmentText (placeholder m)) mathPlaceholders with
  | Some mathPlaceholder =>
      let parts := split segmentText (placeholder mathPlaceholder) in
      (match nth_error parts 0 with
       | Some p => if nonempty p then [plain_run p font sz color] else []
       | None => []
       end)
      ++ PMath (content mathPlaceholder)
      :: (match nth_error parts 1 with
          | Some p => if nonempty p then [plain_run p font sz color] else []
          | None => []
          end)
  | None =>
      if style_is (seg_style segment) "***" then
        [PTextRun (mkTextRun segmentText (Some font) (Some sz) true true (Some color) None)]
      else if (style_is (seg_style segment) "**" || style_is (seg_style segment) "__")%bool then
        [PTextRun (mkTextRun segmentText (Some font) (Some sz) true false (Some color) None)]
      else if (style_is (seg_style segment) "*" || style_is (seg_style segment) "_")%bool then
        [PTextRun (mkTextRun segmentText (Some font) (Some sz) false true (Some color) None)]
      else if style_is (seg_style segment) "`" then
        [PTextRun (mkTextRun segmentText (Some (js "JetBrains Mono"))
                     (Some ((fontSize - 1) * 2)%Q) false false
                     (Some (js "E11D48")) (Some (js "F1F5F9")))]
      else
        [plain_run segmentText font sz color]
  end.

Definition segments_of (processedText : jsstring) : list Segment :=
  exec_loop combinedRegex
    (fun t => mkSegment t None)
    (fun m => mkSegment (group 2 m) (Some (group 1 m)))
    0 0 [] processedText.

Definition parseInlineStyles (text font : jsstring) (fontSize : Q) (color : jsstring)
  : list ParagraphChild :=
  let '(processedText1, st1) :=
    replace_all displayMathRegex (math_replacer (js "DISPLAY") true) text ([], 0) in
  let '(processedText, (mathPlaceholders, _)) :=
    replace_all inlineMathRegex (math_replacer (js "INLINE") false) processedText1 st1 in
  flat_map (runs_of_segment mathPlaceholders font fontSize color)
    (segments_of processedText).

(** The earlier version of the converter kept in the same file. *)
Module V1.

(** [/(\*\*\*?|__?|`|\$)(.*?)\1/g] *)
Definition regex1 : regex :=
  cats [Grp 1 (Or (cats [Lit (ch "*"); Lit (ch "*"); Opt (Lit (ch "*"))])
                 (Or (cats [Lit (ch "_"); Opt (Lit (ch "_"))])
                     (Or (Lit (ch "`")) (Lit (ch "$")))));
        Grp 2 (StarL dot); Ref 1].

Definition styled_run (font : jsstring) (fontSize : Q) (m : mstate) : list ParagraphChild :=
  let marker := Some (group 1 m) in
  let content := group 2 m in
  if style_is marker "***" then
    [PTextRun (mkTextRun content (Some font) (Some fontSize) true true None None)]
  else if (style_is marker "**" || style_is marker "__")%bool then
    [PTextRun (mkTextRun content (Some font) (Some fontSize) true false None None)]
  else if (style_is marker "*" || style_is marker "_")%bool then
    [PTextRun (mkTextRun content (Some font) (Some fontSize) false true None None)]
  else if style_is marker "`" then
    [PTextRun (mkTextRun content (Some (js "JetBrains Mono")) (Some (fontSize - 2)%Q)
                 false false (Some (js "E11D48")) (Some (js "F1F5F9")))]
  else if style_is marker "$" then
    [PTextRun (mkTextRun content (Some (js "Cambria Math")) (Some fontSize)
                 false true None None)]
  else [].

Definition parseInlineStyles (text font : jsstring) (fontSize : Q) : list ParagraphChild :=
  List.concat
    (exec_loop regex1
       (fun t => [PTextRun (mkTextRun t (Some font) (Some fontSize) false false None None)])
       (styled_run font fontSize)
       0 0 [] text).

(** [rawRow.match(/^\|[:\s-]+\|/)], the test for a separator row. *)
Definition separatorRegex : regex :=
  cats [Bol; Lit (ch "|");
        Class (fun c => (N.eqb c (ch ":") || is_space c || N.eqb c (ch "-"))%bool);
        StarG (fun c => (N.eqb c (ch ":") || is_space c || N.eqb c (ch "-"))%bool);
        Lit (ch "|")].

Definition is_separator (rawRow : jsstring) : bool :=
  match search separatorRegex rawRow with Some _ => true | None => false end.

End V1.

(** ** JavaScript numbers in the image sizing

    The dimensions of an image are integers; the ratio
    [MAX_WIDTH / finalWidth] and the product [finalHeight * ratio] are
    binary64 values.  A non-negative finite binary64 value is kept as
    [mant * 2 ^ expo]; division and multiplication round the exact result to
    the nearest value with a 53-bit significand, ties to even (the results
    that occur are in the normal range: no overflow, no subnormal value). *)

Module F64.

Local Open Scope Z_scope.

Record t : Type := mk { mant : Z; expo : Z }.

(** The integer [z] as a binary64 value (exact below [2 ^ 53]). *)
Definition of_Z (z : Z) : t := mk z 0.

(** The integer nearest to [n / d], ties to even. *)
Definition nearest_even (n d : Z) : Z :=
  let q := n / d in
  let r := n mod d in
  if 2 * r <? d then q
  else if d <? 2 * r then q + 1
  else if Z.even q then q else q + 1.

(** [n / (d * 2 ^ e)] as a fraction of integers. *)
Definition scaled (n d e : Z) : Z * Z :=
  if e <? 0 then (n * 2 ^ (- e), d) else (n, d * 2 ^ e).

(** The exponent [e] with [2 ^ 52 <= n / (d * 2 ^ e) < 2 ^ 53]. *)
Definition exponent (n d : Z) : Z :=
  let e0 := Z.log2 n - Z.log2 d - 52 in
  let '(n0, d0) := scaled n d e0 in
  if 2 ^ 52 * d0 <=? n0 then e0 else e0 - 1.

(** The binary64 value nearest to [n / d], for [0 <= n] and [0 < d]. *)
Definition round53 (n d : Z) : t :=
  if n =? 0 then mk 0 0
  else
    let e := exponent n d in
    let '(n1, d1) := scaled n d e in
    mk (nearest_even n1 d1) e.

Definition div (x y : t) : t :=
  let r := round53 (mant x) (mant y) in
  mk (mant r) (expo r + expo x - expo y).

Definition mul (x y : t) : t :=
  let r := round53 (mant x * mant y) 1 in
  mk (mant r) (expo r + expo x + expo y).

(** [Math.round]: the integer nearest to [x], a tie going up. *)
Definition Math_round (x : t) : Z :=
  if expo x <? 0
  then (2 * mant x + 2 ^ (- expo x)) / 2 ^ (1 - expo x)
  else mant x * 2 ^ expo x.

End F64.

(** The rational value of a binary64 number. *)
Definition Q_of_F64 (x : F64.t) : Q :=
  if (F64.expo x <? 0)%Z then F64.mant x # Z.to_pos (2 ^ (- F64.expo x))
  else inject_Z (F64.mant x * 2 ^ F64.expo x).

(** The binary64 value nearest to the rational [q]: what a decimal literal
    denotes, and what an arithmetic operation returns for the exact result
    [q] (normal range). *)
Definition binary64 (q : Q) : Q :=
  match Qnum q with
  | Z0 => 0%Q
  | Zpos n => Qred (Q_of_F64 (F64.round53 (Zpos n) (Zpos (Qden q))))
  | Zneg n => Qred (- Q_of_F64 (F64.round53 (Zpos n) (Zpos (Qden q))))
  end.

(** ** The browser: [fetch], [Response], [Blob], [Image]

    A call of the browser either returns or throws, and may change the
    state of the world (the network, the clock).  A promise that never
    settles is outside the model. *)

Inductive outcome (A : Type) : Type :=
| Returned (a : A)
| Thrown.
Arguments Thrown {A}.

Definition M (W A : Type) : Type := W -> outcome A * W.

Definition ret {W A : Type} (a : A) : M W A := fun w => (Returned a, w).

Definition bind {W A B : Type} (m : M W A) (f : A -> M W B) : M W B :=
  fun w =>
    match m w with
    | (Returned a, w') => f a w'
    | (Thrown, w') => (Thrown, w')
    end.

(** [try { body } catch (e) { handler }] *)
Definition try_catch {W A : Type} (body handler : M W A) : M W A :=
  fun w =>
    match body w with
    | (Returned a, w') => (Returned a, w')
    | (Thrown, w') => handler w'
    end.

Notation "x <- m ;; k" := (bind m (fun x => k))
  (at level 61, m at next level, right associativity).

(** An exception that nothing catches: the promise of the [async] function
    rejects, and what follows is not run. *)
Definition throw {W A : Type} : M W A := fun w => (Thrown, w).

Record Response : Type := mkResponse { ok : bool; payload : N }.

Definition Blob := N.

(** What the [src] of an [Image] is set to: the URL itself, or the object
    URL of a blob. *)
Inductive ImageSrc : Type :=
| SrcUrl (url : jsstring)
| SrcBlob (b : Blob).

(** The result of loading an [Image]: [onload] with the natural
    dimensions, or [onerror]. *)
Inductive ImageLoad : Type :=
| OnLoad (naturalWidth naturalHeight : Z)
| OnError.

Record Browser (W : Type) : Type := mkBrowser {
  fetch : jsstring -> M W Response;
  blob : Response -> M W Blob;
  arrayBuffer : Blob -> M W (list N);
  loadImage : ImageSrc -> M W ImageLoad
}.

Record ImageData : Type := mkImageData {
  data : list N;
  width : Z;
  height : Z
}.

(** The promise that resolves with the dimensions of the image, or with
    600 x 400 when the image does not load. *)
Definition dimensions {W : Type} (B : Browser W) (src : ImageSrc) : M W (Z * Z) :=
  r <- loadImage B src ;;
  match r with
  | OnLoad w h => ret (w, h)
  | OnError => ret (600, 400)%Z
  end.

Definition fetchImageBuffer {W : Type} (B : Browser W) (url : jsstring)
  : M W (option ImageData) :=
  try_catch
    (if startsWith url (js "data:image") then
       res <- fetch B url ;;
       b <- blob B res ;;
       buffer <- arrayBuffer B b ;;
       d <- dimensions B (SrcUrl url) ;;
       ret (Some (mkImageData buffer (fst d) (snd d)))
     else
       response <- fetch B url ;;
       if negb (ok response) then ret None
       else
         b <- blob B response ;;
         buffer <- arrayBuffer B b ;;
         d <- dimensions B (SrcBlob b) ;;
         ret (Some (mkImageData buffer (fst d) (snd d))))
    (ret None).

(** ** Style configuration

    [WordTemplate] and [DocumentStyle] are declared in [types.ts]; the
    members and fields are those [converter.ts] uses. *)

Inductive WordTemplate : Type := STANDARD | ACADEMIC | NOTE | CUSTOM.

Record DocumentStyle : Type := mkDocumentStyle {
  fontFace : jsstring;
  fontSize : Q;
  lineSpacing : Q;
  headingColor : jsstring;
  textColor : jsstring;
  alignment : jsstring;
  paragraphSpacing : Q
}.

(** [DEFAULT_STYLES[template]], undefined for [CUSTOM]. *)
Definition DEFAULT_STYLES (template : WordTemplate) : option DocumentStyle :=
  match template with
  | STANDARD =>
      Some (mkDocumentStyle (js "SimSun") 12 (12 # 10) (js "000000") (js "000000")
              (js "justify") 200)
  | ACADEMIC =>
      Some (mkDocumentStyle (js "Times New Roman") (105 # 10) (15 # 10) (js "000000")
              (js "000000") (js "justify") 100)
  | NOTE =>
      Some (mkDocumentStyle (js "Microsoft YaHei") 11 (15 # 10) (js "2563EB")
              (js "374151") (js "left") 300)
  | CUSTOM => None
  end.

Definition style_of (template : WordTemplate) (customStyle : option DocumentStyle)
  : DocumentStyle :=
  match template, customStyle with
  | CUSTOM, Some cs => cs
  | _, _ =>
      match DEFAULT_STYLES template with
      | Some s => s
      | None => mkDocumentStyle (js "SimSun") 12 (12 # 10) (js "000000") (js "000000")
                  (js "justify") 200
      end
  end.

Definition align_of (style : DocumentStyle) : AlignmentType :=
  let a0 := LEFT in
  let a1 := if jseqb (alignment style) (js "center") then CENTER else a0 in
  let a2 := if jseqb (alignment style) (js "justify") then JUSTIFIED else a1 in
  if jseqb (alignment style) (js "right") then RIGHT else a2.

(** ** The block scanner: [downloadDocx] *)

Definition is_hash (c : char) : bool := N.eqb c (ch "#").
Definition is_dash (c : char) : bool := N.eqb c (ch "-").

(** [/^#+/] *)
Definition hashesRegex : regex := cats [Bol; Class is_hash; StarG is_hash].

(** [/^#+\s*/] *)
Definition headingPrefixRegex : regex :=
  cats [Bol; Class is_hash; StarG is_hash; StarG is_space].

(** [/^!\[(.*?)\]\((.*?)\)/] *)
Definition imageRegex : regex :=
  cats [Bol; Lit (ch "!"); Lit (ch "["); Grp 1 (StarL dot); Lit (ch "]");
        Lit (ch "("); Grp 2 (StarL dot); Lit (ch ")")].

(** [/^\||\|$/g] *)
Definition boundaryPipeRegex : regex :=
  Or (cats [Bol; Lit (ch "|")]) (cats [Lit (ch "|"); Eol]).

(** [/^-+$/] *)
Definition dashesRegex : regex := cats [Bol; Class is_dash; StarG is_dash; Eol].

Definition matches (r : regex) (s : jsstring) : bool :=
  match search r s with Some _ => true | None => false end.

(** [new TextRun({ size })]: docx writes the size as an unsigned number and
    throws when it is negative; a formula has no size.  The sizes of the
    runs of a paragraph, of a table cell and of a caption are those of the
    style, less 1 or 2: they are not negative for a font size of 2 or more,
    which every preset has.  The size of a heading goes down by 2 with each
    level, whatever the style. *)
Definition constructible (c : ParagraphChild) : bool :=
  match c with
  | PTextRun r =>
      match size r with
      | Some sz => Qle_bool 0 sz
      | None => true
      end
  | _ => true
  end.

(** The heading branch: the paragraph that is pushed, or nothing when one
    of its runs cannot be built and [parseInlineStyles] throws. *)
Definition heading_block (style : DocumentStyle) (line : jsstring)
  : option SectionChild :=
  let level :=
    match search hashesRegex line with
    | Some (i, m) => match pos m - i with O => 1 | n => n end
    | None => 1
    end in
  let content := remove_first headingPrefixRegex line in
  let children :=
    parseInlineStyles content (fontFace style)
      (fontSize style + (4 - inject_Z (Z.of_nat level)) * 2)%Q (headingColor style) in
  if forallb constructible children then
    Some (SParagraph
            (mkParagraph children
               (Some (if Nat.eqb level 1 then HEADING_1
                      else if Nat.eqb level 2 then HEADING_2 else HEADING_3))
               (Some (if Nat.eqb level 1 then CENTER else LEFT))
               (Some (mkSpacing None (Some 400%Q) (Some 200%Q)))))
  else None.

Definition MAX_WIDTH : Z := 600.

(** The display size of an image of natural size [w] x [h]. *)
Definition display_size (w h : Z) : Z * Z :=
  if (MAX_WIDTH <? w)%Z then
    let ratio := F64.div (F64.of_Z MAX_WIDTH) (F64.of_Z w) in
    (MAX_WIDTH, F64.Math_round (F64.mul (F64.of_Z h) ratio))
  else (w, h).

(** The paragraph of an image that was fetched. *)
Definition image_block (style : DocumentStyle) (alt : jsstring) (imgData : ImageData)
  : SectionChild :=
  let '(finalWidth, finalHeight) := display_size (width imgData) (height imgData) in
  SParagraph
    (mkParagraph
       [PImageRun (data imgData) finalWidth finalHeight alt;
        PTextRun (mkTextRun ([10; 22270]%N ++ js ": " ++ alt) (Some (fontFace style))
                    (Some (fontSize style - 2)%Q) false true (Some (js "666666")) None)]
       None (Some CENTER) (Some (mkSpacing None (Some 200%Q) (Some 200%Q)))).

(** The paragraph that stands for an image that could not be fetched. *)
Definition failed_image_block (alt : jsstring) : SectionChild :=
  SParagraph
    (mkParagraph
       [PTextRun (mkTextRun (js "[Image: " ++ alt ++ js " - Download Failed]")
                    None None false false (Some (js "FF0000")) None)]
       None (Some CENTER) None).

(** The one-cell table of a code block. *)
Definition code_block (codeLines : list jsstring) : SectionChild :=
  STable
    [[mkTableCell
        (map (fun cl =>
                mkParagraph
                  [PTextRun (mkTextRun cl (Some (js "JetBrains Mono")) (Some 20%Q)
                               false false (Some (js "334155")) None)]
                  None None (Some (mkSpacing None (Some 20%Q) (Some 20%Q))))
             codeLines)
        (Some (js "F8FAFC"))]].

(** The cells of one line of a table. *)
Definition row_cells (row : jsstring) : list jsstring :=
  map trim (split (remove_all boundaryPipeRegex row) [ch "|"]).

(** [row.every(cell => cell.match(/^-+$/))] *)
Definition is_separator_row (row : list jsstring) : bool :=
  forallb (matches dashesRegex) row.

(** The rows of a table, from the trimmed lines that start with a pipe. *)
Definition table_rows (tableLines : list jsstring) : list (list jsstring) :=
  filter (fun row => negb (is_separator_row row)) (map row_cells tableLines).

Fixpoint mapi {A B : Type} (f : A -> nat -> B) (i : nat) (l : list A) : list B :=
  match l with
  | [] => []
  | a :: l' => f a i :: mapi f (S i) l'
  end.

Definition table_block (style : DocumentStyle) (rows : list (list jsstring))
  : SectionChild :=
  STable
    (mapi (fun row rowIndex =>
             map (fun cellText =>
                    mkTableCell
                      [mkParagraph
                         (parseInlineStyles cellText (fontFace style) (fontSize style)
                            (js "#000000"))
                         None (Some CENTER) None]
                      (if Nat.eqb rowIndex 0 then Some (js "F3F4F6") else None))
                 row)
          0 rows).

(** What the table branch pushes: nothing when no row is left. *)
Definition table_blocks (style : DocumentStyle) (tableLines : list jsstring)
  : list SectionChild :=
  match table_rows tableLines with
  | [] => []
  | rows => [table_block style rows]
  end.

Definition paragraph_block (style : DocumentStyle) (line : jsstring) : SectionChild :=
  SParagraph
    (mkParagraph
       (parseInlineStyles line (fontFace style) (fontSize style) (textColor style))
       None (Some (align_of style))
       (Some (mkSpacing (Some (binary64 (binary64 (lineSpacing style) * 240)%Q))
                (Some (paragraphSpacing style)) (Some (paragraphSpacing style))))).

Definition is_fence (l : jsstring) : bool := startsWith (trim l) (js "```").
Definition is_pipe_line (l : jsstring) : bool := startsWith (trim l) (js "|").

(** The groups [alt] and [url] of the image pattern, when the line starts
    with it. *)
Definition image_match (line : jsstring) : option (jsstring * jsstring) :=
  match search imageRegex line with
  | Some (_, m) => Some (group 1 m, group 2 m)
  | None => None
  end.

(** The inner loop of the code fence,
    [while (i < lines.length && !lines[i].trim().startsWith('```'))], from
    the line after the opening fence on; [k] is the rest of the outer loop,
    entered after the closing fence. *)
Fixpoint fence_loop {W : Type} (k : list jsstring -> M W (list SectionChild))
  (codeLines : list jsstring) (ls : list jsstring) : M W (list SectionChild) :=
  match ls with
  | [] => ret [code_block codeLines]
  | l :: ls' =>
      if is_fence l then
        tl <- k ls' ;;
        ret (code_block codeLines :: tl)
      else fence_loop k (codeLines ++ [l]) ls'
  end.

(** The inner loop of the table,
    [while (i < lines.length && lines[i].trim().startsWith('|'))]; [k] is the
    rest of the outer loop, entered at the first line that is not part of
    the table. *)
Fixpoint table_loop {W : Type} (style : DocumentStyle)
  (k : list jsstring -> M W (list SectionChild))
  (tableLines : list jsstring) (ls : list jsstring) : M W (list SectionChild) :=
  match ls with
  | [] => ret (table_blocks style tableLines)
  | l :: ls' =>
      if is_pipe_line l then table_loop style k (tableLines ++ [trim l]) ls'
      else
        tl <- k ls ;;
        ret (table_blocks style tableLines ++ tl)
  end.

(** What the image branch pushes. *)
Definition image_or_placeholder (style : DocumentStyle) (alt : jsstring)
  (imgData : option ImageData) : SectionChild :=
  match imgData with
  | Some d => image_block style alt d
  | None => failed_image_block alt
  end.

(** The loop [while (i < lines.length)] from the line at index [i] on: the
    argument is [lines.slice(i)], the result what is pushed to [sections]
    from there on. *)
Fixpoint scan {W : Type} (B : Browser W) (style : DocumentStyle) (lines : list jsstring)
  : M W (list SectionChild) :=
  match lines with
  | [] => ret []
  | raw :: rest =>
      let line := trim raw in
      if startsWith line (js "#") then
        match heading_block style line with
        | Some heading =>
            tl <- scan B style rest ;;
            ret (heading :: tl)
        | None => throw
        end
      else
        match image_match line with
        | Some (alt, url) =>
            imgData <- fetchImageBuffer B url ;;
            tl <- scan B style rest ;;
            ret (image_or_placeholder style alt imgData :: tl)
        | None =>
            if startsWith line (js "```") then
              fence_loop (scan B style) [] rest
            else if startsWith line (js "|") then
              table_loop style (scan B style) [line] rest
            else if nonempty line then
              tl <- scan B style rest ;;
              ret (paragraph_block style line :: tl)
            else scan B style rest
        end
  end.

(** [downloadDocx] up to the array [sections] that is handed to
    [new Document]. *)
Definition downloadDocx {W : Type} (B : Browser W) (markdown : jsstring)
  (template : WordTemplate) (customStyle : option DocumentStyle)
  : M W (list SectionChild) :=
  let lines := split markdown [10%N] in
  scan B (style_of template customStyle) lines.

(** ** The states of the scanner

    Where the loops stand before each line: in the outer loop
    ([Scanning]), in the inner loop of a code fence, or in the inner loop
    of a table, with the lines collected so far. *)

Inductive ScanState : Type :=
| Scanning
| InCodeFence (codeLines : list jsstring)
| InTable (tableLines : list jsstring).

(** What a line is to the outer loop. *)
Inductive LineKind : Type :=
| KHeading
| KImage (alt url : jsstring)
| KFence
| KTable
| KParagraph
| KBlank.

Definition classify (raw : jsstring) : LineKind :=
  let line := trim raw in
  if startsWith line (js "#") then KHeading
  else
    match image_match line with
    | Some (alt, url) => KImage alt url
    | None =>
        if startsWith line (js "```") then KFence
        else if startsWith line (js "|") then KTable
        else if nonempty line then KParagraph
        else KBlank
    end.

Definition step_scanning (raw : jsstring) : ScanState :=
  match classify raw with
  | KFence => InCodeFence []
  | KTable => InTable [trim raw]
  | _ => Scanning
  end.

Definition step (st : ScanState) (raw : jsstring) : ScanState :=
  match st with
  | Scanning => step_scanning raw
  | InCodeFence codeLines =>
      if is_fence raw then Scanning else InCodeFence (codeLines ++ [raw])
  | InTable tableLines =>
      if is_pipe_line raw then InTable (tableLines ++ [trim raw])
      else step_scanning raw
  end.


(** The block nodes the scanner produces, before they are given their
    docx form. *)
Inductive BlockNode : Type :=
| Heading (line : jsstring)
| Image (alt url : jsstring)
| CodeBlock (codeLines : list jsstring)
| Table (tableLines : list jsstring)
| ParagraphNode (line : jsstring).

(** The nodes completed by reading [raw] in the outer loop. *)
Definition out_scanning (raw : jsstring) : list BlockNode :=
  match classify raw with
  | KHeading => [Heading (trim raw)]
  | KImage alt url => [Image alt url]
  | KParagraph => [ParagraphNode (trim raw)]
  | KFence | KTable | KBlank => []
  end.

(** The nodes completed by reading [raw] in state [st]. *)
Definition out (st : ScanState) (raw : jsstring) : list BlockNode :=
  match st with
  | Scanning => out_scanning raw
  | InCodeFence codeLines => if is_fence raw then [CodeBlock codeLines] else []
  | InTable tableLines =>
      if is_pipe_line raw then [] else Table tableLines :: out_scanning raw
  end.

(** The node left at the end of the input. *)
Definition flush (st : ScanState) : list BlockNode :=
  match st with
  | Scanning => []
  | InCodeFence codeLines => [CodeBlock codeLines]
  | InTable tableLines => [Table tableLines]
  end.

(** The block nodes of the input lines, in document order. *)
Fixpoint nodes (st : ScanState) (lines : list jsstring) : list BlockNode :=
  match lines with
  | [] => flush st
  | raw :: rest => out st raw ++ nodes (step st raw) rest
  end.





(** The docx form of the nodes: an image is fetched when its node is
    reached, a heading that cannot be built throws there, the other nodes
    need nothing from the browser. *)
Fixpoint assemble {W : Type} (B : Browser W) (style : DocumentStyle) (ns : list BlockNode)
  : M W (list SectionChild) :=
  match ns with
  | [] => ret []
  | n :: ns' =>
      match n with
      | Image alt url =>
          imgData <- fetchImageBuffer B url ;;
          tl <- assemble B style ns' ;;
          ret (image_or_placeholder style alt imgData :: tl)
      | Heading line =>
          match heading_block style line with
          | Some heading =>
              tl <- assemble B style ns' ;;
              ret (heading :: tl)
          | None => throw
          end
      | CodeBlock codeLines =>
          tl <- assemble B style ns' ;;
          ret (code_block codeLines :: tl)
      | Table tableLines =>
          tl <- assemble B style ns' ;;
          ret (table_blocks style tableLines ++ tl)
      | ParagraphNode line =>
          tl <- assemble B style ns' ;;
          ret (paragraph_block style line :: tl)
      end
  end.

(** ** Failure of an acquisition *)


(** ** Example browsers *)

(** A browser without network: every [fetch] throws. *)
Definition offline : Browser unit :=
  mkBrowser (fun _ w => (Thrown, w))
            (fun _ w => (Thrown, w))
            (fun _ w => (Thrown, w))
            (fun _ w => (Thrown, w)).




(** The code units of [s] are matched by [.] and differ from [stop]. *)
Definition plain_for (stop : char) (s : jsstring) : bool :=
  forallb (fun x => dot x && negb (N.eqb x stop))%bool s.


Definition in_fence (st : ScanState) : bool :=
  match st with InCodeFence _ => true | _ => false end.

(** ** Shapes of tables and of lines *)

(** Every row has as many cells as the longest row. *)
Definition rectangular {A : Type} (rows : list (list A)) : bool :=
  forallb (fun row => Nat.eqb (List.length row) (list_max (map (@List.length A) rows))) rows.

(** The delimiter characters of the inline tokenizer: the emphasis
    markers, the backtick and the dollar sign. *)
Definition is_delimiter (c : char) : bool :=
  (N.eqb c (ch "*") || N.eqb c (ch "_") || N.eqb c (ch "`") || N.eqb c (ch "$"))%bool.

Definition delimiter_free (s : jsstring) : bool :=
  forallb (fun c => negb (is_delimiter c)) s.

(** The plain run of a stretch of text, none when the stretch is empty. *)
Definition plain_runs (t font : jsstring) (fontSize : Q) (color : jsstring)
  : list ParagraphChild :=
  if nonempty t then [plain_run t font (fontSize * 2)%Q color] else [].

Definition not_dollar (c : char) : Prop := c <> ch "$".

Definition not_marker (c : char) : Prop :=
  c <> ch "*" /\ c <> ch "_" /\ c <> ch "`".

(** The markers of the emphasis pattern that can be closed at once. *)
Definition pair_markers : list jsstring := map js ["***"; "**"; "__"; "_"; "`"]%string.

(** ** The binary64 arithmetic of the kernel

    The primitive floating-point numbers of Rocq are IEEE 754 binary64
    values; [agrees_at w h] runs the quotient and the product of the image
    sizing on them and compares the results with those of [F64]. *)

Definition to_spec (x : F64.t) : spec_float :=
  match F64.mant x with
  | Zpos m =>
      if Pos.eqb m (2 ^ 53) then S754_finite false (2 ^ 52) (F64.expo x + 1)
      else S754_finite false m (F64.expo x)
  | _ => S754_zero false
  end.

Definition prim_of_Z (z : Z) : float := PrimFloat.of_uint63 (Uint63.of_Z z).

Definition agrees_at (w h : Z) : bool :=
  let ratio := PrimFloat.div (prim_of_Z MAX_WIDTH) (prim_of_Z w) in
  let product := PrimFloat.mul (prim_of_Z h) ratio in
  let ratio' := F64.div (F64.of_Z MAX_WIDTH) (F64.of_Z w) in
  let product' := F64.mul (F64.of_Z h) ratio' in
  match SFcompare (Prim2SF ratio) (to_spec ratio'),
        SFcompare (Prim2SF product) (to_spec product') with
  | Some Eq, Some Eq => true
  | _, _ => false
  end.

(** The sizes [w0 <= w < w0 + nw], [h0 <= h < h0 + nh]. *)
Definition sizes (w0 nw h0 nh : nat) : list (Z * Z) :=
  flat_map (fun w => map (fun h => (Z.of_nat w, Z.of_nat h)) (seq h0 nh)) (seq w0 nw).

(** ** Shapes of spans, of lines and of strings *)

(** The code units of [t] are matched by [.] and are no delimiters. *)
Definition span_text (t : jsstring) : bool :=
  forallb (fun c => dot c && negb (is_delimiter c))%bool t.

(** The marker is one that makes a span bold, italic, code. *)
Definition marker_bold (m : jsstring) : bool :=
  (jseqb m (js "***") || jseqb m (js "**") || jseqb m (js "__"))%bool.
Definition marker_italic (m : jsstring) : bool :=
  (jseqb m (js "***") || jseqb m (js "_"))%bool.
Definition marker_code (m : jsstring) : bool := jseqb m (js "`").

(** No underscore, backtick or dollar sign. *)
Definition asterisks_only (s : jsstring) : bool :=
  forallb (fun c => negb (N.eqb c (ch "_") || N.eqb c (ch "`") || N.eqb c (ch "$")))%bool s.

(** The text a segment stands for: its content between its markers. *)
Definition seg_source (seg : Segment) : jsstring :=
  match seg_style seg with
  | Some m => m ++ seg_text seg ++ m
  | None => seg_text seg
  end.

(** The text of a run; a math run has none. *)
Definition child_text (c : ParagraphChild) : jsstring :=
  match c with
  | PTextRun r => text r
  | _ => []
  end.

(** The first code unit of [s], if any, is not matched by [p]. *)
Definition stops (p : char -> bool) (s : jsstring) : bool :=
  match s with
  | [] => true
  | c :: _ => negb (p c)
  end.


(** One when a block is open in the state of the scanner. *)
Definition pending_block (st : ScanState) : nat :=
  match st with Scanning => 0 | _ => 1 end.

(** ** The settings kept in [localStorage] (utils/settings)

    The storage maps keys to strings; [getItem] gives [null] for a key
    that is absent. *)

Definition Storage : Type := list (jsstring * jsstring).

Fixpoint getItem (st : Storage) (key : jsstring) : option jsstring :=
  match st with
  | [] => None
  | (k, v) :: st' => if jseqb k key then Some v else getItem st' key
  end.

Definition removeItem (st : Storage) (key : jsstring) : Storage :=
  filter (fun kv => negb (jseqb (fst kv) key)) st.

Definition setItem (st : Storage) (key value : jsstring) : Storage :=
  (key, value) :: removeItem st key.

(** [a || b] where [a] is a string, [null] or [undefined]. *)
Definition or_else (a : option jsstring) (b : jsstring) : jsstring :=
  match a with
  | Some (c :: s) => c :: s
  | _ => b
  end.

Inductive TaskType : Type := OcrTask | TextTask.

(** [AVAILABLE_MODELS[0].id] *)
Definition first_model : jsstring := js "gemini-3-flash-preview".

(** [env] is [process.env.API_KEY]. *)
Definition getEffectiveApiKey (st : Storage) (env : option jsstring) : jsstring :=
  or_else (getItem st (js "user_api_key")) (or_else env []).

Definition getEffectiveModel (st : Storage) (taskType : TaskType) : jsstring :=
  match getItem st (js "user_model") with
  | Some (c :: s) => c :: s
  | _ =>
      match taskType with
      | OcrTask => js "gemini-3-pro-preview"
      | TextTask => js "gemini-3-flash-preview"
      end
  end.

Definition getEffectiveBaseUrl (st : Storage) : jsstring :=
  or_else (getItem st (js "user_base_url")) [].

(** [if (value) setItem(key, value) else removeItem(key)] *)
Definition store (st : Storage) (key value : jsstring) : Storage :=
  if nonempty value then setItem st key value else removeItem st key.

Definition saveUserSettings (st : Storage) (apiKey model baseUrl : jsstring) : Storage :=
  store (store (store st (js "user_api_key") apiKey) (js "user_model") model)
    (js "user_base_url") baseUrl.

Record UserSettings : Type := mkUserSettings {
  us_apiKey : jsstring;
  us_model : jsstring;
  us_baseUrl : jsstring
}.

Definition getUserSettings (st : Storage) : UserSettings :=
  mkUserSettings (or_else (getItem st (js "user_api_key")) [])
                 (or_else (getItem st (js "user_model")) first_model)
                 (or_else (getItem st (js "user_base_url")) []).

(** ** The DOM of the imported document

    [htmlToMarkdown] parses its argument with the [DOMParser] of the
    browser and walks the body of the document it gets.  A node is a text
    node, an element with its attributes and child nodes, or a comment;
    [tagName] is the name of the element in lower case, what
    [el.tagName.toLowerCase()] gives. *)

#[warnings="-register-all"] Inductive Node : Type :=
| TextNode (nodeValue : jsstring)
| ElementNode (tagName : jsstring) (attributes : list (jsstring * jsstring))
    (childNodes : list Node)
| CommentNode (nodeValue : jsstring).

(** [node.textContent]: the text of the descendants, comments left out. *)
Fixpoint textContent (n : Node) : jsstring :=
  match n with
  | TextNode d => d
  | ElementNode _ _ cs =>
      List.concat
        (map (fun c => match c with CommentNode _ => [] | _ => textContent c end) cs)
  | CommentNode d => d
  end.

(** The descendants of a node in document order. *)
Fixpoint descendants (n : Node) : list Node :=
  match n with
  | ElementNode _ _ cs => flat_map (fun c => c :: descendants c) cs
  | _ => []
  end.

Definition has_tag (tags : list jsstring) (n : Node) : bool :=
  match n with
  | ElementNode t _ _ => existsb (jseqb t) tags
  | _ => false
  end.

(** [el.querySelectorAll(sel)] for a selector that is a list of element
    names. *)
Definition querySelectorAll (tags : list jsstring) (n : Node) : list Node :=
  filter (has_tag tags) (descendants n).

(** [el.getAttribute(name)] *)
Fixpoint getAttribute (attrs : list (jsstring * jsstring)) (name : jsstring)
  : option jsstring :=
  match attrs with
  | [] => None
  | (k, v) :: attrs' => if jseqb k name then Some v else getAttribute attrs' name
  end.

Definition is_nl_cr (c : char) : bool := (N.eqb c 10 || N.eqb c 13)%bool.

(** [/[\n\r]+/g] *)
Definition newlinesRegex : regex := cats [Class is_nl_cr; StarG is_nl_cr].

(** [s.replace(r, rep)] with the [g] flag and a constant replacement. *)
Definition replace_const (r : regex) (rep s : jsstring) : jsstring :=
  fst (replace_all r (fun (u : unit) _ => (rep, u)) s tt).

(** [(cell.textContent || '').replace(/[\n\r]+/g, ' ').trim()] *)
Definition cell_text (cell : Node) : jsstring :=
  trim (replace_const newlinesRegex (js " ") (textContent cell)).

(** [l.join(sep)] *)
Fixpoint join (sep : jsstring) (l : list jsstring) : jsstring :=
  match l with
  | [] => []
  | x :: l' =>
      match l' with
      | [] => x
      | _ :: _ => x ++ sep ++ join sep l'
      end
  end.

(** [while (row.length < colCount) row.push('')] *)
Definition pad (colCount : nat) (row : list jsstring) : list jsstring :=
  row ++ repeat [] (colCount - List.length row).

(** ['| ' + row.join(' | ') + ' |\n'] *)
Definition md_row (row : list jsstring) : jsstring :=
  js "| " ++ join (js " | ") row ++ js " |" ++ [10%N].

Definition table_data (tableEl : Node) : list (list jsstring) :=
  map (fun row => map cell_text (querySelectorAll [js "th"; js "td"] row))
      (querySelectorAll [js "tr"] tableEl).

Definition col_count (tableData : list (list jsstring)) : nat :=
  fold_left (fun mx row => Nat.max mx (List.length row)) tableData 0.

Definition convertTableToMarkdown (tableEl : Node) : jsstring :=
  let tableData := table_data tableEl in
  match tableData with
  | [] => []
  | headerRow :: dataRows =>
      let colCount := col_count tableData in
      if Nat.eqb colCount 0 then []
      else
        md_row (pad colCount headerRow)
        ++ md_row (repeat (js "---") colCount)
        ++ List.concat (map (fun row => md_row (pad colCount row)) dataRows)
  end.

Definition tag_is (t : jsstring) (names : list string) : bool :=
  existsb (fun s => jseqb t (js s)) names.

(** The first [switch] of [processNode]. *)
Definition open_tag (t : jsstring) (attrs : list (jsstring * jsstring)) (indentLevel : nat)
  : jsstring :=
  if tag_is t ["h1"%string] then [10%N] ++ js "# "
  else if tag_is t ["h2"%string] then [10%N] ++ js "## "
  else if tag_is t ["h3"%string] then [10%N] ++ js "### "
  else if tag_is t ["h4"%string] then [10%N] ++ js "#### "
  else if tag_is t ["h5"%string] then [10%N] ++ js "##### "
  else if tag_is t ["p"%string] then [10; 10]%N
  else if tag_is t ["strong"; "b"]%string then js "**"
  else if tag_is t ["em"; "i"]%string then js "*"
  else if tag_is t ["li"%string] then
    [10%N] ++ List.concat (repeat (js "  ") indentLevel) ++ js "- "
  else if tag_is t ["ul"; "ol"]%string then [10%N]
  else if tag_is t ["br"%string] then js "  " ++ [10%N]
  else if tag_is t ["code"%string] then js "`"
  else if tag_is t ["pre"%string] then [10%N] ++ js "```" ++ [10%N]
  else if tag_is t ["blockquote"%string] then [10%N] ++ js "> "
  else if tag_is t ["img"%string] then
    let src := getAttribute attrs (js "src") in
    let alt := or_else (getAttribute attrs (js "alt")) (js "image") in
    match src with
    | Some (c :: s) => [10%N] ++ js "![" ++ alt ++ js "](" ++ (c :: s) ++ js ")" ++ [10%N]
    | _ => []
    end
  else if tag_is t ["a"%string] then js "["
  else [].

(** The second [switch] of [processNode]. *)
Definition close_tag (t : jsstring) (attrs : list (jsstring * jsstring)) : jsstring :=
  if tag_is t ["h1"; "h2"; "h3"; "h4"; "h5"]%string then [10%N]
  else if tag_is t ["p"%string] then [10%N]
  else if tag_is t ["strong"; "b"]%string then js "**"
  else if tag_is t ["em"; "i"]%string then js "*"
  else if tag_is t ["code"%string] then js "`"
  else if tag_is t ["pre"%string] then [10%N] ++ js "```" ++ [10%N]
  else if tag_is t ["div"%string] then [10%N]
  else if tag_is t ["a"%string] then
    js "](" ++ or_else (getAttribute attrs (js "href")) (js "#") ++ js ")"
  else [].

(** [processNode]: what the call appends to [md]. *)
Fixpoint processNode (node : Node) (indentLevel : nat) : jsstring :=
  match node with
  | TextNode t =>
      if (negb (nonempty (trim t)) && includes t [10%N])%bool then [] else t
  | CommentNode _ => []
  | ElementNode t attrs cs =>
      if tag_is t ["table"%string] then
        [10; 10]%N ++ convertTableToMarkdown node ++ [10; 10]%N
      else
        let newIndent := if tag_is t ["ul"; "ol"]%string then S indentLevel else indentLevel in
        open_tag t attrs indentLevel
        ++ List.concat (map (fun child => processNode child newIndent) cs)
        ++ close_tag t attrs
  end.

(** [/\n\n\n+/g] *)
Definition blankLinesRegex : regex :=
  cats [Lit 10%N; Lit 10%N; Lit 10%N; StarG (N.eqb 10)].

(** [htmlToMarkdown], from the body of the parsed document on. *)
Definition htmlToMarkdown (body : Node) : jsstring :=
  trim (replace_const blankLinesRegex [10; 10]%N (processNode body 0)).

(** ** Shapes of imported text *)

(** Neither the first nor the last code unit of [s] is white space. *)
Definition trimmed (s : jsstring) : bool :=
  (stops is_space s && stops is_space (rev s))%bool.

(** ['| ' + row.join(' | ') + ' |'], a line of an imported table. *)
Definition md_line (row : list jsstring) : jsstring :=
  js "| " ++ join (js " | ") row ++ js " |".


(** A row with a cell that holds a code unit other than a dash and a
    colon: a row of a header or of data, not a separator row. *)
Definition data_row (row : list jsstring) : bool :=
  existsb (existsb (fun c => negb (is_dash c || N.eqb c (ch ":")))) row.

(** The number of code units at the start of [s] that [p] matches. *)
Fixpoint leading (p : char -> bool) (s : jsstring) : nat :=
  match s with
  | c :: s' => if p c then S (leading p s') else 0
  | [] => 0
  end.

Definition is_nl (c : char) : bool := N.eqb 10 c.


(** ** The formula editor (components/Editor/MathEditorController) *)

Inductive MathDisplayMode : Type := BlockMode | InlineMode.

(** [s.endsWith(p)] *)
Definition endsWith (s p : jsstring) : bool := startsWith (rev s) (rev p).

(** [s.slice(k, -k)] *)
Definition slice_ends (k : nat) (s : jsstring) : jsstring :=
  firstn (List.length s - k - k) (skipn k s).

Definition parseMathSelection (selected : jsstring) : jsstring * option MathDisplayMode :=
  let trimmed := trim selected in
  if (startsWith trimmed (js "$$") && endsWith trimmed (js "$$"))%bool then
    (trim (slice_ends 2 trimmed), Some BlockMode)
  else if (startsWith trimmed (js "$") && endsWith trimmed (js "$"))%bool then
    (trim (slice_ends 1 trimmed), Some InlineMode)
  else (trimmed, None).

(** The text [handleInsert] puts between [before] and [after]. *)
Definition math_insertion (before after trimmed : jsstring) (displayMode : MathDisplayMode)
  : jsstring :=
  match displayMode with
  | BlockMode =>
      let needsLeadingNewline := (nonempty before && negb (endsWith before [10%N]))%bool in
      let needsTrailingNewline := (nonempty after && negb (startsWith after [10%N]))%bool in
      (if needsLeadingNewline then [10%N] else [])
      ++ js "$$" ++ [10%N] ++ trimmed ++ [10%N] ++ js "$$"
      ++ (if needsTrailingNewline then [10%N] else [])
  | InlineMode => js "$" ++ trimmed ++ js "$"
  end.

(** [handleInsert] on the text [current] of the editor with the range
    [start], [end] to replace: the next text and the position of the
    cursor, or nothing when no formula was typed. *)
Definition handleInsert (current : jsstring) (start end_ : nat) (latex : jsstring)
  (displayMode : MathDisplayMode) : option (jsstring * nat) :=
  let trimmed := trim latex in
  if nonempty trimmed then
    let before := firstn start current in
    let after := skipn end_ current in
    let insertion := math_insertion before after trimmed displayMode in
    Some (before ++ insertion ++ after, List.length before + List.length insertion)
  else None.



(** * Properties *)

(** ** The outer loop and the states of the scanner *)

Section ScanNodes.

Context {W : Type} (B : Browser W) (style : DocumentStyle).

Lemma scan_cons (raw : jsstring) (rest : list jsstring) :
  scan B style (raw :: rest) =
  match classify raw with
  | KHeading =>
      match heading_block style (trim raw) with
      | Some heading => tl <- scan B style rest ;; ret (heading :: tl)
      | None => throw
      end
  | KImage alt url =>
      imgData <- fetchImageBuffer B url ;;
      tl <- scan B style rest ;;
      ret (image_or_placeholder style alt imgData :: tl)
  | KFence => fence_loop (scan B style) [] rest
  | KTable => table_loop style (scan B style) [trim raw] rest
  | KParagraph =>
      tl <- scan B style rest ;; ret (paragraph_block style (trim raw) :: tl)
  | KBlank => scan B style rest
  end.
Proof.
  unfold classify. cbn [scan].
  destruct (startsWith (trim raw) (js "#")); [reflexivity|].
  destruct (image_match (trim raw)) as [[alt url]|]; [reflexivity|].
  destruct (startsWith (trim raw) (js "```")); [reflexivity|].
  destruct (startsWith (trim raw) (js "|")); [reflexivity|].
  destruct (nonempty (trim raw)); reflexivity.
Qed.

Lemma fence_loop_nodes (k : list jsstring -> M W (list SectionChild)) :
  forall ls codeLines,
    (forall ls', List.length ls' < List.length ls ->
       forall w, k ls' w = assemble B style (nodes Scanning ls') w) ->
    forall w, fence_loop k codeLines ls w
              = assemble B style (nodes (InCodeFence codeLines) ls) w.
Proof.
  induction ls as [|l ls IH]; intros codeLines Hk w.
  - reflexivity.
  - cbn [fence_loop nodes out step]. destruct (is_fence l).
    + cbn [app assemble]. unfold bind. rewrite Hk by (simpl; lia). reflexivity.
    + cbn [app]. apply IH. intros ls' Hlt. apply Hk. simpl. lia.
Qed.

Lemma table_loop_nodes (k : list jsstring -> M W (list SectionChild)) :
  forall ls tableLines,
    (forall ls', List.length ls' <= List.length ls ->
       forall w, k ls' w = assemble B style (nodes Scanning ls') w) ->
    forall w, table_loop style k tableLines ls w
              = assemble B style (nodes (InTable tableLines) ls) w.
Proof.
  induction ls as [|l ls IH]; intros tableLines Hk w.
  - cbn [table_loop nodes flush assemble]. unfold bind, ret.
    rewrite app_nil_r. reflexivity.
  - cbn [table_loop nodes out step]. destruct (is_pipe_line l).
    + cbn [app]. apply IH. intros ls' Hle. apply Hk. simpl. lia.
    + cbn [app assemble]. unfold bind. rewrite Hk by lia. reflexivity.
Qed.

Lemma scan_nodes_le :
  forall n lines, List.length lines <= n ->
    forall w, scan B style lines w = assemble B style (nodes Scanning lines) w.
Proof.
  induction n as [|n IH]; intros [|raw rest] Hlen w; try reflexivity.
  - simpl in Hlen. lia.
  - simpl in Hlen. rewrite scan_cons.
    cbn [nodes out step]. unfold out_scanning, step_scanning.
    destruct (classify raw) as [|alt url| | | |]; cbn [app assemble].
    + destruct (heading_block style (trim raw)); [|reflexivity].
      unfold bind. rewrite IH by lia. reflexivity.
    + unfold bind. destruct (fetchImageBuffer B url w) as [[d|] w']; [|reflexivity].
      rewrite IH by lia. reflexivity.
    + apply fence_loop_nodes. intros ls' Hlt w0. apply IH. lia.
    + apply table_loop_nodes. intros ls' Hle w0. apply IH. lia.
    + unfold bind. rewrite IH by lia. reflexivity.
    + apply IH. lia.
Qed.

(** The loops of [downloadDocx] produce the block nodes of the state
    machine, assembled in document order. *)
Lemma scan_nodes (lines : list jsstring) (w : W) :
  scan B style lines w = assemble B style (nodes Scanning lines) w.
Proof. apply scan_nodes_le with (n := List.length lines). lia. Qed.

End ScanNodes.

(** ** Matches advance *)

Lemma star_greedy_advance (p : char -> bool) (k : mstate -> option mstate)
  (cs : list (nat * jsstring)) (m : mstate) :
  forall inp i,
    star_greedy p k i cs inp = Some m ->
    exists s', k s' = Some m /\ i <= pos s'.
Proof.
  induction inp as [|c inp IH]; intros i H; cbn [star_greedy] in H.
  - eexists. split; [exact H | cbn; lia].
  - destruct (p c).
    + destruct (star_greedy p k (S i) cs inp) as [r|] eqn:E.
      * inversion H; subst r. destruct (IH _ E) as (s' & Hk & Hle).
        exists s'. split; [assumption | lia].
      * eexists. split; [exact H | cbn; lia].
    + eexists. split; [exact H | cbn; lia].
Qed.

Lemma star_lazy_advance (p : char -> bool) (k : mstate -> option mstate)
  (cs : list (nat * jsstring)) (m : mstate) :
  forall inp i,
    star_lazy p k i cs inp = Some m ->
    exists s', k s' = Some m /\ i <= pos s'.
Proof.
  induction inp as [|c inp IH]; intros i H; cbn [star_lazy] in H.
  - destruct (k (MState i [] cs)) as [r|] eqn:E; [|discriminate].
    eexists. split; [rewrite E; exact H | cbn; lia].
  - destruct (k (MState i (c :: inp) cs)) as [r|] eqn:E.
    + eexists. split; [rewrite E; exact H | cbn; lia].
    + destruct (p c); [|discriminate].
      destruct (IH _ H) as (s' & Hk & Hle). exists s'. split; [assumption | lia].
Qed.

(** A successful match hands to its continuation a state at least
    [minlen r] code units further. *)
Lemma rmatch_advance (m : mstate) :
  forall r s k,
    rmatch r s k = Some m ->
    exists s', k s' = Some m /\ pos s + minlen r <= pos s'.
Proof.
  induction r as [|c|p|r1 IH1 r2 IH2|r1 IH1 r2 IH2|r1 IH1|p|p|n r1 IH1|n| |];
    intros s k H; cbn [rmatch minlen] in *.
  - exists s. split; [assumption | lia].
  - destruct (rest s) as [|x inp']; [discriminate|].
    destruct (N.eqb x c); [|discriminate].
    eexists. split; [exact H | cbn; lia].
  - destruct (rest s) as [|x inp']; [discriminate|].
    destruct (p x); [|discriminate].
    eexists. split; [exact H | cbn; lia].
  - destruct (IH1 _ _ H) as (s1 & H1 & Hle1).
    destruct (IH2 _ _ H1) as (s2 & H2 & Hle2).
    exists s2. split; [assumption | lia].
  - destruct (rmatch r1 s k) as [r|] eqn:E.
    + inversion H; subst r. destruct (IH1 _ _ E) as (s' & Hk & Hle).
      exists s'. split; [assumption | lia].
    + destruct (IH2 _ _ H) as (s' & Hk & Hle). exists s'. split; [assumption | lia].
  - destruct (rmatch r1 s k) as [r|] eqn:E.
    + inversion H; subst r. destruct (IH1 _ _ E) as (s' & Hk & Hle).
      exists s'. split; [assumption | lia].
    + exists s. split; [assumption | lia].
  - destruct (star_greedy_advance _ _ _ _ _ H) as (s' & Hk & Hle).
    exists s'. split; [assumption | lia].
  - destruct (star_lazy_advance _ _ _ _ _ H) as (s' & Hk & Hle).
    exists s'. split; [assumption | lia].
  - destruct (IH1 _ _ H) as (s' & Hk & Hle).
    eexists. split; [exact Hk | cbn; lia].
  - destruct (lookup n (caps s)) as [v|].
    + destruct (startsWith (rest s) v); [|discriminate].
      eexists. split; [exact H | cbn; lia].
    + exists s. split; [assumption | lia].
  - destruct (Nat.eqb (pos s) 0); [|discriminate]. exists s. split; [assumption | lia].
  - destruct (rest s); [|discriminate]. exists s. split; [assumption | lia].
Qed.

Lemma match_here_advance (r : regex) (i : nat) (inp : jsstring) (m : mstate) :
  match_here r i inp = Some m -> i + minlen r <= pos m.
Proof.
  unfold match_here. intros H.
  destruct (rmatch_advance _ _ _ H) as (s' & Hk & Hle).
  inversion Hk; subst s'. exact Hle.
Qed.

(** No match of the emphasis patterns is empty: in the loops of
    [parseInlineStyles], [lastIndex] advances at every match. *)
Lemma combined_match_nonempty (i : nat) (inp : jsstring) (m : mstate) :
  match_here combinedRegex i inp = Some m -> i < pos m.
Proof. intros H. apply match_here_advance in H. cbn in H. lia. Qed.

Lemma regex1_match_nonempty (i : nat) (inp : jsstring) (m : mstate) :
  match_here V1.regex1 i inp = Some m -> i < pos m.
Proof. intros H. apply match_here_advance in H. cbn in H. lia. Qed.

(** ** Anchored patterns *)

Lemma search_from_anchored (r : regex) :
  forall inp i, search_from (Cat Bol r) (S i) inp = None.
Proof.
  induction inp as [|c inp IH]; intros i; cbn [search_from]; unfold match_here;
    cbn [rmatch pos Nat.eqb]; [reflexivity | apply IH].
Qed.

Lemma search_anchored (r : regex) (s : jsstring) :
  search (Cat Bol r) s =
  match match_here (Cat Bol r) 0 s with
  | Some m => Some (0, m)
  | None => None
  end.
Proof.
  unfold search. destruct s as [|c s]; cbn [search_from].
  - destruct (match_here (Cat Bol r) 0 []); reflexivity.
  - destruct (match_here (Cat Bol r) 0 (c :: s)); [reflexivity|].
    apply search_from_anchored.
Qed.

(** A line that starts with the image pattern starts with an exclamation
    mark, so it is no heading. *)
Lemma image_match_head (line alt url : jsstring) :
  image_match line = Some (alt, url) -> exists t, line = ch "!" :: t.
Proof.
  unfold image_match, imageRegex, cats. cbn [fold_right].
  rewrite search_anchored. unfold match_here. cbn [rmatch pos rest Nat.eqb].
  destruct line as [|c t]; [discriminate|].
  destruct (N.eqb_spec c (ch "!")) as [->|]; [|discriminate].
  intros _. exists t. reflexivity.
Qed.


(** A fence line is neither a heading nor an image. *)
Lemma classify_fence (raw : jsstring) :
  is_fence raw = true -> classify raw = KFence.
Proof.
  unfold is_fence, classify. intros H. rewrite H.
  destruct (trim raw) as [|c t]; [discriminate|].
  change (js "```") with [96; 96; 96]%N in H. cbn [startsWith] in H.
  apply andb_true_iff in H. destruct H as [Hc _].
  apply N.eqb_eq in Hc. subst c.
  change (startsWith (96%N :: t) (js "#")) with false. cbv iota.
  destruct (image_match (96%N :: t)) as [[a u]|] eqn:E.
  - destruct (image_match_head _ E) as [t' Ht']. inversion Ht'.
  - reflexivity.
Qed.

(** ** The image resolver never throws *)

Section Resolver.

Context {W : Type} (B : Browser W).






End Resolver.



(** ** A code fence that is never closed *)

Lemma classify_fence_inv (raw : jsstring) :
  classify raw = KFence -> is_fence raw = true.
Proof.
  unfold classify, is_fence.
  destruct (startsWith (trim raw) (js "#")); [discriminate|].
  destruct (image_match (trim raw)) as [[a u]|]; [discriminate|].
  destruct (startsWith (trim raw) (js "```")); [reflexivity|].
  destruct (startsWith (trim raw) (js "|")); [discriminate|].
  destruct (nonempty (trim raw)); discriminate.
Qed.






Section Assemble.

Context {W : Type} (B : Browser W) (style : DocumentStyle).


End Assemble.



(** ** Images are resolved one after the other *)

Section Determinism.

Context {W1 W2 : Type} (B1 : Browser W1) (B2 : Browser W2).
Context (resolve : jsstring -> option ImageData).
Hypothesis resolve1 : forall url w, fst (fetchImageBuffer B1 url w) = Returned (resolve url).
Hypothesis resolve2 : forall url w, fst (fetchImageBuffer B2 url w) = Returned (resolve url).


End Determinism.





(** ** Lazy repetition *)

(** The code units of the character literals, computed. *)
Ltac norm_ch :=
  repeat match goal with
         | |- context [ch ?a] =>
             let v := eval vm_compute in (ch a) in change (ch a) with v
         | H : context [ch ?a] |- _ =>
             let v := eval vm_compute in (ch a) in change (ch a) with v in H
         end.

Lemma star_lazy_unfold (p : char -> bool) (k : mstate -> option mstate)
  (i : nat) (cs : list (nat * jsstring)) (inp : jsstring) :
  star_lazy p k i cs inp =
  match k (MState i inp cs) with
  | Some r => Some r
  | None =>
      match inp with
      | c :: inp' => if p c then star_lazy p k (S i) cs inp' else None
      | [] => None
      end
  end.
Proof. destruct inp; reflexivity. Qed.

(** The lazy repetition passes over the code units at which the
    continuation fails. *)
Lemma star_lazy_skip (p : char -> bool) (k : mstate -> option mstate)
  (cs : list (nat * jsstring)) :
  forall xs inp i,
    (forall x, In x xs -> p x = true) ->
    (forall j x t, In x xs -> k (MState j (x :: t) cs) = None) ->
    star_lazy p k i cs (xs ++ inp) = star_lazy p k (i + List.length xs) cs inp.
Proof.
  induction xs as [|x xs IH]; intros inp i Hp Hk.
  - cbn [app List.length]. rewrite Nat.add_0_r. reflexivity.
  - cbn [app List.length star_lazy].
    rewrite Hk by (left; reflexivity). rewrite Hp by (left; reflexivity).
    rewrite IH.
    + rewrite Nat.add_succ_r. reflexivity.
    + intros y Hy. apply Hp. right. assumption.
    + intros j y t Hy. apply Hk. right. assumption.
Qed.

Lemma plain_for_In (stop : char) (s : jsstring) :
  plain_for stop s = true ->
  forall x, In x s -> dot x = true /\ x <> stop.
Proof.
  unfold plain_for. intros H x Hx.
  rewrite forallb_forall in H. specialize (H x Hx).
  apply andb_true_iff in H. destruct H as [Hd Hn]. split; [assumption|].
  apply negb_true_iff in Hn. apply N.eqb_neq. assumption.
Qed.

(** ** The image pattern *)

Lemma firstn_exact {A : Type} (xs ys : list A) (n : nat) :
  n = List.length xs -> firstn n (xs ++ ys) = xs.
Proof.
  intros ->. rewrite firstn_app, Nat.sub_diag, firstn_all. cbn [firstn].
  apply app_nil_r.
Qed.


(** ** Trimming *)

Lemma drop_spaces_nonspace (xs ys : jsstring) (z : char) :
  is_space z = false ->
  drop_spaces (xs ++ z :: ys) = drop_spaces xs ++ z :: ys.
Proof.
  intros Hz. induction xs as [|x xs IH]; cbn [app drop_spaces].
  - rewrite Hz. reflexivity.
  - destruct (is_space x); [assumption | reflexivity].
Qed.





(** ** Inline styles on concrete lines *)

(** C1. On the line [$a_b$ is *legal*] the converter does not produce a
    math run, a plain run and an italic run: the placeholder
    [__MATH_INLINE_0__] that stands for the math span is itself read as a
    bold span by the emphasis pattern, and the pattern has no alternative
    for a single asterisk.  The result is a bold run [MATH_INLINE_0] and a
    plain run [ is *legal*].  The earlier version of the function gives a
    Cambria Math run [a_b] and the same plain run. *)
Theorem math_placeholder_read_as_bold (font : jsstring) (fontSize : Q) (color : jsstring) :
  parseInlineStyles (js "$a_b$ is *legal*") font fontSize color
  = [PTextRun (mkTextRun (js "MATH_INLINE_0") (Some font) (Some (fontSize * 2)%Q)
                 true false (Some color) None);
     plain_run (js " is *legal*") font (fontSize * 2)%Q color]
  /\ V1.parseInlineStyles (js "$a_b$ is *legal*") font fontSize
     = [PTextRun (mkTextRun (js "a_b") (Some (js "Cambria Math")) (Some fontSize)
                    false true None None);
        PTextRun (mkTextRun (js " is *legal*") (Some font) (Some fontSize)
                    false false None None)].
Proof. split; reflexivity. Qed.

(** ** Table rows *)

(** C8. A separator row with colons is kept: the filter of the rows only
    knows cells made of dashes, so [|:---:|---|] stays in the table as a row
    of its own, between the header and the data.  The earlier version of the
    converter recognised that line as a separator. *)
Theorem colon_separator_row_kept :
  table_rows (map js ["| a | b |"; "|:---:|---|"; "| 1 | 2 |"]%string)
  = [[js "a"; js "b"]; [js ":---:"; js "---"]; [js "1"; js "2"]]
  /\ is_separator_row (row_cells (js "|:---:|---|")) = false
  /\ V1.is_separator (js "|:---:|---|") = true.
Proof. repeat split; reflexivity. Qed.

Lemma filter_map_comm {A B : Type} (f : A -> B) (p : B -> bool) (l : list A) :
  filter p (map f l) = map f (filter (fun a => p (f a)) l).
Proof.
  induction l as [|a l IH]; [reflexivity|]. cbn [map filter].
  destruct (p (f a)); cbn [map]; rewrite IH; reflexivity.
Qed.

Lemma mapi_cells_length {A B C : Type} (f : A -> nat -> B -> C) :
  forall (rows : list (list B)) (g : list B -> A) i,
    map (@List.length _) (mapi (fun row rowIndex => map (f (g row) rowIndex) row) i rows)
    = map (@List.length _) rows.
Proof.
  induction rows as [|row rows IH]; intros g i; [reflexivity|].
  cbn [mapi map]. rewrite length_map, IH. reflexivity.
Qed.

(** ** Lines without delimiters *)

Lemma replace_walk_no_match {S : Type} (r : regex) (f : S -> mstate -> jsstring * S)
  (P : char -> Prop) :
  (forall i, match_here r i [] = None) ->
  (forall i c t, P c -> match_here r i (c :: t) = None) ->
  forall inp i st, Forall P inp -> replace_walk r f i 0 inp st = (inp, st).
Proof.
  intros Hnil Hcons. induction inp as [|c inp IH]; intros i st HP.
  - cbn [replace_walk]. rewrite Hnil. reflexivity.
  - inversion HP as [|? ? Hc Hrest]; subst.
    cbn [replace_walk]. rewrite (Hcons i c inp Hc), IH by assumption. reflexivity.
Qed.

Lemma exec_loop_plain_prefix {A : Type} (r : regex) (plain : jsstring -> A)
  (styled : mstate -> A) (P : char -> Prop) :
  (forall i c t, P c -> match_here r i (c :: t) = None) ->
  forall p inp i pending,
    Forall P p ->
    exec_loop r plain styled i 0 pending (p ++ inp)
    = exec_loop r plain styled (i + List.length p) 0 (pending ++ p) inp.
Proof.
  intros Hcons. induction p as [|c p IH]; intros inp i pending HP.
  - cbn [app List.length]. rewrite Nat.add_0_r, app_nil_r. reflexivity.
  - inversion HP as [|? ? Hc Hrest]; subst.
    cbn [app exec_loop List.length]. rewrite (Hcons i c _ Hc), IH by assumption.
    rewrite <- app_assoc, Nat.add_succ_r. reflexivity.
Qed.

Lemma exec_loop_skip {A : Type} (r : regex) (plain : jsstring -> A)
  (styled : mstate -> A) :
  forall xs inp i pending,
    exec_loop r plain styled i (List.length xs) pending (xs ++ inp)
    = exec_loop r plain styled (i + List.length xs) 0
        (match xs with [] => pending | _ :: _ => [] end) inp.
Proof.
  induction xs as [|x xs IH]; intros inp i pending.
  - cbn [app List.length]. rewrite Nat.add_0_r. reflexivity.
  - cbn [app List.length exec_loop]. rewrite IH, Nat.add_succ_r.
    destruct xs; reflexivity.
Qed.

Lemma delimiter_free_Forall (s : jsstring) :
  delimiter_free s = true -> Forall not_dollar s /\ Forall not_marker s.
Proof.
  unfold delimiter_free. rewrite forallb_forall, !Forall_forall.
  intros H. split; intros c Hc; specialize (H c Hc);
    apply negb_true_iff in H; unfold is_delimiter in H;
    repeat (apply orb_false_iff in H; destruct H as [H ?]);
    repeat match goal with E : N.eqb _ _ = false |- _ => apply N.eqb_neq in E end.
  - assumption.
  - repeat split; assumption.
Qed.

Lemma displayMath_no_dollar (i : nat) (c : char) (t : jsstring) :
  not_dollar c -> match_here displayMathRegex i (c :: t) = None.
Proof.
  intros Hc. unfold match_here, displayMathRegex, cats. cbn [fold_right rmatch rest].
  destruct (N.eqb_spec c (ch "$")); [contradiction | reflexivity].
Qed.

Lemma inlineMath_no_dollar (i : nat) (c : char) (t : jsstring) :
  not_dollar c -> match_here inlineMathRegex i (c :: t) = None.
Proof.
  intros Hc. unfold match_here, inlineMathRegex, cats. cbn [fold_right rmatch rest].
  destruct (N.eqb_spec c (ch "$")); [contradiction | reflexivity].
Qed.

Lemma combined_no_marker (i : nat) (c : char) (t : jsstring) :
  not_marker c -> match_here combinedRegex i (c :: t) = None.
Proof.
  intros (H1 & H2 & H3).
  unfold match_here, combinedRegex, markerRegex, cats. cbn [fold_right rmatch rest].
  destruct (N.eqb_spec c (ch "*")); [contradiction|].
  destruct (N.eqb_spec c (ch "_")); [contradiction|].
  destruct (N.eqb_spec c (ch "`")); [contradiction | reflexivity].
Qed.

(** Without a dollar sign no math span is replaced. *)
Lemma no_math_spans (text : jsstring) :
  Forall not_dollar text ->
  forall st : list MathPlaceholder * nat,
    replace_all inlineMathRegex (math_replacer (js "INLINE") false)
      (fst (replace_all displayMathRegex (math_replacer (js "DISPLAY") true) text st))
      (snd (replace_all displayMathRegex (math_replacer (js "DISPLAY") true) text st))
    = (text, st).
Proof.
  intros H st. unfold replace_all.
  rewrite (@replace_walk_no_match _ displayMathRegex) with (P := not_dollar);
    [| reflexivity | apply displayMath_no_dollar | assumption].
  cbn [fst snd].
  apply replace_walk_no_match with (P := not_dollar);
    [reflexivity | apply inlineMath_no_dollar | assumption].
Qed.

Lemma parseInlineStyles_no_dollar (text font : jsstring) (fontSize : Q) (color : jsstring) :
  Forall not_dollar text ->
  parseInlineStyles text font fontSize color
  = flat_map (runs_of_segment [] font fontSize color) (segments_of text).
Proof.
  intros H. unfold parseInlineStyles.
  pose proof (no_math_spans H ([], 0)) as E.
  destruct (replace_all displayMathRegex (math_replacer (js "DISPLAY") true) text ([], 0))
    as [t1 st1]. cbn [fst snd] in E. rewrite E. reflexivity.
Qed.

Lemma segments_of_plain (text : jsstring) :
  Forall not_marker text ->
  segments_of text = if nonempty text then [mkSegment text None] else [].
Proof.
  intros H. unfold segments_of.
  rewrite <- (app_nil_r text) at 1.
  rewrite exec_loop_plain_prefix with (P := not_marker);
    [| apply combined_no_marker | assumption].
  reflexivity.
Qed.

Lemma runs_of_plain_segment (t font : jsstring) (fontSize : Q) (color : jsstring) :
  runs_of_segment [] font fontSize color (mkSegment t None)
  = [plain_run t font (fontSize * 2)%Q color].
Proof. reflexivity. Qed.

(** C9, as the code has it. A line that is not empty and contains no
    delimiter character (asterisk, underscore, backtick, dollar sign) gives
    exactly one run: the line itself, in the font, size and colour of the
    call, neither bold nor italic, without the code shading and not a math
    run.  The empty line gives no run. *)
Theorem plain_line_single_run (text font : jsstring) (fontSize : Q) (color : jsstring) :
  text <> [] ->
  delimiter_free text = true ->
  parseInlineStyles text font fontSize color
  = [PTextRun (mkTextRun text (Some font) (Some (fontSize * 2)%Q)
                 false false (Some color) None)].
Proof.
  intros Hne Hfree.
  destruct (delimiter_free_Forall _ Hfree) as [Hd Hm].
  rewrite parseInlineStyles_no_dollar, segments_of_plain by assumption.
  destruct text as [|c t]; [contradiction | reflexivity].
Qed.

(** The line [hello world]. *)
Lemma plain_line_single_run_witness :
  js "hello world" <> []
  /\ delimiter_free (js "hello world") = true
  /\ parseInlineStyles (js "hello world") (js "SimSun") 12 (js "000000")
     = [PTextRun (mkTextRun (js "hello world") (Some (js "SimSun")) (Some (12 * 2)%Q)
                    false false (Some (js "000000")) None)].
Proof.
  split; [discriminate|]. split; [reflexivity|].
  apply plain_line_single_run; [discriminate | reflexivity].
Defined.

(** The empty line, as the text of an empty heading or table cell, gives
    no run at all. *)
Lemma empty_line_no_run :
  parseInlineStyles [] (js "SimSun") 12 (js "000000") = []
  /\ List.length (parseInlineStyles [] (js "SimSun") 12 (js "000000")) <> 1.
Proof. split; [reflexivity | discriminate]. Qed.

(** ** An opening marker closed at once *)

Lemma star_lazy_none (p : char -> bool) (k : mstate -> option mstate)
  (cs : list (nat * jsstring)) :
  forall inp i,
    (forall j n, k (MState j (skipn n inp) cs) = None) ->
    star_lazy p k i cs inp = None.
Proof.
  induction inp as [|c inp IH]; intros i Hk.
  - cbn [star_lazy]. pose proof (Hk i 0) as H0. cbn [skipn] in H0. rewrite H0. reflexivity.
  - cbn [star_lazy]. pose proof (Hk i 0) as H0. cbn [skipn] in H0. rewrite H0.
    destruct (p c); [|reflexivity].
    apply IH. intros j n. apply (Hk j (S n)).
Qed.

Lemma startsWith_absent (t v : jsstring) (c : char) :
  ~ In c t -> startsWith t (c :: v) = false.
Proof.
  destruct t as [|x t]; intros H; cbn [startsWith]; [reflexivity|].
  destruct (N.eqb_spec c x) as [->|]; [|reflexivity].
  exfalso. apply H. left. reflexivity.
Qed.

Lemma skipn_In {A : Type} (x : A) :
  forall n l, In x (skipn n l) -> In x l.
Proof.
  induction n as [|n IH]; intros [|y l] H; cbn [skipn] in H; try assumption.
  right. apply IH. assumption.
Qed.

Lemma not_marker_absent (s : jsstring) :
  Forall not_marker s ->
  ~ In 42%N s /\ ~ In 95%N s /\ ~ In 96%N s.
Proof.
  rewrite Forall_forall. intros H.
  repeat split; intros Hin; destruct (H _ Hin) as (H1 & H2 & H3);
    [apply H1 | apply H2 | apply H3]; reflexivity.
Qed.

(** No suffix of [c :: s] starts with [c :: c :: v] when [c] is not in [s]. *)
Lemma no_longer_marker (c : char) (s v : jsstring) :
  ~ In c s ->
  forall n, startsWith (skipn n (c :: s)) (c :: c :: v) = false.
Proof.
  intros H [|n]; cbn [skipn].
  - cbn [startsWith]. rewrite N.eqb_refl. cbn [andb].
    apply startsWith_absent with (v := v). assumption.
  - apply startsWith_absent. intros Hin. apply H. eapply skipn_In. eassumption.
Qed.

Ltac pos_arith :=
  repeat match goal with
         | |- context [S (S (S ?i)) - ?i] => replace (S (S (S i)) - i) with 3 by lia
         | |- context [S (S ?i) - ?i] => replace (S (S i) - i) with 2 by lia
         | |- context [S ?i - ?i] => replace (S i - i) with 1 by lia
         | |- context [?i - ?i] => rewrite Nat.sub_diag
         end.

Ltac open_combined :=
  unfold match_here, combinedRegex, markerRegex, cats, pair_markers;
  norm_ch; cbn [app fold_right];
  cbn [rmatch pos rest caps N.eqb Pos.eqb].

Ltac close_combined :=
  rewrite star_lazy_unfold; cbn [pos rest caps lookup Nat.eqb]; pos_arith;
  cbn [firstn startsWith N.eqb Pos.eqb andb List.length skipn];
  f_equal; f_equal; lia.

(** At an opening marker that is closed at once, with no marker behind
    it, the emphasis pattern matches the two markers, with nothing in
    between. *)
Lemma combined_empty_pair (m s : jsstring) (i : nat) :
  In m pair_markers ->
  Forall not_marker s ->
  match_here combinedRegex i (m ++ m ++ s)
  = Some (MState (i + 2 * List.length m) s [(2, []); (1, m)]).
Proof.
  intros Hm Hs. destruct (not_marker_absent Hs) as (Hstar & Hund & Htick).
  cbn in Hm. destruct Hm as [<-|[<-|[<-|[<-|[<-|[]]]]]].
  - open_combined. close_combined.
  - open_combined.
    rewrite star_lazy_none.
    2: { intros j n. cbn [pos rest caps lookup Nat.eqb]. pos_arith. cbn [firstn].
         rewrite no_longer_marker by assumption. reflexivity. }
    close_combined.
  - open_combined. close_combined.
  - open_combined.
    rewrite star_lazy_none.
    2: { intros j n. cbn [pos rest caps lookup Nat.eqb]. pos_arith. cbn [firstn].
         rewrite startsWith_absent; [reflexivity|].
         intros Hin. apply Hund. eapply skipn_In. eassumption. }
    close_combined.
  - open_combined. close_combined.
Qed.

Lemma exec_loop_match {A : Type} (r : regex) (plain : jsstring -> A)
  (styled : mstate -> A) (i : nat) (pending : jsstring) (c : char) (inp : jsstring)
  (m : mstate) :
  match_here r i (c :: inp) = Some m ->
  exec_loop r plain styled i 0 pending (c :: inp)
  = (if nonempty pending then [plain pending] else [])
    ++ styled m :: exec_loop r plain styled (S i) (Nat.pred (pos m - i)) [] inp.
Proof. intros H. cbn [exec_loop]. rewrite H. reflexivity. Qed.

Lemma exec_loop_plain_end {A : Type} (plain : jsstring -> A) (styled : mstate -> A)
  (s pending : jsstring) (i : nat) :
  Forall not_marker s ->
  exec_loop combinedRegex plain styled i 0 pending s
  = if nonempty (pending ++ s) then [plain (pending ++ s)] else [].
Proof.
  intros H. rewrite <- (app_nil_r s) at 1.
  rewrite exec_loop_plain_prefix with (P := not_marker);
    [| apply combined_no_marker | assumption].
  reflexivity.
Qed.

Lemma pair_marker_shape (m : jsstring) :
  In m pair_markers ->
  exists c t, m = c :: t /\ Forall not_dollar m.
Proof.
  intros Hm. cbn in Hm. destruct Hm as [<-|[<-|[<-|[<-|[<-|[]]]]]];
    (eexists; eexists; split; [reflexivity|]);
    repeat constructor; discriminate.
Qed.

(** The segments of a line made of a stretch without delimiters, an
    opening marker closed at once and another stretch without
    delimiters. *)
Lemma segments_of_empty_pair (m p s : jsstring) :
  In m pair_markers ->
  Forall not_marker p ->
  Forall not_marker s ->
  segments_of (p ++ m ++ m ++ s)
  = (if nonempty p then [mkSegment p None] else [])
    ++ mkSegment [] (Some m)
    :: (if nonempty s then [mkSegment s None] else []).
Proof.
  intros Hm Hp Hs. unfold segments_of.
  rewrite exec_loop_plain_prefix with (P := not_marker);
    [| apply combined_no_marker | assumption].
  cbn [app Nat.add].
  pose proof (combined_empty_pair (List.length p) Hm Hs) as Hmatch.
  destruct (pair_marker_shape Hm) as (c & t & Em & _).
  rewrite Em in Hmatch |- *. cbn [app] in Hmatch |- *.
  erewrite exec_loop_match by exact Hmatch.
  cbn [pos group caps lookup Nat.eqb].
  replace (Nat.pred (List.length p + 2 * List.length (c :: t) - List.length p))
    with (List.length (t ++ c :: t)) by (rewrite length_app; cbn [List.length]; lia).
  change (t ++ c :: t ++ s) with (t ++ (c :: t) ++ s).
  rewrite app_assoc. cbn [app].
  rewrite exec_loop_skip, exec_loop_plain_end by assumption.
  destruct (t ++ c :: t); reflexivity.
Qed.

(** C7, as the code has it. An opening marker closed at once is not
    dropped: in a line made of a stretch without delimiter characters, one
    of the markers three asterisks, two asterisks, two underscores, one
    underscore or backtick written twice, and another stretch without
    delimiter characters, the pair gives exactly one run, between the plain
    runs of the two stretches.  Its text is empty and it has the style of
    the marker: bold for two asterisks or two underscores, italic for one
    underscore, both for three asterisks, in the font, colour and size of
    the call and without shading; the code font, colour, shading and size
    for a backtick. *)
Theorem empty_pair_empty_run (m p s fnt : jsstring) (fontSize : Q) (col : jsstring) :
  In m pair_markers ->
  delimiter_free p = true ->
  delimiter_free s = true ->
  exists r,
    parseInlineStyles (p ++ m ++ m ++ s) fnt fontSize col
    = plain_runs p fnt fontSize col ++ PTextRun r :: plain_runs s fnt fontSize col
    /\ text r = []
    /\ bold r = marker_bold m
    /\ italics r = marker_italic m
    /\ (if marker_code m
        then font r = Some (js "JetBrains Mono") /\ shading r = Some (js "F1F5F9")
             /\ color r = Some (js "E11D48") /\ size r = Some ((fontSize - 1) * 2)%Q
        else font r = Some fnt /\ shading r = None /\ color r = Some col
             /\ size r = Some (fontSize * 2)%Q).
Proof.
  intros Hm Hp Hs.
  destruct (delimiter_free_Forall _ Hp) as [Hpd Hpm].
  destruct (delimiter_free_Forall _ Hs) as [Hsd Hsm].
  destruct (pair_marker_shape Hm) as (c & t & _ & Hmd).
  assert (E : parseInlineStyles (p ++ m ++ m ++ s) fnt fontSize col
              = plain_runs p fnt fontSize col
                ++ runs_of_segment [] fnt fontSize col (mkSegment [] (Some m))
                ++ plain_runs s fnt fontSize col).
  { rewrite parseInlineStyles_no_dollar
      by (repeat (apply Forall_app; split); assumption).
    rewrite segments_of_empty_pair by assumption.
    rewrite flat_map_app. cbn [flat_map]. unfold plain_runs.
    destruct p, s; reflexivity. }
  rewrite E.
  cbn in Hm. destruct Hm as [<-|[<-|[<-|[<-|[<-|[]]]]]];
    eexists; (split; [reflexivity|]); repeat split.
Qed.

(** The lines [a****b], [a__b] and [a``b]: an empty bold run, an empty
    italic run and an empty code run between the runs of [a] and [b]. *)
Lemma empty_pair_empty_run_witness :
  (exists r,
     parseInlineStyles (js "a" ++ js "**" ++ js "**" ++ js "b")
       (js "SimSun") 12 (js "000000")
     = plain_runs (js "a") (js "SimSun") 12 (js "000000")
       ++ PTextRun r :: plain_runs (js "b") (js "SimSun") 12 (js "000000")
     /\ text r = [] /\ bold r = true /\ italics r = false
     /\ font r = Some (js "SimSun") /\ shading r = None
     /\ color r = Some (js "000000") /\ size r = Some (12 * 2)%Q)
  /\ (exists r,
        parseInlineStyles (js "a" ++ js "_" ++ js "_" ++ js "b")
          (js "SimSun") 12 (js "000000")
        = plain_runs (js "a") (js "SimSun") 12 (js "000000")
          ++ PTextRun r :: plain_runs (js "b") (js "SimSun") 12 (js "000000")
        /\ text r = [] /\ bold r = false /\ italics r = true
        /\ font r = Some (js "SimSun") /\ shading r = None
        /\ color r = Some (js "000000") /\ size r = Some (12 * 2)%Q)
  /\ (exists r,
        parseInlineStyles (js "a" ++ js "`" ++ js "`" ++ js "b")
          (js "SimSun") 12 (js "000000")
        = plain_runs (js "a") (js "SimSun") 12 (js "000000")
          ++ PTextRun r :: plain_runs (js "b") (js "SimSun") 12 (js "000000")
        /\ text r = [] /\ bold r = false /\ italics r = false
        /\ font r = Some (js "JetBrains Mono") /\ shading r = Some (js "F1F5F9")
        /\ color r = Some (js "E11D48") /\ size r = Some ((12 - 1) * 2)%Q).
Proof.
  split; [|split].
  - apply (@empty_pair_empty_run (js "**") (js "a") (js "b") (js "SimSun") 12 (js "000000"));
      [vm_compute; right; left; reflexivity | reflexivity | reflexivity].
  - apply (@empty_pair_empty_run (js "_") (js "a") (js "b") (js "SimSun") 12 (js "000000"));
      [vm_compute; do 3 right; left; reflexivity | reflexivity | reflexivity].
  - apply (@empty_pair_empty_run (js "`") (js "a") (js "b") (js "SimSun") 12 (js "000000"));
      [vm_compute; do 4 right; left; reflexivity | reflexivity | reflexivity].
Defined.

(** The line [****] gives a bold run with an empty text. *)
Lemma empty_bold_pair_gives_run :
  parseInlineStyles (js "****") (js "SimSun") 12 (js "000000")
  = [PTextRun (mkTextRun [] (Some (js "SimSun")) (Some (12 * 2)%Q)
                 true false (Some (js "000000")) None)]
  /\ parseInlineStyles (js "****") (js "SimSun") 12 (js "000000") <> [].
Proof. split; [reflexivity | discriminate]. Qed.

(** ** The display size of an image *)

Section F64Facts.

Local Open Scope Z_scope.
Import F64.

Lemma nearest_even_spec (n d : Z) :
  0 <= n -> 0 < d ->
  0 <= nearest_even n d /\ 2 * Z.abs (nearest_even n d * d - n) <= d.
Proof.
  intros Hn Hd. unfold nearest_even.
  pose proof (Z.div_mod n d ltac:(lia)) as E.
  pose proof (Z.mod_pos_bound n d Hd) as Hr.
  pose proof (Z.div_pos n d Hn Hd) as Hq.
  destruct (Z.ltb_spec (2 * (n mod d)) d).
  - split; [assumption|]. nia.
  - destruct (Z.ltb_spec d (2 * (n mod d))).
    + split; [lia|]. nia.
    + destruct (Z.even (n / d)); split; try lia; nia.
Qed.

Lemma scaled_pos (n d e : Z) :
  0 < n -> 0 < d -> 0 < fst (scaled n d e) /\ 0 < snd (scaled n d e).
Proof.
  intros Hn Hd. unfold scaled.
  destruct (Z.ltb_spec e 0); cbn [fst snd].
  - pose proof (Z.pow_pos_nonneg 2 (- e) ltac:(lia) ltac:(lia)). nia.
  - pose proof (Z.pow_pos_nonneg 2 e ltac:(lia) ltac:(lia)). nia.
Qed.

(** [scaled n d e] stands for [n / (d * 2 ^ e)]: one step down in the
    exponent doubles the fraction. *)
Lemma scaled_pred (n d e : Z) :
  fst (scaled n d (e - 1)) * snd (scaled n d e)
  = 2 * fst (scaled n d e) * snd (scaled n d (e - 1)).
Proof.
  unfold scaled.
  destruct (Z.ltb_spec e 0); destruct (Z.ltb_spec (e - 1) 0); cbn [fst snd]; try lia.
  - replace (- (e - 1)) with (1 + - e) by lia.
    rewrite Z.pow_add_r by lia. change (2 ^ 1) with 2. ring.
  - assert (e = 0) by lia. subst e.
    change (- (0 - 1)) with 1. change (2 ^ 1) with 2. change (2 ^ 0) with 1. ring.
  - replace e with (1 + (e - 1)) at 1 by lia.
    rewrite Z.pow_add_r by lia. change (2 ^ 1) with 2. ring.
Qed.

Lemma scaled_log2 (n d : Z) :
  0 < n -> 0 < d ->
  let e0 := Z.log2 n - Z.log2 d - 52 in
  2 ^ 51 * snd (scaled n d e0) < fst (scaled n d e0)
  /\ fst (scaled n d e0) < 2 ^ 53 * snd (scaled n d e0).
Proof.
  intros Hn Hd e0.
  pose proof (Z.log2_spec n Hn) as [Hn1 Hn2].
  pose proof (Z.log2_spec d Hd) as [Hd1 Hd2].
  pose proof (Z.log2_nonneg n) as Ha. pose proof (Z.log2_nonneg d) as Hb.
  set (a := Z.log2 n) in *. set (b := Z.log2 d) in *.
  rewrite Z.pow_succ_r in Hn2, Hd2 by assumption.
  unfold scaled. destruct (Z.ltb_spec e0 0); cbn [fst snd].
  - (* a < b + 52 : n * 2^(b+52-a) against d *)
    subst e0. replace (- (a - b - 52)) with (b + 52 - a) by lia.
    assert (E : 2 ^ (b + 52 - a) * 2 ^ a = 2 ^ 52 * 2 ^ b).
    { rewrite <- !Z.pow_add_r by lia. f_equal. lia. }
    pose proof (Z.pow_pos_nonneg 2 (b + 52 - a) ltac:(lia) ltac:(lia)) as Hk.
    pose proof (Z.pow_pos_nonneg 2 a ltac:(lia) ltac:(lia)).
    pose proof (Z.pow_pos_nonneg 2 b ltac:(lia) ltac:(lia)).
    set (K := 2 ^ (b + 52 - a)) in *. set (A := 2 ^ a) in *. set (Bb := 2 ^ b) in *.
    change (2 ^ 51) with 2251799813685248. change (2 ^ 53) with 9007199254740992.
    change (2 ^ 52) with 4503599627370496 in E.
    split; nia.
  - subst e0.
    assert (E : 2 ^ (a - b - 52) * (2 ^ 52 * 2 ^ b) = 2 ^ a).
    { rewrite <- !Z.pow_add_r by lia. f_equal. lia. }
    pose proof (Z.pow_pos_nonneg 2 (a - b - 52) ltac:(lia) ltac:(lia)) as Hk.
    pose proof (Z.pow_pos_nonneg 2 a ltac:(lia) ltac:(lia)).
    pose proof (Z.pow_pos_nonneg 2 b ltac:(lia) ltac:(lia)).
    set (K := 2 ^ (a - b - 52)) in *. set (A := 2 ^ a) in *. set (Bb := 2 ^ b) in *.
    change (2 ^ 51) with 2251799813685248. change (2 ^ 53) with 9007199254740992.
    change (2 ^ 52) with 4503599627370496 in E.
    split; nia.
Qed.

Lemma exponent_spec (n d : Z) :
  0 < n -> 0 < d ->
  let e := exponent n d in
  2 ^ 52 * snd (scaled n d e) <= fst (scaled n d e)
  /\ fst (scaled n d e) < 2 ^ 53 * snd (scaled n d e).
Proof.
  intros Hn Hd. unfold exponent.
  pose proof (scaled_log2 Hn Hd) as [H1 H2]. cbv zeta in H1, H2.
  set (e0 := Z.log2 n - Z.log2 d - 52) in *.
  pose proof (scaled_pred n d e0) as Hp.
  pose proof (scaled_pos (e0 - 1) Hn Hd) as [Hp1 Hp2].
  pose proof (scaled_pos e0 Hn Hd) as [Hq1 Hq2].
  destruct (scaled n d e0) as [n0 d0] eqn:E0. cbn [fst snd] in *.
  destruct (Z.leb_spec (2 ^ 52 * d0) n0).
  - cbv zeta. rewrite E0. cbn [fst snd]. split; assumption.
  - cbv zeta. destruct (scaled n d (e0 - 1)) as [n1 d1]. cbn [fst snd] in *.
    change (2 ^ 51) with 2251799813685248 in *. change (2 ^ 53) with 9007199254740992 in *.
    change (2 ^ 52) with 4503599627370496 in *.
    split; nia.
Qed.


Lemma pow2_gt_52 (e : Z) : 2 ^ 52 < 2 ^ (- e) -> e <= -53.
Proof.
  intros H. destruct (Z.le_gt_cases e (-53)) as [|Hgt]; [assumption|exfalso].
  destruct (Z.le_gt_cases 0 (- e)) as [Hpos|Hneg].
  - pose proof (Z.pow_le_mono_r 2 (- e) 52 ltac:(lia) ltac:(lia)). lia.
  - rewrite (Z.pow_neg_r 2 (- e)) in H by lia.
    change (2 ^ 52) with 4503599627370496 in H. lia.
Qed.

(** The quotient [600 / w] of a width above 600. *)
Lemma div_600 (w : Z) :
  600 < w ->
  let r := div (of_Z 600) (of_Z w) in
  let S := 2 ^ (- expo r) in
  expo r <= -53
  /\ 2 ^ 52 * w <= 600 * S
  /\ 0 <= mant r <= 2 ^ 53
  /\ 2 * Z.abs (mant r * w - 600 * S) <= w.
Proof.
  intros Hw. unfold div, of_Z, round53. cbn [mant expo].
  change (600 =? 0) with false. cbv iota.
  pose proof (@exponent_spec 600 w ltac:(lia) ltac:(lia)) as Hexp. cbv zeta in Hexp.
  set (e := exponent 600 w) in *.
  unfold scaled in *.
  destruct (Z.ltb_spec e 0) as [Hneg|Hpos]; cbn [fst snd mant expo] in *.
  - replace (e + 0 - 0) with e by lia.
    pose proof (Z.pow_pos_nonneg 2 (- e) ltac:(lia) ltac:(lia)) as HS.
    destruct Hexp as [Hlo Hhi].
    pose proof (@nearest_even_spec (600 * 2 ^ (- e)) w ltac:(lia) ltac:(lia)) as [Hm0 Hm].
    set (S := 2 ^ (- e)) in *. set (m := nearest_even (600 * S) w) in *.
    change (2 ^ 52) with 4503599627370496 in *. change (2 ^ 53) with 9007199254740992 in *.
    assert (He : e <= -53).
    { apply pow2_gt_52. fold S. change (2 ^ 52) with 4503599627370496. nia. }
    repeat split; try assumption; nia.
  - exfalso. destruct Hexp as [Hlo _].
    pose proof (Z.pow_pos_nonneg 2 e ltac:(lia) ltac:(lia)) as HS.
    change (2 ^ 52) with 4503599627370496 in *. nia.
Qed.

Lemma pow2_le_33 (e : Z) : 0 <= e -> 2 ^ e < 2 ^ 33 -> e < 33.
Proof.
  intros H0 H. destruct (Z.lt_ge_cases e 33) as [|Hge]; [assumption|exfalso].
  pose proof (Z.pow_le_mono_r 2 33 e ltac:(lia) ltac:(lia)). lia.
Qed.

(** The rounded product [h * r] of a height and a ratio [r = m1 * 2 ^ e],
    then [Math.round]: the result is the floor of [V / S + 1 / 2] for an
    integer [V] within [h] of [h * m1], where [S = 2 ^ (- e)]. *)
Lemma product_round (h m1 e : Z) :
  0 <= h < 2 ^ 32 -> 0 <= m1 <= 2 ^ 53 -> e <= -53 ->
  let fh := Math_round (mul (of_Z h) (mk m1 e)) in
  let S := 2 ^ (- e) in
  exists V,
    Z.abs (V - h * m1) <= h
    /\ 2 * S * fh <= 2 * V + S < 2 * S * (fh + 1).
Proof.
  intros Hh Hm He. unfold mul, of_Z, round53. cbn [mant expo].
  pose proof (Z.pow_pos_nonneg 2 (- e) ltac:(lia) ltac:(lia)) as HS.
  destruct (Z.eqb_spec (h * m1) 0) as [E0|Hp].
  - cbn [mant expo]. unfold Math_round. cbn [mant expo].
    replace (0 + 0 + e) with e by lia.
    destruct (Z.ltb_spec e 0); [|lia].
    replace (1 - e) with (1 + - e) by lia. rewrite Z.pow_add_r by lia.
    change (2 ^ 1) with 2. set (S := 2 ^ (- e)) in *.
    rewrite Z.div_small by lia.
    exists 0. rewrite E0. split; lia.
  - assert (Hpos : 0 < h * m1) by nia.
    pose proof (@exponent_spec (h * m1) 1 Hpos ltac:(lia)) as Hexp. cbv zeta in Hexp.
    set (p := h * m1) in *. set (e2 := exponent p 1) in *.
    unfold scaled in *.
    destruct (Z.ltb_spec e2 0) as [Hneg|Hge]; cbn [fst snd mant expo] in *.
    + (* the product has fewer than 53 bits: it is exact *)
      pose proof (Z.pow_pos_nonneg 2 (- e2) ltac:(lia) ltac:(lia)) as HR.
      pose proof (@nearest_even_spec (p * 2 ^ (- e2)) 1 ltac:(nia) ltac:(lia)) as [_ Hne].
      assert (Em : nearest_even (p * 2 ^ (- e2)) 1 = p * 2 ^ (- e2)) by lia.
      rewrite Em. unfold Math_round. cbn [mant expo].
      destruct (Z.ltb_spec (e2 + 0 + e) 0); [|lia].
      replace (- (e2 + 0 + e)) with (- e + - e2) by lia.
      replace (1 - (e2 + 0 + e)) with (1 + (- e + - e2)) by lia.
      rewrite !Z.pow_add_r by lia. change (2 ^ 1) with 2.
      set (S := 2 ^ (- e)) in *. set (R := 2 ^ (- e2)) in *.
      replace (2 * (p * R) + S * R) with ((2 * p + S) * R) by ring.
      replace (2 * (S * R)) with ((2 * S) * R) by ring.
      rewrite Z.div_mul_cancel_r by lia.
      exists p. split; [lia|].
      pose proof (Z.mul_div_le (2 * p + S) (2 * S) ltac:(lia)).
      pose proof (Z.mul_succ_div_gt (2 * p + S) (2 * S) ltac:(lia)).
      lia.
    + (* the product is rounded to 53 bits *)
      pose proof (Z.pow_pos_nonneg 2 e2 ltac:(lia) ltac:(lia)) as HQ.
      destruct Hexp as [Hlo Hhi].
      pose proof (@nearest_even_spec p (1 * 2 ^ e2) ltac:(lia) ltac:(lia)) as [Hm0 Hne].
      assert (He2 : e2 < 33).
      { apply pow2_le_33; [assumption|].
        change (2 ^ 33) with 8589934592. change (2 ^ 52) with 4503599627370496 in *.
        change (2 ^ 53) with 9007199254740992 in *. change (2 ^ 32) with 4294967296 in *.
        subst p. nia. }
      unfold Math_round. cbn [mant expo].
      destruct (Z.ltb_spec (e2 + 0 + e) 0); [|lia].
      assert (ES : 2 ^ (- e) = 2 ^ (- (e2 + 0 + e)) * 2 ^ e2).
      { rewrite <- Z.pow_add_r by lia. f_equal. lia. }
      replace (1 - (e2 + 0 + e)) with (1 + - (e2 + 0 + e)) by lia.
      rewrite Z.pow_add_r by lia. change (2 ^ 1) with 2.
      pose proof (Z.pow_pos_nonneg 2 (- (e2 + 0 + e)) ltac:(lia) ltac:(lia)) as HT.
      set (S := 2 ^ (- e)) in *. set (Q := 2 ^ e2) in *.
      set (T := 2 ^ (- (e2 + 0 + e))) in *.
      set (m2 := nearest_even p (1 * Q)) in *.
      exists (m2 * Q).
      change (2 ^ 52) with 4503599627370496 in *.
      change (2 ^ 53) with 9007199254740992 in *. change (2 ^ 32) with 4294967296 in *.
      split; [subst p; nia|].
      pose proof (Z.mul_div_le (2 * m2 + T) (2 * T) ltac:(lia)).
      pose proof (Z.mul_succ_div_gt (2 * m2 + T) (2 * T) ltac:(lia)).
      set (fh := (2 * m2 + T) / (2 * T)) in *.
      rewrite ES. nia.
Qed.

(** The arithmetic of the two roundings: the rounded height is an integer
    nearest to [600 * h / w]. *)
Lemma height_nearest (w h m1 S V fh : Z) :
  600 < w -> 0 <= h < 2 ^ 32 -> 0 < S ->
  2 ^ 52 * w <= 600 * S ->
  2 * Z.abs (m1 * w - 600 * S) <= w ->
  Z.abs (V - h * m1) <= h ->
  2 * S * fh <= 2 * V + S < 2 * S * (fh + 1) ->
  2 * Z.abs (fh * w - 600 * h) <= w.
Proof.
  intros Hw Hh HS Hlo Hd HV Hfl.
  change (2 ^ 52) with 4503599627370496 in *. change (2 ^ 32) with 4294967296 in *.
  set (dl := m1 * w - 600 * S) in *. set (D := V - h * m1) in *.
  set (X := 2 * h * dl + 2 * D * w).
  assert (EX : (2 * V + S) * w = S * (1200 * h + w) + X).
  { subst X dl D. ring. }
  assert (HX : Z.abs X < S).
  { assert (Z.abs (2 * h * dl) <= h * w) by nia.
    assert (Z.abs (2 * D * w) <= 2 * h * w) by nia.
    assert (Z.abs X <= 3 * h * w) by (subst X; lia).
    nia. }
  assert (Hup : 2 * S * fh * w <= S * (1200 * h + w) + X) by nia.
  assert (Hdn : S * (1200 * h + w) + X < 2 * S * (fh + 1) * w) by nia.
  assert (2 * (fh * w) < 1200 * h + w + 1) by nia.
  assert (1200 * h + w - 1 < 2 * (fh + 1) * w) by nia.
  lia.
Qed.

End F64Facts.


(** [F64] and the binary64 arithmetic of the kernel give the same ratio
    and the same product on these sizes. *)
Lemma F64_agrees_with_binary64 :
  forallb (fun wh => agrees_at (fst wh) (snd wh))
    ([(720, 3); (800, 400); (1200, 1); (1920, 1080); (4032, 3024); (601, 1);
      (65535, 65535); (4294967295, 4294967295)]%Z
     ++ sizes 601 120 0 40 ++ sizes 1900 30 1060 30) = true.
Proof. vm_compute. reflexivity. Qed.

(** C5. An image wider than 600 is shown 600 wide, and its height is
    [Math.round(height * (600 / width))], which is an integer nearest to
    [height * 600 / width]: the aspect ratio is kept up to the rounding to
    an integer.  An image at most 600 wide keeps its natural size.  The
    paragraph of the image carries that size. *)
Theorem display_size_policy (w h : Z) :
  ((600 < w)%Z -> (0 <= h < 2 ^ 32)%Z ->
     fst (display_size w h) = 600%Z
     /\ snd (display_size w h)
        = F64.Math_round (F64.mul (F64.of_Z h) (F64.div (F64.of_Z 600) (F64.of_Z w)))
     /\ (2 * Z.abs (snd (display_size w h) * w - 600 * h) <= w)%Z)
  /\ ((w <= 600)%Z -> display_size w h = (w, h))
  /\ (forall style alt bytes,
        exists caption,
          image_block style alt (mkImageData bytes w h)
          = SParagraph
              (mkParagraph
                 [PImageRun bytes (fst (display_size w h)) (snd (display_size w h)) alt;
                  caption]
                 None (Some CENTER) (Some (mkSpacing None (Some 200%Q) (Some 200%Q))))).
Proof.
  split; [|split].
  - intros Hw Hh. unfold display_size, MAX_WIDTH.
    destruct (Z.ltb_spec 600 w) as [_|]; [|lia]. cbn [fst snd].
    split; [reflexivity|]. split; [reflexivity|].
    pose proof (div_600 Hw) as (He & Hlo & Hm & Hd). cbv zeta in *.
    set (r := F64.div (F64.of_Z 600) (F64.of_Z w)) in *.
    pose proof (@product_round h (F64.mant r) (F64.expo r) Hh Hm He) as (V & HV & Hfl).
    cbv zeta in Hfl.
    replace (F64.mk (F64.mant r) (F64.expo r)) with r in Hfl by (destruct r; reflexivity).
    apply (@height_nearest w h (F64.mant r) (2 ^ (- F64.expo r)) V); try assumption.
    apply Z.pow_pos_nonneg; lia.
  - intros Hw. unfold display_size, MAX_WIDTH.
    destruct (Z.ltb_spec 600 w); [lia | reflexivity].
  - intros style alt bytes. unfold image_block. cbn [width height data].
    destruct (display_size w h) as [fw fh]. cbn [fst snd].
    eexists. reflexivity.
Qed.

(** An image of 1920 x 1080 is shown at 600 x 338. *)
Lemma display_size_policy_witness :
  (600 < 1920)%Z
  /\ (0 <= 1080 < 2 ^ 32)%Z
  /\ display_size 1920 1080 = (600, 338)%Z
  /\ (2 * Z.abs (338 * 1920 - 600 * 1080) <= 1920)%Z.
Proof.
  assert (Hh : (0 <= 1080 < 2 ^ 32)%Z) by (split; [lia | reflexivity]).
  assert (Hw : (600 < 1920)%Z) by reflexivity.
  split; [exact Hw|]. split; [exact Hh|]. split; [reflexivity|].
  destruct (display_size_policy 1920 1080) as [H _].
  destruct (H Hw Hh) as (_ & _ & Hb). exact Hb.
Defined.

(** ** Styled spans *)

Lemma span_text_In (t : jsstring) :
  span_text t = true ->
  forall x, In x t -> dot x = true /\ x <> 42%N /\ x <> 95%N /\ x <> 96%N /\ x <> 36%N.
Proof.
  unfold span_text. rewrite forallb_forall. intros H x Hx. specialize (H x Hx).
  apply andb_true_iff in H. destruct H as [Hd Hn]. split; [assumption|].
  apply negb_true_iff in Hn. unfold is_delimiter in Hn. norm_ch.
  repeat (apply orb_false_iff in Hn; destruct Hn as [Hn ?]).
  repeat match goal with E : N.eqb _ _ = false |- _ => apply N.eqb_neq in E end.
  repeat split; assumption.
Qed.

Lemma span_text_delimiter_free (t : jsstring) :
  span_text t = true -> delimiter_free t = true.
Proof.
  unfold span_text, delimiter_free. rewrite !forallb_forall.
  intros H x Hx. specialize (H x Hx). apply andb_true_iff in H. apply H.
Qed.

Ltac span_skip c t' Ht :=
  change (c :: t' ++ ?x) with ((c :: t') ++ x);
  rewrite star_lazy_skip;
  [ | intros x Hx; apply (Ht x Hx)
    | intros j x tl Hx; cbn [pos rest caps lookup Nat.eqb]; pos_arith; cbn [firstn];
      cbn [startsWith];
      destruct (Ht x Hx) as (_ & H42 & H95 & H96 & _);
      repeat match goal with
             | |- context [N.eqb ?a x] =>
                 destruct (N.eqb_spec a x) as [E|_]; [exfalso; congruence|]; cbn [andb]
             end; reflexivity ].

Ltac span_close :=
  rewrite star_lazy_unfold; cbn [pos rest caps lookup Nat.eqb]; pos_arith;
  cbn [firstn startsWith N.eqb Pos.eqb andb List.length skipn];
  rewrite firstn_exact by (cbn [List.length]; lia);
  f_equal; f_equal; cbn [List.length]; lia.

Ltac opt_miss c :=
  repeat match goal with
         | |- context [N.eqb c ?a] =>
             destruct (N.eqb_spec c a) as [E|_]; [exfalso; congruence|]
         end.

(** At an opening marker followed by a text without delimiters and line
    terminators and by the same marker, with no marker behind, the emphasis
    pattern matches the span with the text as its content. *)
Lemma combined_span (m t s : jsstring) (i : nat) :
  In m pair_markers ->
  t <> [] ->
  span_text t = true ->
  match_here combinedRegex i (m ++ t ++ m ++ s)
  = Some (MState (i + 2 * List.length m + List.length t) s [(2, t); (1, m)]).
Proof.
  intros Hm Hne Ht0. pose proof (span_text_In _ Ht0) as Ht.
  destruct t as [|c t']; [contradiction|].
  destruct (Ht c (or_introl eq_refl)) as (_ & C42 & C95 & C96 & _).
  cbn in Hm. destruct Hm as [<-|[<-|[<-|[<-|[<-|[]]]]]];
    open_combined; opt_miss c; span_skip c t' Ht; span_close.
Qed.

Lemma segments_of_span (m p t s : jsstring) :
  In m pair_markers ->
  Forall not_marker p ->
  t <> [] ->
  span_text t = true ->
  Forall not_marker s ->
  segments_of (p ++ m ++ t ++ m ++ s)
  = (if nonempty p then [mkSegment p None] else [])
    ++ mkSegment t (Some m)
    :: (if nonempty s then [mkSegment s None] else []).
Proof.
  intros Hm Hp Hne Ht Hs. unfold segments_of.
  rewrite exec_loop_plain_prefix with (P := not_marker);
    [| apply combined_no_marker | assumption].
  cbn [app Nat.add].
  pose proof (@combined_span m t s (List.length p) Hm Hne Ht) as Hmatch.
  destruct (pair_marker_shape Hm) as (c & m' & Em & _).
  rewrite Em in Hmatch |- *. cbn [app] in Hmatch |- *.
  erewrite exec_loop_match by exact Hmatch.
  cbn [pos group caps lookup Nat.eqb].
  replace (Nat.pred (List.length p + 2 * List.length (c :: m') + List.length t
                     - List.length p))
    with (List.length (m' ++ t ++ c :: m'))
    by (rewrite !length_app; cbn [List.length]; lia).
  change (m' ++ t ++ c :: m' ++ s) with (m' ++ t ++ (c :: m') ++ s).
  rewrite !app_assoc. rewrite <- (app_assoc m' t).
  rewrite exec_loop_skip, exec_loop_plain_end by assumption.
  destruct (m' ++ t ++ c :: m') eqn:E; [|reflexivity].
  destruct m'; [destruct t|]; discriminate.
Qed.

(** X1. A closed span.  In a line without any other delimiter character,
    a text between a marker and the same marker again is one run with the
    style of the marker: bold for two asterisks or two underscores, italic
    for one underscore, both for three asterisks, the code font, colour and
    shading for a backtick; the text before and the text after are plain
    runs. *)
Theorem styled_span_run (m p t s fnt : jsstring) (fontSize : Q) (col : jsstring) :
  In m pair_markers ->
  delimiter_free p = true ->
  t <> [] ->
  span_text t = true ->
  delimiter_free s = true ->
  exists r,
    parseInlineStyles (p ++ m ++ t ++ m ++ s) fnt fontSize col
    = plain_runs p fnt fontSize col ++ PTextRun r :: plain_runs s fnt fontSize col
    /\ text r = t
    /\ bold r = marker_bold m
    /\ italics r = marker_italic m
    /\ (if marker_code m
        then font r = Some (js "JetBrains Mono") /\ shading r = Some (js "F1F5F9")
             /\ color r = Some (js "E11D48") /\ size r = Some ((fontSize - 1) * 2)%Q
        else font r = Some fnt /\ shading r = None /\ color r = Some col
             /\ size r = Some (fontSize * 2)%Q).
Proof.
  intros Hm Hp Hne Ht Hs.
  destruct (delimiter_free_Forall _ Hp) as [Hpd Hpm].
  destruct (delimiter_free_Forall _ Hs) as [Hsd Hsm].
  destruct (delimiter_free_Forall _ (span_text_delimiter_free _ Ht)) as [Htd Htm].
  destruct (pair_marker_shape Hm) as (c & m' & _ & Hmd).
  assert (E : parseInlineStyles (p ++ m ++ t ++ m ++ s) fnt fontSize col
              = plain_runs p fnt fontSize col
                ++ runs_of_segment [] fnt fontSize col (mkSegment t (Some m))
                ++ plain_runs s fnt fontSize col).
  { rewrite parseInlineStyles_no_dollar
      by (repeat (apply Forall_app; split); assumption).
    rewrite segments_of_span by assumption.
    rewrite flat_map_app. cbn [flat_map]. unfold plain_runs.
    destruct p, s; reflexivity. }
  rewrite E.
  cbn in Hm. destruct Hm as [<-|[<-|[<-|[<-|[<-|[]]]]]];
    eexists; (split; [reflexivity|]); repeat split.
Qed.

(** A bold word between two plain stretches. *)
Lemma styled_span_run_witness :
  exists r,
    parseInlineStyles (js "see " ++ js "**" ++ js "this" ++ js "**" ++ js " now")
      (js "SimSun") 12 (js "000000")
    = plain_runs (js "see ") (js "SimSun") 12 (js "000000")
      ++ PTextRun r :: plain_runs (js " now") (js "SimSun") 12 (js "000000")
    /\ text r = js "this" /\ bold r = marker_bold (js "**")
    /\ italics r = marker_italic (js "**")
    /\ (if marker_code (js "**")
        then font r = Some (js "JetBrains Mono") /\ shading r = Some (js "F1F5F9")
             /\ color r = Some (js "E11D48") /\ size r = Some ((12 - 1) * 2)%Q
        else font r = Some (js "SimSun") /\ shading r = None
             /\ color r = Some (js "000000") /\ size r = Some (12 * 2)%Q).
Proof.
  apply (@styled_span_run (js "**") (js "see ") (js "this") (js " now")).
  - vm_compute. right. left. reflexivity.
  - reflexivity.
  - discriminate.
  - reflexivity.
  - reflexivity.
Defined.

(** ** Lines without a match *)

Lemma exec_loop_no_match {A : Type} (r : regex) (plain : jsstring -> A)
  (styled : mstate -> A) :
  forall inp i pending,
    (forall n j, match_here r j (skipn n inp) = None) ->
    exec_loop r plain styled i 0 pending inp
    = if nonempty (pending ++ inp) then [plain (pending ++ inp)] else [].
Proof.
  induction inp as [|c inp IH]; intros i pending H.
  - cbn [exec_loop]. pose proof (H 0 i) as H0. cbn [skipn] in H0. rewrite H0.
    rewrite app_nil_r. reflexivity.
  - cbn [exec_loop]. pose proof (H 0 i) as H0. cbn [skipn] in H0. rewrite H0.
    rewrite IH by (intros n j; apply (H (S n) j)).
    rewrite <- app_assoc. reflexivity.
Qed.

Lemma includes_skipn (p : jsstring) :
  forall s n, includes s p = false -> startsWith (skipn n s) p = false.
Proof.
  induction s as [|c s IH]; intros n H.
  - destruct n; cbn [skipn]; cbn [includes] in H;
      apply orb_false_iff in H; apply H.
  - cbn [includes] in H. apply orb_false_iff in H. destruct H as [H1 H2].
    destruct n; cbn [skipn]; [assumption | apply IH; assumption].
Qed.

Lemma asterisks_only_In (s : jsstring) :
  asterisks_only s = true ->
  forall x, In x s -> x <> 95%N /\ x <> 96%N /\ x <> 36%N.
Proof.
  unfold asterisks_only. rewrite forallb_forall. intros H x Hx. specialize (H x Hx).
  apply negb_true_iff in H. norm_ch.
  repeat (apply orb_false_iff in H; destruct H as [H ?]).
  repeat match goal with E : N.eqb _ _ = false |- _ => apply N.eqb_neq in E end.
  repeat split; assumption.
Qed.

Lemma combined_single_asterisk (u : jsstring) (j : nat) :
  (forall x, In x u -> x <> 95%N /\ x <> 96%N /\ x <> 36%N) ->
  startsWith u [42; 42]%N = false ->
  match_here combinedRegex j u = None.
Proof.
  intros Hu Hs. destruct u as [|c u]; [reflexivity|].
  destruct (Hu c (or_introl eq_refl)) as (C95 & C96 & _).
  destruct (N.eq_dec c 42) as [->|C42].
  - destruct u as [|d u]; [reflexivity|].
    cbn [startsWith] in Hs. rewrite N.eqb_refl, andb_true_r in Hs. cbn [andb] in Hs.
    rewrite N.eqb_sym in Hs. open_combined. rewrite Hs. reflexivity.
  - apply combined_no_marker. unfold not_marker. norm_ch. repeat split; assumption.
Qed.

(** X2. A line with single asterisks only, and no other delimiter
    character, is one plain run: a single asterisk never opens an
    emphasis. *)
Theorem single_asterisk_literal (txt fnt : jsstring) (fontSize : Q) (col : jsstring) :
  txt <> [] ->
  asterisks_only txt = true ->
  includes txt (js "**") = false ->
  parseInlineStyles txt fnt fontSize col
  = [PTextRun (mkTextRun txt (Some fnt) (Some (fontSize * 2)%Q)
                 false false (Some col) None)].
Proof.
  intros Hne Ha Hi. pose proof (asterisks_only_In _ Ha) as HIn.
  rewrite parseInlineStyles_no_dollar.
  2: { apply Forall_forall. intros x Hx. unfold not_dollar. norm_ch. apply HIn, Hx. }
  unfold segments_of. rewrite exec_loop_no_match.
  - destruct txt; [contradiction | reflexivity].
  - intros n j. apply combined_single_asterisk.
    + intros x Hx. apply HIn. eapply skipn_In. eassumption.
    + apply includes_skipn. exact Hi.
Qed.

(** Single asterisks around a word and in a product. *)
Lemma single_asterisk_literal_witness :
  js "*italic* and 2*3" <> []
  /\ asterisks_only (js "*italic* and 2*3") = true
  /\ includes (js "*italic* and 2*3") (js "**") = false
  /\ parseInlineStyles (js "*italic* and 2*3") (js "SimSun") 12 (js "000000")
     = [plain_run (js "*italic* and 2*3") (js "SimSun") (12 * 2)%Q (js "000000")].
Proof.
  split; [discriminate|]. split; [reflexivity|]. split; [reflexivity|].
  apply single_asterisk_literal; [discriminate | reflexivity | reflexivity].
Defined.

(** ** The segments make up the line *)

Lemma star_lazy_split (p : char -> bool) (k : mstate -> option mstate)
  (cs : list (nat * jsstring)) (m : mstate) :
  forall inp i,
    star_lazy p k i cs inp = Some m ->
    exists xs ys, inp = xs ++ ys /\ k (MState (i + List.length xs) ys cs) = Some m.
Proof.
  induction inp as [|c inp IH]; intros i H; rewrite star_lazy_unfold in H.
  - destruct (k (MState i [] cs)) as [r|] eqn:E; [|discriminate].
    exists [], []. cbn [app List.length]. rewrite Nat.add_0_r, E. split; [reflexivity | exact H].
  - destruct (k (MState i (c :: inp) cs)) as [r|] eqn:E.
    + exists [], (c :: inp). cbn [app List.length]. rewrite Nat.add_0_r, E.
      split; [reflexivity | exact H].
    + destruct (p c); [|discriminate].
      destruct (IH _ H) as (xs & ys & -> & Hk).
      exists (c :: xs), ys. cbn [app List.length]. rewrite Nat.add_succ_r.
      split; [reflexivity | exact Hk].
Qed.

Lemma startsWith_app (v : jsstring) :
  forall s, startsWith s v = true -> s = v ++ skipn (List.length v) s.
Proof.
  induction v as [|x v IH]; intros s H; [reflexivity|].
  destruct s as [|y s]; [discriminate|]. cbn [startsWith] in H.
  apply andb_true_iff in H. destruct H as [Hx Hs]. apply N.eqb_eq in Hx. subst y.
  cbn [app List.length skipn]. f_equal. apply IH. assumption.
Qed.

Ltac shape_finish H :=
  cbv iota in H;
  lazymatch type of H with
  | star_lazy _ _ _ _ _ = Some _ =>
      apply star_lazy_split in H;
      let xs := fresh "xs" in let ys := fresh "ys" in
      let E := fresh "E" in let Hk := fresh "Hk" in
      destruct H as (xs & ys & E & Hk);
      cbn [pos rest caps lookup Nat.eqb] in Hk;
      repeat match type of Hk with
             | context [S (S (S ?i)) - ?i] => replace (S (S (S i)) - i) with 3 in Hk by lia
             | context [S (S ?i) - ?i] => replace (S (S i) - i) with 2 in Hk by lia
             | context [S ?i - ?i] => replace (S i - i) with 1 in Hk by lia
             end;
      cbn [firstn] in Hk;
      lazymatch type of E with
      | [] = _ => symmetry in E; apply app_eq_nil in E; destruct E; subst xs ys
      | _ => rewrite E in Hk; rewrite ?E
      end;
      lazymatch type of Hk with
      | context [if startsWith ?a ?b then _ else _] =>
          let Es := fresh "Es" in
          destruct (startsWith a b) eqn:Es; [|discriminate];
          apply startsWith_app in Es;
          first
            [ cbn [app] in Es; discriminate Es
            | injection Hk as Hk; subst;
              unfold group; cbn [caps lookup Nat.eqb pos rest];
              rewrite firstn_exact by lia;
              (split;
               [ simpl in Es |- *; repeat f_equal; exact Es
               | split; [rewrite !length_app; simpl; lia | discriminate] ]) ]
      end
  end.

Ltac shape_go H :=
  cbv iota in H;
  lazymatch type of H with
  | star_lazy _ _ _ _ _ = Some _ => shape_finish H
  | None = Some _ => discriminate H
  | Some ?a = Some _ =>
      let E := fresh "E" in
      injection H as E; first [subst a | idtac];
      match goal with
      | [ E' : _ = Some _ |- _ ] => shape_go E'
      end
  | match ?X with _ => _ end = Some _ =>
      let E := fresh "E" in
      destruct X eqn:E; [ shape_go H | shape_go H ]
  end.

(** A match of the emphasis pattern is a marker, a content and the marker
    again. *)
Lemma combined_match_shape (inp : jsstring) (i : nat) (m : mstate) :
  match_here combinedRegex i inp = Some m ->
  inp = group 1 m ++ group 2 m ++ group 1 m ++ rest m
  /\ pos m = i + List.length (group 1 m ++ group 2 m ++ group 1 m)
  /\ group 1 m <> [].
Proof.
  intros H. unfold match_here, combinedRegex, markerRegex, cats in H. norm_ch.
  cbn [fold_right rmatch pos rest caps] in H.
  destruct inp as [|c0 inp]; [discriminate|].
  destruct (N.eqb_spec c0 42) as [->|N42].
  - destruct inp as [|c1 inp]; [discriminate|].
    destruct (N.eqb_spec c1 42) as [->|]; [|discriminate].
    destruct inp as [|c2 inp].
    + match type of H with match ?X with _ => _ end = _ => destruct X eqn:E1; [|discriminate] end.
      inversion H; subst. shape_finish E1.
    + destruct (N.eqb_spec c2 42) as [->|].
      * match type of H with match ?X with _ => _ end = _ => destruct X as [r|] eqn:E0; [|discriminate] end.
        inversion H; subst r.
        match type of E0 with match ?X with _ => _ end = _ => destruct X eqn:E1 end.
        -- inversion E0; subst. shape_finish E1.
        -- shape_finish E0.
      * match type of H with match ?X with _ => _ end = _ => destruct X eqn:E1; [|discriminate] end.
        inversion H; subst. shape_finish E1.
  - destruct (N.eqb_spec c0 95) as [->|N95].
    + change (95 =? 96)%N with false in H.
      destruct inp as [|c1 inp]; [|destruct (N.eqb_spec c1 95) as [->|]]; shape_go H.
    + destruct (N.eqb_spec c0 96) as [->|]; [|discriminate]. shape_go H.
Qed.

Lemma exec_loop_cover :
  forall inp i skip pending,
    skip <= List.length inp ->
    List.concat (map seg_source
      (exec_loop combinedRegex (fun t => mkSegment t None)
         (fun m => mkSegment (group 2 m) (Some (group 1 m))) i skip pending inp))
    = (match skip with O => pending | S _ => [] end) ++ skipn skip inp.
Proof.
  induction inp as [|c inp IH]; intros i skip pending Hs.
  - destruct skip as [|k]; [|cbn [List.length] in Hs; lia].
    cbn [exec_loop skipn].
    destruct (match_here combinedRegex i []) as [m|] eqn:E.
    + apply combined_match_shape in E. destruct E as (E & _ & Hne).
      destruct (group 1 m); [congruence | discriminate E].
    + rewrite app_nil_r. destruct pending; [reflexivity|]. cbn. now rewrite app_nil_r.
  - destruct skip as [|k].
    + cbn [exec_loop skipn].
      destruct (match_here combinedRegex i (c :: inp)) as [m|] eqn:E.
      * apply combined_match_shape in E. destruct E as (E & Hp & Hne).
        rewrite map_app, concat_app. cbn [map List.concat].
        rewrite IH.
        -- assert (Hl : pos m - i = List.length (group 1 m ++ group 2 m ++ group 1 m)) by lia.
           rewrite Hl.
           assert (Hpre : List.concat (map seg_source
                     (if nonempty pending then [mkSegment pending None] else [])) = pending).
           { destruct pending; [reflexivity|]. cbn. now rewrite app_nil_r. }
           rewrite Hpre. f_equal.
           unfold seg_source. cbn [seg_style seg_text].
           replace (group 1 m ++ group 2 m ++ group 1 m ++ rest m)
             with ((group 1 m ++ group 2 m ++ group 1 m) ++ rest m) in E
             by now rewrite <- !app_assoc.
           destruct (group 1 m ++ group 2 m ++ group 1 m) as [|x l] eqn:El.
           { destruct (group 1 m); [congruence | discriminate El]. }
           cbn [List.length Nat.pred app] in *.
           injection E as -> ->.
           rewrite skipn_app, skipn_all, Nat.sub_diag. cbn [skipn app].
           destruct (List.length l); reflexivity.
        -- rewrite Hp. replace (i + _ - i) with
             (List.length (group 1 m ++ group 2 m ++ group 1 m)) by lia.
           apply (f_equal (@List.length N)) in E. cbn [List.length] in E.
           rewrite !length_app in *. lia.
      * rewrite IH by lia. cbn [skipn]. rewrite <- app_assoc. reflexivity.
    + cbn [exec_loop skipn]. cbn [List.length] in Hs. rewrite IH by lia.
      destruct k; reflexivity.
Qed.

Lemma runs_of_segment_text (fnt : jsstring) (fontSize : Q) (col : jsstring) (seg : Segment) :
  map child_text (runs_of_segment [] fnt fontSize col seg) = [seg_text seg].
Proof.
  unfold runs_of_segment. cbn [find].
  repeat match goal with
         | |- context [if ?b then _ else _] => destruct b
         end; reflexivity.
Qed.

(** X3. Nothing of a line is lost: the segments of the tokenizer, each one
    put back between its markers, spell the line, whatever the line. *)
Theorem segments_cover_text (processedText : jsstring) :
  List.concat (map seg_source (segments_of processedText)) = processedText.
Proof.
  unfold segments_of. rewrite exec_loop_cover by lia. reflexivity.
Qed.

(** X4. In a line without a dollar sign every segment becomes one text
    run that holds the text of the segment, in the order of the segments,
    and no math run is made. *)
Theorem runs_follow_segments (txt fnt : jsstring) (fontSize : Q) (col : jsstring) :
  Forall not_dollar txt ->
  map child_text (parseInlineStyles txt fnt fontSize col)
  = map seg_text (segments_of txt)
  /\ Forall (fun c => match c with PTextRun _ => True | _ => False end)
       (parseInlineStyles txt fnt fontSize col).
Proof.
  intros H. rewrite parseInlineStyles_no_dollar by exact H.
  induction (segments_of txt) as [|seg l IH]; [split; constructor|].
  destruct IH as [IH1 IH2]. cbn [flat_map map]. split.
  - rewrite map_app, runs_of_segment_text, IH1. reflexivity.
  - apply Forall_app. split; [|exact IH2].
    unfold runs_of_segment. cbn [find].
    repeat match goal with
           | |- context [if ?b then _ else _] => destruct b
           end; repeat constructor.
Qed.

(** A line with a bold span and a lone underscore. *)
Lemma runs_follow_segments_witness :
  map child_text (parseInlineStyles (js "a **b** _c") (js "SimSun") 12 (js "000000"))
  = map seg_text (segments_of (js "a **b** _c"))
  /\ Forall (fun c => match c with PTextRun _ => True | _ => False end)
       (parseInlineStyles (js "a **b** _c") (js "SimSun") 12 (js "000000")).
Proof.
  apply runs_follow_segments.
  repeat (constructor; [unfold not_dollar; vm_compute; discriminate|]). constructor.
Defined.

(** ** Closed code fences *)

Section Blocks.

Context {W : Type} (B : Browser W) (style : DocumentStyle).

Lemma fence_loop_closed (k : list jsstring -> M W (list SectionChild))
  (close : jsstring) (rest : list jsstring) :
  is_fence close = true ->
  forall body codeLines,
    (forall l, In l body -> is_fence l = false) ->
    fence_loop k codeLines (body ++ close :: rest)
    = (tl <- k rest ;; ret (code_block (codeLines ++ body) :: tl)).
Proof.
  intros Hc. induction body as [|l body IH]; intros codeLines Hb.
  - cbn [app fence_loop]. rewrite Hc, app_nil_r. reflexivity.
  - cbn [app fence_loop]. rewrite (Hb l) by (left; reflexivity).
    rewrite IH by (intros l' Hl'; apply Hb; right; assumption).
    rewrite <- app_assoc. reflexivity.
Qed.



End Blocks.

(** X5. A code fence that is closed: the lines between the opening and the
    closing fence are kept as they are, whatever they look like, in one
    code block; nothing is fetched for them; the closing line is consumed
    and the scan goes on after it. *)
Theorem closed_fence_block {W : Type} (B : Browser W) (style : DocumentStyle)
  (open close : jsstring) (body rest : list jsstring) :
  startsWith (trim open) (js "```") = true ->
  startsWith (trim close) (js "```") = true ->
  (forall l, In l body -> startsWith (trim l) (js "```") = false) ->
  scan B style (open :: body ++ close :: rest)
  = (tl <- scan B style rest ;; ret (code_block body :: tl)).
Proof.
  intros Ho Hc Hb. rewrite scan_cons, (classify_fence _ Ho).
  apply fence_loop_closed; assumption.
Qed.

(** A heading and an image inside a fence are code. *)
Lemma closed_fence_block_witness :
  scan offline (style_of STANDARD None)
    (js "```js" :: [js "# no heading"; js "![a](http://x/y.png)"] ++ js "``` end" :: [js "after"])
  = (tl <- scan offline (style_of STANDARD None) [js "after"] ;;
     ret (code_block [js "# no heading"; js "![a](http://x/y.png)"] :: tl)).
Proof.
  apply closed_fence_block.
  - reflexivity.
  - reflexivity.
  - intros l [<-|[<-|[]]]; reflexivity.
Defined.



(** ** Headings *)

Lemma star_greedy_run (p : char -> bool) (k : mstate -> option mstate)
  (cs : list (nat * jsstring)) (t : jsstring) (m : mstate) :
  stops p t = true ->
  forall xs i,
    forallb p xs = true ->
    k (MState (i + List.length xs) t cs) = Some m ->
    star_greedy p k i cs (xs ++ t) = Some m.
Proof.
  intros Ht. induction xs as [|x xs IH]; intros i Hxs Hk.
  - cbn [app List.length] in *. rewrite Nat.add_0_r in Hk.
    destruct t as [|c t]; cbn [star_greedy]; [assumption|].
    cbn [stops] in Ht. apply negb_true_iff in Ht. rewrite Ht. assumption.
  - cbn [forallb] in Hxs. apply andb_true_iff in Hxs. destruct Hxs as [Hx Hxs].
    cbn [app star_greedy]. rewrite Hx.
    rewrite (IH (S i)); [reflexivity | assumption |].
    cbn [List.length] in Hk. rewrite Nat.add_succ_r in Hk. exact Hk.
Qed.

Lemma forallb_repeat {A : Type} (p : A -> bool) (a : A) (n : nat) :
  p a = true -> forallb p (repeat a n) = true.
Proof. intros H. induction n as [|n IH]; [reflexivity|]. cbn. now rewrite H, IH. Qed.

Lemma hashes_match (n : nat) (t : jsstring) :
  stops is_hash t = true ->
  search hashesRegex (repeat (ch "#") (S n) ++ t)
  = Some (0, MState (S n) t []).
Proof.
  intros Ht. unfold hashesRegex, cats. cbn [fold_right].
  rewrite search_anchored. unfold match_here.
  cbn [rmatch pos rest caps Nat.eqb repeat app].
  change (is_hash (ch "#")) with true. cbv iota.
  rewrite (@star_greedy_run is_hash _ [] t (MState (S n) t []) Ht (repeat (ch "#") n) 1).
  - reflexivity.
  - apply forallb_repeat. reflexivity.
  - cbn [rmatch]. rewrite repeat_length. reflexivity.
Qed.

Lemma heading_prefix_removed (n : nat) (ws content : jsstring) :
  forallb is_space ws = true ->
  stops is_hash (ws ++ content) = true ->
  stops is_space content = true ->
  remove_first headingPrefixRegex (repeat (ch "#") (S n) ++ ws ++ content) = content.
Proof.
  intros Hws Hh Hs. unfold remove_first, headingPrefixRegex, cats. cbn [fold_right].
  rewrite search_anchored. unfold match_here.
  cbn [rmatch pos rest caps Nat.eqb repeat app].
  change (is_hash (ch "#")) with true. cbv iota.
  rewrite (@star_greedy_run is_hash _ [] (ws ++ content)
             (MState (S n + List.length ws) content []) Hh (repeat (ch "#") n) 1).
  - reflexivity.
  - apply forallb_repeat. reflexivity.
  - cbn [rmatch pos rest caps]. rewrite repeat_length.
    apply star_greedy_run; [assumption | assumption |].
    cbn [rmatch]. reflexivity.
Qed.

Lemma heading_block_level (style : DocumentStyle) (n : nat) (ws content : jsstring) :
  forallb is_space ws = true ->
  stops is_hash (ws ++ content) = true ->
  stops is_space content = true ->
  heading_block style (repeat (ch "#") (S n) ++ ws ++ content)
  = if forallb constructible
         (parseInlineStyles content (fontFace style)
            (fontSize style + (4 - inject_Z (Z.of_nat (S n))) * 2)%Q
            (headingColor style))
    then Some (SParagraph
            (mkParagraph
               (parseInlineStyles content (fontFace style)
                  (fontSize style + (4 - inject_Z (Z.of_nat (S n))) * 2)%Q
                  (headingColor style))
               (Some (match n with 0 => HEADING_1 | 1 => HEADING_2 | _ => HEADING_3 end))
               (Some (match n with 0 => CENTER | _ => LEFT end))
               (Some (mkSpacing None (Some 400%Q) (Some 200%Q)))))
    else None.
Proof.
  intros Hws Hh Hs. unfold heading_block.
  rewrite (hashes_match n (ws ++ content) Hh), (heading_prefix_removed n ws content Hws Hh Hs).
  cbn [pos]. rewrite Nat.sub_0_r.
  destruct n as [|[|n]]; reflexivity.
Qed.

(** The runs of a text can all be built when the font size is 1 or more:
    their sizes are twice the font size, and twice the font size less 1 for
    code. *)
Lemma Qle_bool_double (q : Q) : Qle_bool 0 (q * 2) = Qle_bool 0 q.
Proof.
  destruct q as [a b]. unfold Qle_bool, Qmult. cbn [Qnum Qden].
  rewrite !Z.mul_0_l, !Z.mul_1_r.
  destruct (Z.leb_spec 0 (a * 2)), (Z.leb_spec 0 a); try reflexivity; lia.
Qed.

Lemma Qle_bool_pred (q : Q) : Qle_bool 1 q = true -> Qle_bool 0 (q - 1) = true.
Proof.
  destruct q as [a b]. unfold Qle_bool, Qminus, Qplus, Qopp. cbn [Qnum Qden].
  intros H. apply Z.leb_le in H. apply Z.leb_le. lia.
Qed.

Lemma Qle_bool_one_zero (q : Q) : Qle_bool 1 q = true -> Qle_bool 0 q = true.
Proof.
  destruct q as [a b]. unfold Qle_bool. cbn [Qnum Qden].
  intros H. apply Z.leb_le in H. apply Z.leb_le. lia.
Qed.

Lemma runs_of_segment_constructible (mathPlaceholders : list MathPlaceholder)
  (fnt : jsstring) (q : Q) (col : jsstring) (seg : Segment) :
  Qle_bool 1 q = true ->
  forallb constructible (runs_of_segment mathPlaceholders fnt q col seg) = true.
Proof.
  intros Hq.
  assert (H2 : Qle_bool 0 (q * 2) = true)
    by (rewrite Qle_bool_double; apply Qle_bool_one_zero, Hq).
  assert (H1 : Qle_bool 0 ((q - 1) * 2) = true)
    by (rewrite Qle_bool_double; apply Qle_bool_pred, Hq).
  unfold runs_of_segment.
  destruct (find _ mathPlaceholders) as [mp|].
  - rewrite forallb_app. cbn [forallb constructible andb].
    destruct (nth_error _ 0) as [a|]; [destruct (nonempty a)|];
      destruct (nth_error _ 1) as [b|]; try destruct (nonempty b);
      cbn [forallb constructible plain_run size andb]; rewrite ?H2; reflexivity.
  - repeat match goal with
           | |- context [if ?b then _ else _] => destruct b
           end;
      cbn [forallb constructible plain_run size andb]; rewrite ?H2, ?H1; reflexivity.
Qed.

Lemma parseInlineStyles_constructible (t fnt : jsstring) (q : Q) (col : jsstring) :
  Qle_bool 1 q = true ->
  forallb constructible (parseInlineStyles t fnt q col) = true.
Proof.
  intros Hq. unfold parseInlineStyles.
  destruct (replace_all displayMathRegex _ t ([], 0)) as [t1 st1].
  destruct (replace_all inlineMathRegex _ t1 st1) as [t2 [mps k]].
  induction (segments_of t2) as [|seg segs IH]; [reflexivity|].
  cbn [flat_map]. rewrite forallb_app, IH, andb_true_r.
  apply runs_of_segment_constructible, Hq.
Qed.

(** A text without delimiter characters cannot be built with a negative
    font size. *)
Lemma plain_text_not_constructible (t fnt : jsstring) (q : Q) (col : jsstring) :
  t <> [] ->
  delimiter_free t = true ->
  Qle_bool 0 q = false ->
  forallb constructible (parseInlineStyles t fnt q col) = false.
Proof.
  intros Hne Hfree Hq.
  destruct (delimiter_free_Forall _ Hfree) as [Hd Hm].
  rewrite parseInlineStyles_no_dollar, segments_of_plain by assumption.
  destruct t as [|c t]; [contradiction|].
  cbn [nonempty flat_map app]. rewrite runs_of_plain_segment.
  unfold plain_run. cbn [app forallb constructible size andb].
  rewrite Qle_bool_double, Hq. reflexivity.
Qed.

(** X7. The level of a heading is the number of its number signs; the
    content is what follows them and the white space after them (no space
    is needed); levels 3 and beyond all give the heading style of level 3,
    with a font size that goes on decreasing by two per level; only the
    level 1 is centred.  The heading is pushed and the scan goes on when
    every run of the content can be built, which is the case when the font
    size of the level is 1 or more; otherwise the conversion throws at the
    heading, as it does for a content without delimiter characters when the
    font size of the level is negative. *)
Theorem heading_level {W : Type} (B : Browser W) (style : DocumentStyle)
  (raw : jsstring) (rest : list jsstring) (n : nat) (ws content : jsstring) :
  trim raw = repeat (ch "#") (S n) ++ ws ++ content ->
  forallb is_space ws = true ->
  stops is_hash (ws ++ content) = true ->
  stops is_space content = true ->
  scan B style (raw :: rest)
  = (if forallb constructible
          (parseInlineStyles content (fontFace style)
             (fontSize style + (4 - inject_Z (Z.of_nat (S n))) * 2)%Q
             (headingColor style))
     then
       tl <- scan B style rest ;;
       ret (SParagraph
            (mkParagraph
               (parseInlineStyles content (fontFace style)
                  (fontSize style + (4 - inject_Z (Z.of_nat (S n))) * 2)%Q
                  (headingColor style))
               (Some (match n with 0 => HEADING_1 | 1 => HEADING_2 | _ => HEADING_3 end))
               (Some (match n with 0 => CENTER | _ => LEFT end))
               (Some (mkSpacing None (Some 400%Q) (Some 200%Q))))
            :: tl)
     else throw)
  /\ (Qle_bool 1 (fontSize style + (4 - inject_Z (Z.of_nat (S n))) * 2)%Q = true ->
      scan B style (raw :: rest)
      = (tl <- scan B style rest ;;
         ret (SParagraph
            (mkParagraph
               (parseInlineStyles content (fontFace style)
                  (fontSize style + (4 - inject_Z (Z.of_nat (S n))) * 2)%Q
                  (headingColor style))
               (Some (match n with 0 => HEADING_1 | 1 => HEADING_2 | _ => HEADING_3 end))
               (Some (match n with 0 => CENTER | _ => LEFT end))
               (Some (mkSpacing None (Some 400%Q) (Some 200%Q))))
              :: tl)))
  /\ (content <> [] ->
      delimiter_free content = true ->
      Qle_bool 0 (fontSize style + (4 - inject_Z (Z.of_nat (S n))) * 2)%Q = false ->
      scan B style (raw :: rest) = throw).
Proof.
  intros Ht Hws Hh Hs.
  assert (E : scan B style (raw :: rest)
              = match heading_block style (repeat (ch "#") (S n) ++ ws ++ content) with
                | Some heading => tl <- scan B style rest ;; ret (heading :: tl)
                | None => throw
                end).
  { rewrite scan_cons. unfold classify. rewrite Ht.
    change (startsWith (repeat (ch "#") (S n) ++ ws ++ content) (js "#")) with true.
    reflexivity. }
  rewrite E, heading_block_level by assumption.
  split; [|split].
  - destruct (forallb constructible _); reflexivity.
  - intros Hq. rewrite parseInlineStyles_constructible by exact Hq. reflexivity.
  - intros Hne Hfree Hq.
    rewrite plain_text_not_constructible by assumption. reflexivity.
Qed.

(** Four number signs and no space: a heading of level 3 style.  Eleven
    number signs: no heading can be built in the standard style, and the
    conversion throws. *)
Lemma heading_level_witness :
  scan offline (style_of NOTE None) (js "  ####Deep  " :: [])
  = (tl <- scan offline (style_of NOTE None) [] ;;
     ret (SParagraph
            (mkParagraph
               (parseInlineStyles (js "Deep") (fontFace (style_of NOTE None))
                  (fontSize (style_of NOTE None) + (4 - inject_Z (Z.of_nat 4)) * 2)%Q
                  (headingColor (style_of NOTE None)))
               (Some HEADING_3) (Some LEFT)
               (Some (mkSpacing None (Some 400%Q) (Some 200%Q))))
          :: tl))
  /\ scan offline (style_of STANDARD None) (js "########### deep" :: [js "text"]) = throw.
Proof.
  split.
  - pose proof (@heading_level unit offline (style_of NOTE None) (js "  ####Deep  ") [] 3 []
                  (js "Deep") eq_refl eq_refl eq_refl eq_refl) as (_ & H & _).
    apply H. reflexivity.
  - pose proof (@heading_level unit offline (style_of STANDARD None)
                  (js "########### deep") [js "text"] 10 [32%N] (js "deep")
                  eq_refl eq_refl eq_refl eq_refl) as (_ & _ & H).
    apply H; [discriminate | reflexivity | reflexivity].
Defined.

(** ** Lines of text *)




(** ** No more sections than lines *)

Lemma out_scanning_length (raw : jsstring) :
  List.length (out_scanning raw) + pending_block (step_scanning raw) <= 1.
Proof. unfold out_scanning, step_scanning. destruct (classify raw); cbn; lia. Qed.

Lemma nodes_length :
  forall lines st,
    List.length (nodes st lines) <= List.length lines + pending_block st.
Proof.
  induction lines as [|raw rest IH]; intros st.
  - destruct st; cbn; lia.
  - cbn [nodes List.length]. rewrite length_app.
    pose proof (IH (step st raw)) as H.
    pose proof (out_scanning_length raw) as Ho.
    destruct st as [|c|t]; cbn [out step pending_block] in *.
    + lia.
    + destruct (is_fence raw); cbn [List.length pending_block] in *; lia.
    + destruct (is_pipe_line raw); cbn [List.length pending_block] in *; lia.
Qed.

Lemma table_blocks_length (style : DocumentStyle) (tableLines : list jsstring) :
  List.length (table_blocks style tableLines) <= 1.
Proof. unfold table_blocks. destruct (table_rows tableLines); cbn; lia. Qed.

Lemma assemble_length {W : Type} (B : Browser W) (style : DocumentStyle) :
  forall ns w blocks w',
    assemble B style ns w = (Returned blocks, w') ->
    List.length blocks <= List.length ns.
Proof.
  induction ns as [|n ns IH]; intros w blocks w' H.
  - inversion H. cbn. lia.
  - destruct n as [line|alt url|codeLines|tableLines|line];
      cbn [assemble] in H; unfold bind, ret, throw in H.
    2: { destruct (fetchImageBuffer B url w) as [[r|] w1]; [|discriminate].
         destruct (assemble B style ns w1) as [[tl|] w2] eqn:E; [|discriminate].
         inversion H; subst. apply IH in E. cbn. lia. }
    1: destruct (heading_block style line) as [h|]; [|discriminate].
    all: destruct (assemble B style ns w) as [[tl|] w2] eqn:E; [|discriminate];
      inversion H; subst; apply IH in E.
    + cbn. lia.
    + cbn. lia.
    + rewrite length_app. pose proof (table_blocks_length style tableLines).
      cbn [List.length]. lia.
    + cbn. lia.
Qed.

(** X9. Whenever the conversion returns, it returns no more sections than
    the input has lines. *)
Theorem sections_bounded_by_lines {W : Type} (B : Browser W) (style : DocumentStyle)
  (lines : list jsstring) (w w' : W) (blocks : list SectionChild) :
  scan B style lines w = (Returned blocks, w') ->
  List.length blocks <= List.length lines.
Proof.
  intros E. rewrite scan_nodes in E. apply assemble_length in E.
  pose proof (nodes_length lines Scanning) as H. cbn [pending_block] in H. lia.
Qed.

(** Seven lines, four sections: a heading, a paragraph, a table and a
    code block. *)
Lemma sections_bounded_by_lines_witness :
  exists blocks,
    scan offline (style_of STANDARD None)
      (map js ["# Title"; ""; "text"; "| a |"; "| b |"; "```"; "code"]%string) tt
    = (Returned blocks, tt)
    /\ List.length blocks = 4
    /\ List.length blocks <= 7.
Proof.
  eexists. split; [vm_compute; reflexivity|]. split; [reflexivity|].
  apply (@sections_bounded_by_lines unit offline (style_of STANDARD None)
           (map js ["# Title"; ""; "text"; "| a |"; "| b |"; "```"; "code"]%string) tt tt).
  vm_compute. reflexivity.
Defined.

(** ** An image that does not load *)



(** ** The settings *)

Lemma jseqb_refl (a : jsstring) : jseqb a a = true.
Proof. unfold jseqb. destruct (list_eq_dec N.eq_dec a a); [reflexivity | contradiction]. Qed.

Lemma jseqb_eq (a b : jsstring) : jseqb a b = true -> a = b.
Proof. unfold jseqb. destruct (list_eq_dec N.eq_dec a b); [trivial | discriminate]. Qed.

Lemma jseqb_neq (a b : jsstring) : a <> b -> jseqb a b = false.
Proof. unfold jseqb. destruct (list_eq_dec N.eq_dec a b); [contradiction | trivial]. Qed.

Lemma getItem_removeItem (st : Storage) (key k : jsstring) :
  getItem (removeItem st key) k = if jseqb key k then None else getItem st k.
Proof.
  induction st as [|[k0 v0] st IH]; cbn [removeItem filter getItem fst].
  - destruct (jseqb key k); reflexivity.
  - fold (removeItem st key).
    destruct (jseqb k0 key) eqn:E0; cbn [negb getItem].
    + apply jseqb_eq in E0. rewrite E0, IH. destruct (jseqb key k); reflexivity.
    + rewrite IH. destruct (jseqb k0 k) eqn:E1; [|reflexivity].
      apply jseqb_eq in E1. rewrite <- E1, jseqb_neq; [reflexivity|].
      intros ->. rewrite jseqb_refl in E0. discriminate.
Qed.

Lemma getItem_setItem (st : Storage) (key value k : jsstring) :
  getItem (setItem st key value) k = if jseqb key k then Some value else getItem st k.
Proof.
  unfold setItem. cbn [getItem]. rewrite getItem_removeItem.
  destruct (jseqb key k); reflexivity.
Qed.

Lemma getItem_store (st : Storage) (key value k : jsstring) :
  getItem (store st key value) k
  = if jseqb key k then (if nonempty value then Some value else None) else getItem st k.
Proof.
  unfold store. destruct (nonempty value).
  - apply getItem_setItem.
  - apply getItem_removeItem.
Qed.

Lemma or_else_store (value d : jsstring) :
  or_else (if nonempty value then Some value else None) d
  = if nonempty value then value else d.
Proof. destruct value; reflexivity. Qed.

(** X11. What [saveUserSettings] is given is what [getUserSettings] reads
    back, whatever was stored before; a model left empty reads back as the
    first of the available models. *)
Theorem settings_round_trip (st : Storage) (apiKey model baseUrl : jsstring) :
  getUserSettings (saveUserSettings st apiKey model baseUrl)
  = mkUserSettings apiKey (if nonempty model then model else first_model) baseUrl.
Proof.
  unfold getUserSettings, saveUserSettings. rewrite !getItem_store.
  repeat match goal with
         | |- context [jseqb (js ?a) (js ?b)] =>
             let v := eval vm_compute in (jseqb (js a) (js b)) in
             change (jseqb (js a) (js b)) with v
         end.
  cbv iota. rewrite !or_else_store.
  destruct apiKey, model, baseUrl; reflexivity.
Qed.

(** X12. After [saveUserSettings] the effective values are the saved ones;
    a key left empty removes the stored key, so that the key of the
    environment is used, and a model left empty gives the default model of
    the task. *)
Theorem saved_settings_effective (st : Storage) (apiKey model baseUrl : jsstring)
  (env : option jsstring) (taskType : TaskType) :
  let st' := saveUserSettings st apiKey model baseUrl in
  getEffectiveApiKey st' env = (if nonempty apiKey then apiKey else or_else env [])
  /\ getEffectiveModel st' taskType
     = (if nonempty model then model
        else match taskType with
             | OcrTask => js "gemini-3-pro-preview"
             | TextTask => js "gemini-3-flash-preview"
             end)
  /\ getEffectiveBaseUrl st' = baseUrl.
Proof.
  cbv zeta.
  unfold getEffectiveApiKey, getEffectiveModel, getEffectiveBaseUrl, saveUserSettings.
  rewrite !getItem_store.
  repeat match goal with
         | |- context [jseqb (js ?a) (js ?b)] =>
             let v := eval vm_compute in (jseqb (js a) (js b)) in
             change (jseqb (js a) (js b)) with v
         end.
  cbv iota. rewrite !or_else_store.
  destruct apiKey, model, baseUrl; repeat split; reflexivity.
Qed.

(** X13. [saveUserSettings] leaves every other key of the storage as it
    is. *)
Theorem settings_other_keys_kept (st : Storage) (apiKey model baseUrl key : jsstring) :
  key <> js "user_api_key" -> key <> js "user_model" -> key <> js "user_base_url" ->
  getItem (saveUserSettings st apiKey model baseUrl) key = getItem st key.
Proof.
  intros H1 H2 H3. unfold saveUserSettings. rewrite !getItem_store.
  rewrite !jseqb_neq by congruence. reflexivity.
Qed.

(** The stored theme is kept when the settings are saved. *)
Lemma settings_other_keys_kept_witness :
  getItem (saveUserSettings [(js "user_theme", js "rose"); (js "user_model", js "old")]
             (js "k") [] (js "http://h")) (js "user_theme")
  = getItem [(js "user_theme", js "rose"); (js "user_model", js "old")] (js "user_theme").
Proof. apply settings_other_keys_kept; discriminate. Defined.

(** ** Trimmed strings *)

Lemma drop_spaces_stops (s : jsstring) : stops is_space (drop_spaces s) = true.
Proof.
  induction s as [|c s IH]; [reflexivity|]. cbn [drop_spaces].
  destruct (is_space c) eqn:E; [assumption|]. cbn [stops]. rewrite E. reflexivity.
Qed.

Lemma drop_spaces_id (s : jsstring) : stops is_space s = true -> drop_spaces s = s.
Proof.
  destruct s as [|c s]; [reflexivity|]. cbn [stops drop_spaces].
  intros H. apply negb_true_iff in H. rewrite H. reflexivity.
Qed.

Lemma trim_trimmed (s : jsstring) : trimmed (trim s) = true.
Proof.
  unfold trimmed, trim. rewrite rev_involutive, drop_spaces_stops, andb_true_r.
  pose proof (drop_spaces_stops s) as H. destruct (drop_spaces s) as [|a d]; [reflexivity|].
  cbn [stops] in H. apply negb_true_iff in H.
  cbn [rev]. rewrite drop_spaces_nonspace by assumption.
  rewrite rev_app_distr. cbn [rev app stops]. rewrite H. reflexivity.
Qed.

Lemma trim_id (s : jsstring) : trimmed s = true -> trim s = s.
Proof.
  unfold trimmed, trim. intros H. apply andb_true_iff in H. destruct H as [H1 H2].
  rewrite (drop_spaces_id _ H1), (drop_spaces_id _ H2). apply rev_involutive.
Qed.

Lemma drop_spaces_app (ws s : jsstring) :
  forallb is_space ws = true -> drop_spaces (ws ++ s) = drop_spaces s.
Proof.
  induction ws as [|x ws IH]; [reflexivity|]. cbn [forallb app drop_spaces].
  intros H. apply andb_true_iff in H. destruct H as [Hx Hws]. rewrite Hx. auto.
Qed.

(** White space around a trimmed string is what [trim] removes. *)
Lemma trim_padded (ws1 ws2 c : jsstring) :
  forallb is_space ws1 = true -> forallb is_space ws2 = true ->
  trimmed c = true ->
  trim (ws1 ++ c ++ ws2) = c.
Proof.
  intros H1 H2 Hc. rewrite <- (trim_id _ Hc) at 2. unfold trim.
  rewrite drop_spaces_app by assumption.
  apply andb_true_iff in Hc. destruct Hc as [Ha Hz].
  destruct c as [|a c].
  - cbn [app]. rewrite <- (app_nil_r ws2), drop_spaces_app by assumption. reflexivity.
  - cbn [stops] in Ha. apply negb_true_iff in Ha.
    cbn [app drop_spaces]. rewrite Ha.
    change (a :: c ++ ws2) with ((a :: c) ++ ws2). rewrite rev_app_distr.
    rewrite drop_spaces_app; [reflexivity|].
    rewrite forallb_forall in *. intros x Hx. apply H2. apply in_rev. assumption.
Qed.



(** ** Replacing the line breaks of a cell *)





(** ** Splitting at a character *)

Lemma split_walk_no_sep (c : char) :
  forall x cur, ~ In c x -> split_walk [c] 0 cur x = [rev cur ++ x].
Proof.
  induction x as [|a x IH]; intros cur Hx.
  - cbn [split_walk]. rewrite app_nil_r. reflexivity.
  - cbn [split_walk startsWith]. rewrite andb_true_r.
    destruct (N.eqb_spec c a) as [->|_]; [exfalso; apply Hx; left; reflexivity|].
    rewrite IH by (intros H; apply Hx; right; assumption).
    cbn [rev]. rewrite <- app_assoc. reflexivity.
Qed.

Lemma split_walk_sep (c : char) (y : jsstring) :
  forall x cur,
    ~ In c x ->
    split_walk [c] 0 cur (x ++ c :: y) = (rev cur ++ x) :: split_walk [c] 0 [] y.
Proof.
  induction x as [|a x IH]; intros cur Hx.
  - cbn [app split_walk startsWith]. rewrite N.eqb_refl. cbn [andb List.length Nat.pred].
    rewrite app_nil_r. reflexivity.
  - cbn [app split_walk startsWith]. rewrite andb_true_r.
    destruct (N.eqb_spec c a) as [->|_]; [exfalso; apply Hx; left; reflexivity|].
    rewrite IH by (intros H; apply Hx; right; assumption).
    cbn [rev]. rewrite <- app_assoc. reflexivity.
Qed.

(** ** The pipes at the ends of a table line *)

Lemma boundary_pipes_walk (f : unit -> mstate -> jsstring * unit) :
  (forall u m, f u m = ([], u)) ->
  forall mid i,
    fst (replace_walk boundaryPipeRegex f (S i) 0 (mid ++ [124%N]) tt) = mid.
Proof.
  intros Hf. induction mid as [|c mid IH]; intros i.
  - cbn [app replace_walk]. unfold match_here, boundaryPipeRegex, cats. norm_ch.
    cbn [fold_right rmatch pos rest caps Nat.eqb N.eqb Pos.eqb].
    rewrite Hf. replace (S (S i) - S i) with 1 by lia.
    cbn [replace_walk]. unfold match_here. cbn [rmatch pos rest Nat.eqb]. reflexivity.
  - cbn [app replace_walk]. unfold match_here, boundaryPipeRegex, cats. norm_ch.
    cbn [fold_right rmatch pos rest caps Nat.eqb].
    assert (E : (if (c =? 124)%N
                 then match mid ++ [124%N] with
                      | [] => Some (MState (S (S i)) (mid ++ [124%N]) [])
                      | _ :: _ => None
                      end
                 else None) = None).
    { destruct (c =? 124)%N; [|reflexivity]. destruct mid; reflexivity. }
    rewrite E.
    fold boundaryPipeRegex. specialize (IH (S i)).
    change (Or (Cat Bol (Cat (Lit 124%N) Eps)) (Cat (Lit 124%N) (Cat Eol Eps)))
      with boundaryPipeRegex.
    destruct (replace_walk boundaryPipeRegex f (S (S i)) 0 (mid ++ [124%N]) tt) as [out st].
    cbn [fst] in *. rewrite IH. reflexivity.
Qed.

Lemma remove_boundary_pipes (mid : jsstring) :
  remove_all boundaryPipeRegex (124%N :: mid ++ [124%N]) = mid.
Proof.
  unfold remove_all, replace_all. cbn [replace_walk].
  unfold match_here, boundaryPipeRegex, cats. norm_ch.
  cbn [fold_right rmatch pos rest caps Nat.eqb N.eqb Pos.eqb]. cbn [Nat.sub].
  change (Or (Cat Bol (Cat (Lit 124%N) Eps)) (Cat (Lit 124%N) (Cat Eol Eps)))
    with boundaryPipeRegex.
  pose proof (@boundary_pipes_walk (fun (u : unit) _ => ([], u)) (fun u m => eq_refl) mid 0) as H.
  destruct (replace_walk boundaryPipeRegex (fun (u : unit) _ => ([], u)) 1 0 (mid ++ [124%N]) tt)
    as [out st]. cbn [fst] in *. rewrite H. reflexivity.
Qed.

(** ** The cells of an imported line *)

Lemma join_cons (sep x y : jsstring) (l : list jsstring) :
  join sep (x :: y :: l) = x ++ sep ++ join sep (y :: l).
Proof. reflexivity. Qed.

Lemma split_joined (cells : list jsstring) :
  cells <> [] ->
  Forall (fun c => ~ In 124%N c) cells ->
  split ([32%N] ++ join (js " | ") cells ++ [32%N]) [124%N]
  = map (fun c => [32%N] ++ c ++ [32%N]) cells.
Proof.
  unfold split. intros Hne H. induction H as [|c cells Hc Hcs IH]; [contradiction|].
  destruct cells as [|c' cells].
  - cbn [join map]. rewrite split_walk_no_sep; [reflexivity|].
    cbn [app]. intros [E|E]; [discriminate|].
    apply in_app_or in E. destruct E as [E|[E|[]]]; [contradiction | discriminate].
  - rewrite join_cons. cbn [map]. change (js " | ") with ([32%N] ++ 124%N :: [32%N]).
    set (tl := join ([32%N] ++ 124%N :: [32%N]) (c' :: cells)) in *.
    replace ([32%N] ++ (c ++ ([32%N] ++ 124%N :: [32%N]) ++ tl) ++ [32%N])
      with (([32%N] ++ c ++ [32%N]) ++ 124%N :: ([32%N] ++ tl ++ [32%N])).
    2: { rewrite <- !app_assoc. cbn [app]. rewrite <- ?app_assoc. reflexivity. }
    rewrite split_walk_sep.
    + cbn [rev app]. f_equal. apply IH. discriminate.
    + cbn [app]. intros [E|E]; [discriminate|].
      apply in_app_or in E. destruct E as [E|[E|[]]]; [contradiction | discriminate].
Qed.

(** The cells read from a line written by [convertTableToMarkdown] are the
    cells that were written. *)
Lemma row_cells_md_line (cells : list jsstring) :
  cells <> [] ->
  Forall (fun c => ~ In 124%N c) cells ->
  Forall (fun c => trimmed c = true) cells ->
  row_cells (md_line cells) = cells.
Proof.
  intros Hne Hp Ht. unfold row_cells, md_line.
  change (js "| ") with (124%N :: [32%N]). change (js " |") with ([32%N] ++ [124%N]).
  change (js "|") with [124%N].
  replace ((124%N :: [32%N]) ++ join (js " | ") cells ++ [32%N] ++ [124%N])
    with (124%N :: ([32%N] ++ join (js " | ") cells ++ [32%N]) ++ [124%N])
    by (cbn [app]; rewrite <- !app_assoc; reflexivity).
  rewrite remove_boundary_pipes, split_joined by assumption.
  rewrite map_map. clear Hne Hp.
  induction Ht as [|c cells Hc Hcs IH]; [reflexivity|].
  cbn [map]. rewrite IH. f_equal. apply trim_padded; [reflexivity | reflexivity | assumption].
Qed.

(** ** The rows of a table keep their own cells *)

Lemma star_greedy_to_end (p : char -> bool) (k : mstate -> option mstate) :
  (forall st, rest st <> [] -> k st = None) ->
  forall inp i cs m, star_greedy p k i cs inp = Some m -> forallb p inp = true.
Proof.
  intros Hk. induction inp as [|c inp IH]; intros i cs m H; [reflexivity|].
  cbn [star_greedy] in H. cbn [forallb]. destruct (p c).
  - destruct (star_greedy p k (S i) cs inp) as [r|] eqn:E.
    + apply IH in E. exact E.
    + rewrite Hk in H by (cbn [rest]; discriminate). discriminate.
  - rewrite Hk in H by (cbn [rest]; discriminate). discriminate.
Qed.

(** What [/^-+$/] matches is made of dashes. *)
Lemma dashes_all (cell : jsstring) :
  matches dashesRegex cell = true -> forallb is_dash cell = true.
Proof.
  unfold matches, dashesRegex, cats. cbn [fold_right]. rewrite search_anchored.
  unfold match_here. cbn [rmatch pos rest caps Nat.eqb].
  destruct cell as [|c cell]; [discriminate|].
  cbn [forallb]. destruct (is_dash c); [|discriminate].
  destruct (star_greedy is_dash _ 1 [] cell) as [r|] eqn:E; [|discriminate].
  intros _. apply star_greedy_to_end in E; [exact E|].
  intros st Hst. cbn [rmatch]. destruct (rest st); [contradiction | reflexivity].
Qed.

Lemma data_row_not_separator (row : list jsstring) :
  data_row row = true -> is_separator_row row = false.
Proof.
  unfold data_row. intros H. apply existsb_exists in H. destruct H as (cell & Hin & H).
  apply existsb_exists in H. destruct H as (c & Hc & H).
  destruct (is_separator_row row) eqn:E; [|reflexivity].
  unfold is_separator_row in E. rewrite forallb_forall in E.
  pose proof (dashes_all _ (E cell Hin)) as D. rewrite forallb_forall in D.
  rewrite (D c Hc) in H. discriminate.
Qed.

(** C2, as the code has it. No row of a table is padded: every row holds
    the cells of one line, the rows come in the order of their lines, and
    every line with a cell that holds something else than dashes and colons
    gives a row.  The lines [| c1 | ... | cn |] of such rows, with cells
    that are trimmed and hold no pipe, give back exactly these rows,
    whatever their lengths; the rows of the docx table have the same
    numbers of cells.  The lines [| a | b |], [|---|---|], [| 1 |] give two
    rows, of two cells and of one cell. *)
Theorem table_rows_keep_own_cells (tableLines : list jsstring) :
  (exists keep : jsstring -> bool,
     table_rows tableLines = map row_cells (filter keep tableLines)
     /\ forall l, data_row (row_cells l) = true -> keep l = true)
  /\ (forall rows : list (list jsstring),
        Forall (fun row => row <> []
                           /\ Forall (fun c => ~ In (ch "|") c) row
                           /\ Forall (fun c => trimmed c = true) row
                           /\ data_row row = true) rows ->
        table_rows (map md_line rows) = rows)
  /\ (forall style,
        exists rows,
          table_block style (table_rows tableLines) = STable rows
          /\ map (@List.length _) rows = map (@List.length _) (table_rows tableLines))
  /\ table_rows (map js ["| a | b |"; "|---|---|"; "| 1 |"]%string)
     = [[js "a"; js "b"]; [js "1"]].
Proof.
  split; [|split; [|split; [|reflexivity]]].
  - exists (fun l => negb (is_separator_row (row_cells l))). split.
    + exact (filter_map_comm row_cells (fun row => negb (is_separator_row row)) tableLines).
    + intros l H. rewrite (data_row_not_separator _ H). reflexivity.
  - intros rows H. unfold table_rows.
    induction H as [|row rows (Hne & Hp & Ht & Hd) _ IH]; [reflexivity|].
    cbn [map filter]. rewrite (row_cells_md_line Hne Hp Ht).
    rewrite (data_row_not_separator _ Hd). cbn [negb]. rewrite IH. reflexivity.
  - intros style. unfold table_block. eexists. split; [reflexivity|].
    apply (mapi_cells_length
             (fun (_ : unit) rowIndex cellText =>
                mkTableCell
                  [mkParagraph
                     (parseInlineStyles cellText (fontFace style) (fontSize style)
                        (js "#000000"))
                     None (Some CENTER) None]
                  (if Nat.eqb rowIndex 0 then Some (js "F3F4F6") else None))
             (table_rows tableLines) (fun _ => tt) 0).
Qed.

(** The lines [| a | b |] and [| 1 |] give the rows [a, b] and [1]: the
    second row is not filled up. *)
Lemma table_rows_keep_own_cells_witness :
  map md_line [[js "a"; js "b"]; [js "1"]] = map js ["| a | b |"; "| 1 |"]%string
  /\ table_rows (map md_line [[js "a"; js "b"]; [js "1"]])
     = [[js "a"; js "b"]; [js "1"]].
Proof.
  split; [reflexivity|].
  apply (proj1 (proj2 (table_rows_keep_own_cells []))).
  repeat constructor; try discriminate;
    intros H; vm_compute in H;
    repeat (destruct H as [H|H]; [discriminate|]); contradiction.
Defined.

(** The rows of [| a | b |], [|---|---|], [| 1 |] are not rectangular. *)
Lemma table_rows_not_rectangular :
  rectangular (table_rows (map js ["| a | b |"; "|---|---|"; "| 1 |"]%string)) = false.
Proof. reflexivity. Qed.

(** ** An imported table, exported *)



















(** ** Runs of line feeds *)

Lemma star_greedy_leading (p : char -> bool) (cs : list (nat * jsstring)) :
  forall inp i,
    star_greedy p Some i cs inp
    = Some (MState (i + leading p inp) (skipn (leading p inp) inp) cs).
Proof.
  induction inp as [|c inp IH]; intros i; cbn [star_greedy leading].
  - rewrite Nat.add_0_r. reflexivity.
  - destruct (p c).
    + rewrite IH. cbn [skipn]. rewrite Nat.add_succ_r. reflexivity.
    + rewrite Nat.add_0_r. reflexivity.
Qed.

Lemma leading_le_length (p : char -> bool) (s : jsstring) :
  leading p s <= List.length s.
Proof.
  induction s as [|c s IH]; cbn [leading List.length]; [lia|].
  destruct (p c); lia.
Qed.

Lemma leading_skipn (p : char -> bool) (s : jsstring) :
  leading p (skipn (leading p s) s) = 0.
Proof.
  induction s as [|c s IH]; [reflexivity|]. cbn [leading].
  destruct (p c) eqn:E; cbn [skipn leading]; [assumption | rewrite E; reflexivity].
Qed.

(** The pattern of the blank lines matches where three line feeds or more
    stand, and takes them all. *)
Lemma blank_lines_match (i : nat) (inp : jsstring) :
  match_here blankLinesRegex i inp
  = if 3 <=? leading is_nl inp
    then Some (MState (i + leading is_nl inp) (skipn (leading is_nl inp) inp) [])
    else None.
Proof.
  unfold match_here, blankLinesRegex, cats. cbn [fold_right rmatch pos rest caps].
  change (N.eqb 10) with is_nl.
  change (fun s' : mstate => rmatch Eps s' Some) with (@Some mstate).
  destruct inp as [|c0 inp]; [reflexivity|].
  cbn [leading]. rewrite (N.eqb_sym c0 10). fold (is_nl c0).
  destruct (is_nl c0); [|reflexivity].
  destruct inp as [|c1 inp]; [reflexivity|].
  cbn [leading]. rewrite (N.eqb_sym c1 10). fold (is_nl c1).
  destruct (is_nl c1); [|reflexivity].
  destruct inp as [|c2 inp]; [reflexivity|].
  cbn [leading]. rewrite (N.eqb_sym c2 10). fold (is_nl c2).
  destruct (is_nl c2); [|reflexivity].
  cbn [Nat.leb skipn]. rewrite star_greedy_leading.
  f_equal. f_equal. lia.
Qed.

Lemma replace_walk_skip {S : Type} (r : regex) (f : S -> mstate -> jsstring * S) :
  forall k inp i st,
    k <= List.length inp ->
    replace_walk r f i k inp st = replace_walk r f (i + k) 0 (skipn k inp) st.
Proof.
  induction k as [|k IH]; intros inp i st Hk.
  - rewrite Nat.add_0_r. reflexivity.
  - destruct inp as [|c inp]; [cbn [List.length] in Hk; lia|].
    cbn [replace_walk skipn]. rewrite IH by (cbn [List.length] in Hk; lia).
    rewrite Nat.add_succ_r. reflexivity.
Qed.

Lemma leading_starts (s : jsstring) :
  leading is_nl s <= 2 -> startsWith s [10; 10; 10]%N = false.
Proof.
  intros H. destruct s as [|c0 [|c1 [|c2 s]]]; try reflexivity;
    cbn [leading startsWith] in *; unfold is_nl in *;
    destruct (N.eqb 10 c0); try reflexivity;
    destruct (N.eqb 10 c1); try reflexivity;
    destruct (N.eqb 10 c2); try reflexivity; lia.
Qed.

Lemma starts_leading (s : jsstring) :
  startsWith s [10; 10; 10]%N = false -> leading is_nl s <= 2.
Proof.
  intros H. destruct s as [|c0 [|c1 [|c2 s]]]; cbn [leading startsWith] in *;
    unfold is_nl in *; try lia;
    destruct (N.eqb 10 c0); try lia;
    destruct (N.eqb 10 c1); try lia;
    destruct (N.eqb 10 c2); try lia; discriminate.
Qed.

Lemma collapse_walk :
  forall n inp i,
    List.length inp <= n ->
    leading is_nl (fst (replace_walk blankLinesRegex (fun (u : unit) _ => ([10; 10]%N, u))
                          i 0 inp tt))
    <= Nat.min (leading is_nl inp) 2
    /\ includes (fst (replace_walk blankLinesRegex (fun (u : unit) _ => ([10; 10]%N, u))
                        i 0 inp tt)) [10; 10; 10]%N = false.
Proof.
  induction n as [|n IH]; intros inp i Hlen.
  - destruct inp; [|cbn [List.length] in Hlen; lia].
    cbn [replace_walk]. rewrite blank_lines_match. cbn. split; [lia | reflexivity].
  - destruct inp as [|c inp].
    { cbn [replace_walk]. rewrite blank_lines_match. cbn. split; [lia | reflexivity]. }
    cbn [List.length] in Hlen. cbn [replace_walk]. rewrite blank_lines_match.
    destruct (Nat.leb_spec 3 (leading is_nl (c :: inp))) as [H3|H3].
    + cbn [pos]. replace (i + leading is_nl (c :: inp) - i) with (leading is_nl (c :: inp)) by lia.
      destruct (leading is_nl (c :: inp)) as [|k] eqn:Ek; [lia|].
      pose proof (leading_le_length is_nl (c :: inp)) as Hle. rewrite Ek in Hle.
      cbn [List.length] in Hle.
      rewrite replace_walk_skip by lia.
      assert (Hrest : leading is_nl (skipn k inp) = 0).
      { pose proof (leading_skipn is_nl (c :: inp)) as Hs. rewrite Ek in Hs. exact Hs. }
      destruct (IH (skipn k inp) (S i + k)) as [IH1 IH2].
      { rewrite length_skipn. lia. }
      rewrite Hrest in IH1.
      destruct (replace_walk blankLinesRegex (fun (u : unit) _ => ([10; 10]%N, u))
                  (S i + k) 0 (skipn k inp) tt) as [out st].
      cbn [fst app] in *.
      assert (Hout : leading is_nl out = 0) by lia.
      split.
      * cbn [leading]. change (is_nl 10) with true. cbv iota. lia.
      * cbn [includes]. rewrite IH2.
        rewrite !leading_starts; [reflexivity | |];
          cbn [leading]; change (is_nl 10) with true; cbv iota; lia.
    + destruct (IH inp (S i)) as [IH1 IH2]; [lia|].
      destruct (replace_walk blankLinesRegex (fun (u : unit) _ => ([10; 10]%N, u))
                  (S i) 0 inp tt) as [out st].
      cbn [fst] in *.
      assert (HL : leading is_nl (c :: out) <= Nat.min (leading is_nl (c :: inp)) 2).
      { cbn [leading] in *. destruct (is_nl c); lia. }
      split; [exact HL|].
      cbn [includes]. rewrite IH2, orb_false_r. apply leading_starts. lia.
Qed.

(** Where no three line feeds stand in a row nothing is replaced. *)
Lemma collapse_id :
  forall inp i,
    includes inp [10; 10; 10]%N = false ->
    replace_walk blankLinesRegex (fun (u : unit) _ => ([10; 10]%N, u)) i 0 inp tt
    = (inp, tt).
Proof.
  induction inp as [|c inp IH]; intros i H.
  - cbn [replace_walk]. rewrite blank_lines_match. reflexivity.
  - cbn [includes] in H. apply orb_false_iff in H. destruct H as [H1 H2].
    cbn [replace_walk]. rewrite blank_lines_match.
    apply starts_leading in H1.
    destruct (Nat.leb_spec 3 (leading is_nl (c :: inp))) as [H3|_]; [lia|].
    rewrite IH by assumption. reflexivity.
Qed.

(** ** Factors *)

Lemma startsWith_app_r (p : jsstring) :
  forall x b, startsWith x p = true -> startsWith (x ++ b) p = true.
Proof.
  induction p as [|c p IH]; intros x b H; [reflexivity|].
  destruct x as [|a x]; [discriminate|]. cbn [app startsWith] in *.
  apply andb_true_iff in H. destruct H as [H1 H2]. rewrite H1, (IH _ _ H2). reflexivity.
Qed.

Lemma includes_app_r (p x b : jsstring) :
  includes x p = true -> includes (x ++ b) p = true.
Proof.
  induction x as [|a x IH]; cbn [includes app]; intros H.
  - rewrite orb_false_r in H. destruct p; [|discriminate].
    destruct b; reflexivity.
  - apply orb_true_iff in H. destruct H as [H|H].
    + change (a :: x ++ b) with ((a :: x) ++ b). rewrite (startsWith_app_r _ _ b H). reflexivity.
    + rewrite (IH H). apply orb_true_r.
Qed.

Lemma includes_app_l (p a y : jsstring) :
  includes y p = true -> includes (a ++ y) p = true.
Proof.
  intros H. induction a as [|c a IH]; [exact H|].
  cbn [app includes]. rewrite IH. apply orb_true_r.
Qed.

Lemma includes_factor (p a x b : jsstring) :
  includes (a ++ x ++ b) p = false -> includes x p = false.
Proof.
  intros H. destruct (includes x p) eqn:E; [|reflexivity].
  rewrite (includes_app_l _ a _ (includes_app_r _ _ b E)) in H. discriminate.
Qed.

Lemma drop_spaces_suffix (s : jsstring) : exists a, s = a ++ drop_spaces s.
Proof.
  induction s as [|c s [a IH]]; [exists []; reflexivity|]. cbn [drop_spaces].
  destruct (is_space c).
  - exists (c :: a). cbn [app]. f_equal. exact IH.
  - exists []. reflexivity.
Qed.

Lemma trim_factor (s : jsstring) : exists a b, s = a ++ trim s ++ b.
Proof.
  unfold trim. destruct (drop_spaces_suffix s) as [a Ha].
  destruct (drop_spaces_suffix (rev (drop_spaces s))) as [b Hb].
  exists a, (rev b). rewrite <- rev_app_distr, <- Hb, rev_involutive. exact Ha.
Qed.

(** X14. The Markdown that [htmlToMarkdown] returns has no white space at
    its ends and nowhere three line feeds in a row, whatever the
    document. *)
Theorem imported_markdown_clean (body : Node) :
  trimmed (htmlToMarkdown body) = true
  /\ includes (htmlToMarkdown body) [10; 10; 10]%N = false.
Proof.
  unfold htmlToMarkdown. split; [apply trim_trimmed|].
  destruct (trim_factor (replace_const blankLinesRegex [10; 10]%N (processNode body 0)))
    as (a & b & E).
  apply (includes_factor _ a _ b). rewrite <- E.
  unfold replace_const, replace_all.
  apply (@collapse_walk (List.length (processNode body 0))). lia.
Qed.

(** ** An imported image, exported *)

Lemma no_blank_lines_in_line (line : jsstring) :
  ~ In 10%N line -> includes (10%N :: line ++ [10%N]) [10; 10; 10]%N = false.
Proof.
  intros H.
  assert (A : forall l, ~ In 10%N l -> includes (l ++ [10%N]) [10; 10; 10]%N = false).
  { induction l as [|c l IH]; intros Hl; [reflexivity|].
    cbn [app includes startsWith].
    destruct (N.eqb_spec 10 c) as [<-|_]; [exfalso; apply Hl; left; reflexivity|].
    cbn [andb orb]. apply IH. intros Hin. apply Hl. right. assumption. }
  cbn [includes]. rewrite (A line H), orb_false_r.
  destruct line as [|c l]; [reflexivity|].
  cbn [app startsWith].
  destruct (N.eqb_spec 10 c) as [<-|_]; [exfalso; apply H; left; reflexivity|].
  reflexivity.
Qed.






(** ** An imported table, exported *)











Section TableToEnd.

Context {W : Type} (B : Browser W) (style : DocumentStyle).



End TableToEnd.



(** ** An imported heading, exported *)

Lemma trimmed_last (t : jsstring) :
  trimmed t = true -> stops is_space t = true /\ stops is_space (rev t) = true.
Proof. unfold trimmed. intros H. apply andb_true_iff in H. exact H. Qed.

(** X17. A heading imported from HTML and exported to docx: the Markdown
    written for an element [h1] to [h5] that holds one line of text is read
    back by [downloadDocx] as a heading of that level with that text; the
    levels 4 and 5 get the heading style of level 3.  This is so with every
    preset style, and with every style that gives the level a font size of
    1 or more; in general the heading is the result when its runs can be
    built, and the conversion throws when they cannot. *)
Theorem imported_heading_exported {W : Type} (B : Browser W) (n : nat) (t : jsstring)
  (template : WordTemplate) (customStyle : option DocumentStyle) :
  n < 5 ->
  t <> [] -> trimmed t = true -> ~ In 10%N t -> stops is_hash t = true ->
  let style := style_of template customStyle in
  let children :=
    parseInlineStyles t (fontFace style)
      (fontSize style + (4 - inject_Z (Z.of_nat (S n))) * 2)%Q (headingColor style) in
  let heading :=
    SParagraph
      (mkParagraph children
         (Some (match n with 0 => HEADING_1 | 1 => HEADING_2 | _ => HEADING_3 end))
         (Some (match n with 0 => CENTER | _ => LEFT end))
         (Some (mkSpacing None (Some 400%Q) (Some 200%Q)))) in
  let run :=
    downloadDocx B
      (htmlToMarkdown
         (ElementNode (js "body") []
            [ElementNode (js "h" ++ dec (S n)) [] [TextNode t]]))
      template customStyle in
  run = (if forallb constructible children then ret [heading] else throw)
  /\ (Qle_bool 1 (fontSize style + (4 - inject_Z (Z.of_nat (S n))) * 2)%Q = true ->
      run = ret [heading])
  /\ (template <> CUSTOM \/ customStyle = None -> run = ret [heading]).
Proof.
  intros Hn Hne Htr Hnl Hh style children heading run.
  destruct (trimmed_last _ Htr) as [Hs Hr].
  set (line := repeat (ch "#") (S n) ++ [32%N] ++ t).
  assert (Hline_nl : ~ In 10%N line).
  { unfold line. intros Hin. apply in_app_or in Hin. destruct Hin as [Hin|Hin].
    - apply repeat_spec in Hin. discriminate.
    - cbn [app] in Hin. destruct Hin as [E|Hin]; [discriminate | contradiction]. }
  assert (Hline_tr : trimmed line = true).
  { unfold trimmed, line. apply andb_true_iff. split; [reflexivity|].
    rewrite !rev_app_distr.
    destruct (rev t) as [|d r] eqn:Er.
    - apply (f_equal (@List.length N)) in Er. rewrite length_rev in Er.
      destruct t; [contradiction | discriminate].
    - cbn [app stops] in Hr |- *. exact Hr. }
  assert (Hkeep : (negb (nonempty (trim t)) && includes t [10%N])%bool = false).
  { rewrite (trim_id _ Htr). destruct t; [contradiction | reflexivity]. }
  assert (Hmd : htmlToMarkdown
                  (ElementNode (js "body") []
                     [ElementNode (js "h" ++ dec (S n)) [] [TextNode t]])
                = line).
  { unfold htmlToMarkdown.
    assert (Hp : processNode
                   (ElementNode (js "body") []
                      [ElementNode (js "h" ++ dec (S n)) [] [TextNode t]]) 0
                 = 10%N :: line ++ [10%N]).
    { cbn [processNode].
      change (tag_is (js "body") ["table"%string]) with false.
      change (open_tag (js "body") [] 0) with (@nil N).
      change (close_tag (js "body") []) with (@nil N).
      cbv iota. cbn [map List.concat processNode]. rewrite Hkeep.
      unfold line.
      destruct n as [|[|[|[|[|n]]]]]; [| | | | | lia];
        cbv iota; rewrite !app_nil_r; cbn; rewrite <- ?app_assoc; reflexivity. }
    rewrite Hp. unfold replace_const, replace_all.
    rewrite collapse_id by (apply no_blank_lines_in_line; assumption).
    cbn [fst]. apply (trim_padded [10%N] [10%N] line); [reflexivity | reflexivity | assumption]. }
  assert (E : run = (if forallb constructible children then ret [heading] else throw)).
  { unfold run. rewrite Hmd. unfold downloadDocx, split.
    rewrite split_walk_no_sep by assumption.
    cbn [rev app]. rewrite scan_cons. unfold classify.
    rewrite (trim_id _ Hline_tr). unfold line at 1.
    change (startsWith (repeat (ch "#") (S n) ++ [32%N] ++ t) (js "#")) with true.
    cbv iota. unfold line.
    rewrite heading_block_level; [| reflexivity | reflexivity | assumption].
    fold style. fold children. fold heading.
    destruct (forallb constructible children); reflexivity. }
  assert (Hq : Qle_bool 1 (fontSize style + (4 - inject_Z (Z.of_nat (S n))) * 2)%Q = true ->
               run = ret [heading]).
  { intros Hq. rewrite E. unfold children.
    rewrite parseInlineStyles_constructible by exact Hq. reflexivity. }
  split; [exact E|]. split; [exact Hq|].
  intros Hpreset. apply Hq. unfold style.
  destruct n as [|[|[|[|[|n]]]]]; [| | | | | lia];
    destruct template; try reflexivity;
    destruct Hpreset as [Hc|Hc]; try (exfalso; apply Hc; reflexivity);
    rewrite Hc; reflexivity.
Qed.

(** An [h4] element becomes a heading with the style of level 3. *)
Lemma imported_heading_exported_witness :
  downloadDocx offline
    (htmlToMarkdown
       (ElementNode (js "body") []
          [ElementNode (js "h" ++ dec 4) [] [TextNode (js "Results")]]))
    ACADEMIC None
  = ret [SParagraph
           (mkParagraph
              (parseInlineStyles (js "Results") (fontFace (style_of ACADEMIC None))
                 (fontSize (style_of ACADEMIC None) + (4 - inject_Z (Z.of_nat 4)) * 2)%Q
                 (headingColor (style_of ACADEMIC None)))
              (Some HEADING_3) (Some LEFT)
              (Some (mkSpacing None (Some 400%Q) (Some 200%Q))))].
Proof.
  destruct (@imported_heading_exported unit offline 3 (js "Results") ACADEMIC None)
    as (_ & _ & H).
  - lia.
  - discriminate.
  - reflexivity.
  - cbn. intros H. repeat (destruct H as [H|H]; [discriminate|]). contradiction.
  - reflexivity.
  - apply H. right. reflexivity.
Defined.

(** ** A formula inserted and selected again *)

Lemma endsWith_app (x p : jsstring) : endsWith (x ++ p) p = true.
Proof.
  unfold endsWith. rewrite rev_app_distr.
  induction (rev p) as [|c r IH]; [reflexivity|].
  cbn [app startsWith]. rewrite N.eqb_refl. exact IH.
Qed.

Lemma slice_ends_between (k : nat) (a b x : jsstring) :
  List.length a = k -> List.length b = k ->
  slice_ends k (a ++ x ++ b) = x.
Proof.
  intros Ha Hb. subst k. unfold slice_ends. rewrite skipn_app, skipn_all, Nat.sub_diag.
  cbn [app skipn]. apply firstn_exact. rewrite !length_app. lia.
Qed.

Lemma block_round_trip (lead trail t : jsstring) :
  forallb is_space lead = true -> forallb is_space trail = true ->
  trimmed t = true ->
  parseMathSelection (lead ++ js "$$" ++ [10%N] ++ t ++ [10%N] ++ js "$$" ++ trail)
  = (t, Some BlockMode).
Proof.
  intros Hl Ht Htr. unfold parseMathSelection.
  assert (E : trim (lead ++ js "$$" ++ [10%N] ++ t ++ [10%N] ++ js "$$" ++ trail)
              = js "$$" ++ ([10%N] ++ t ++ [10%N]) ++ js "$$").
  { replace (lead ++ js "$$" ++ [10%N] ++ t ++ [10%N] ++ js "$$" ++ trail)
      with (lead ++ (js "$$" ++ ([10%N] ++ t ++ [10%N]) ++ js "$$") ++ trail)
      by (rewrite <- !app_assoc; reflexivity).
    apply trim_padded; [assumption | assumption|].
    unfold trimmed. rewrite !rev_app_distr. reflexivity. }
  rewrite E.
  change (startsWith (js "$$" ++ ([10%N] ++ t ++ [10%N]) ++ js "$$") (js "$$")) with true.
  rewrite (app_assoc (js "$$")), endsWith_app. cbn [andb].
  rewrite <- (app_assoc (js "$$")).
  rewrite (@slice_ends_between 2 (js "$$") (js "$$") ([10%N] ++ t ++ [10%N]) eq_refl eq_refl).
  rewrite trim_padded by (reflexivity || assumption). reflexivity.
Qed.

Lemma inline_round_trip (t : jsstring) :
  t <> [] -> trimmed t = true ->
  (startsWith t (js "$") && endsWith t (js "$"))%bool = false ->
  parseMathSelection (js "$" ++ t ++ js "$") = (t, Some InlineMode).
Proof.
  intros Hne Htr Hd. unfold parseMathSelection.
  assert (E : trim (js "$" ++ t ++ js "$") = js "$" ++ t ++ js "$").
  { apply trim_id. unfold trimmed. rewrite !rev_app_distr. reflexivity. }
  rewrite E.
  assert (E2 : (startsWith (js "$" ++ t ++ js "$") (js "$$")
                && endsWith (js "$" ++ t ++ js "$") (js "$$"))%bool = false).
  { destruct t as [|c t]; [contradiction|].
    assert (Hs : startsWith (js "$" ++ (c :: t) ++ js "$") (js "$$")
                 = startsWith (c :: t) (js "$")) by reflexivity.
    assert (He : endsWith (js "$" ++ (c :: t) ++ js "$") (js "$$")
                 = endsWith (c :: t) (js "$")).
    { unfold endsWith. rewrite !rev_app_distr.
      change (rev (js "$")) with [36%N]. change (rev (js "$$")) with [36; 36]%N.
      cbn [app startsWith N.eqb Pos.eqb andb].
      destruct (rev (c :: t)) as [|d r] eqn:Er.
      - apply (f_equal (@List.length N)) in Er. rewrite length_rev in Er. discriminate.
      - cbn [app startsWith]. rewrite !andb_true_r. reflexivity. }
    rewrite Hs, He. exact Hd. }
  rewrite E2.
  change (startsWith (js "$" ++ t ++ js "$") (js "$")) with true.
  rewrite (app_assoc (js "$")), endsWith_app. cbn [andb].
  rewrite <- (app_assoc (js "$")).
  rewrite (@slice_ends_between 1 (js "$") (js "$") t eq_refl eq_refl).
  rewrite trim_id by assumption. reflexivity.
Qed.

(** X18. A formula that [handleInsert] has put into the text, when it is
    selected and the editor is opened on it, is read by
    [parseMathSelection] as the formula that was typed, trimmed, in the
    mode it was inserted in, unless an inline formula itself starts and
    ends with a dollar sign.  The text around the range is kept. *)
Theorem math_insert_reopen (current : jsstring) (start end_ : nat) (latex : jsstring)
  (displayMode : MathDisplayMode) :
  trim latex <> [] ->
  (displayMode = InlineMode ->
   (startsWith (trim latex) (js "$") && endsWith (trim latex) (js "$"))%bool = false) ->
  exists insertion,
    handleInsert current start end_ latex displayMode
    = Some (firstn start current ++ insertion ++ skipn end_ current,
            List.length (firstn start current) + List.length insertion)
    /\ parseMathSelection insertion = (trim latex, Some displayMode).
Proof.
  intros Hne Hin. unfold handleInsert.
  destruct (trim latex) as [|c t] eqn:Et; [contradiction|]. cbn [nonempty].
  eexists. split; [reflexivity|].
  pose proof (trim_trimmed latex) as Htr. rewrite Et in Htr.
  destruct displayMode; cbn [math_insertion].
  - apply block_round_trip; try assumption.
    + match goal with |- context [if ?b then _ else _] => destruct b end; reflexivity.
    + match goal with |- context [if ?b then _ else _] => destruct b end; reflexivity.
  - apply inline_round_trip; [discriminate | assumption | apply Hin; reflexivity].
Qed.

(** An inline formula typed with spaces around it. *)
Lemma math_insert_reopen_witness :
  exists insertion,
    handleInsert (js "Area: . Done") 6 6 (js " \pi r^2 ") InlineMode
    = Some (firstn 6 (js "Area: . Done") ++ insertion ++ skipn 6 (js "Area: . Done"),
            List.length (firstn 6 (js "Area: . Done")) + List.length insertion)
    /\ parseMathSelection insertion = (trim (js " \pi r^2 "), Some InlineMode).
Proof.
  apply math_insert_reopen.
  - discriminate.
  - intros _. reflexivity.
Defined.

(** ** A formula in plain text *)

Lemma replace_walk_prefix {S : Type} (r : regex) (f : S -> mstate -> jsstring * S)
  (P : char -> Prop) :
  (forall i c t, P c -> match_here r i (c :: t) = None) ->
  forall p inp i st,
    Forall P p ->
    replace_walk r f i 0 (p ++ inp) st
    = (p ++ fst (replace_walk r f (i + List.length p) 0 inp st),
       snd (replace_walk r f (i + List.length p) 0 inp st)).
Proof.
  intros Hcons. induction p as [|c p IH]; intros inp i st HP.
  - cbn [app List.length]. rewrite Nat.add_0_r.
    destruct (replace_walk r f i 0 inp st); reflexivity.
  - inversion HP as [|? ? Hc Hrest]; subst.
    cbn [app replace_walk List.length]. rewrite (Hcons i c _ Hc), IH by assumption.
    cbn [fst snd]. rewrite Nat.add_succ_r. reflexivity.
Qed.

Lemma displayMath_single_dollar (i : nat) (t : jsstring) :
  stops (fun c => N.eqb c (ch "$")) t = true ->
  match_here displayMathRegex i (ch "$" :: t) = None.
Proof.
  intros H. unfold match_here, displayMathRegex, cats. norm_ch.
  cbn [fold_right rmatch rest pos caps N.eqb Pos.eqb].
  destruct t as [|c t]; [reflexivity|].
  cbn [stops] in H. apply negb_true_iff in H. rewrite H. reflexivity.
Qed.

(** The display pattern finds nothing in a text with one formula between
    single dollar signs. *)
Lemma display_formula_kept (p t s : jsstring) (st : list MathPlaceholder * nat) :
  Forall not_dollar p -> t <> [] -> Forall not_dollar t -> Forall not_dollar s ->
  replace_all displayMathRegex (math_replacer (js "DISPLAY") true)
    (p ++ ch "$" :: t ++ ch "$" :: s) st
  = (p ++ ch "$" :: t ++ ch "$" :: s, st).
Proof.
  intros Hp Hne Ht Hs. unfold replace_all.
  rewrite replace_walk_prefix with (P := not_dollar);
    [| apply displayMath_no_dollar | assumption].
  cbn [replace_walk]. rewrite displayMath_single_dollar.
  2: { destruct t as [|c t]; [contradiction|]. cbn [app stops].
       inversion Ht as [|? ? Hc _]; subst. apply negb_true_iff, N.eqb_neq, Hc. }
  rewrite replace_walk_prefix with (P := not_dollar);
    [| apply displayMath_no_dollar | assumption].
  cbn [replace_walk]. rewrite displayMath_single_dollar.
  2: { destruct s as [|c s]; [reflexivity|]. cbn [stops].
       inversion Hs as [|? ? Hc _]; subst. apply negb_true_iff, N.eqb_neq, Hc. }
  rewrite (@replace_walk_no_match _ displayMathRegex) with (P := not_dollar);
    [| reflexivity | apply displayMath_no_dollar | assumption].
  cbn [fst snd]. reflexivity.
Qed.

(** The inline pattern matches a formula between single dollar signs. *)
Lemma inline_formula_match (t s : jsstring) (i : nat) :
  t <> [] -> plain_for (ch "$") t = true ->
  match_here inlineMathRegex i (ch "$" :: t ++ ch "$" :: s)
  = Some (MState (i + 2 + List.length t) s [(1, t)]).
Proof.
  intros Hne Ht. pose proof (plain_for_In _ _ Ht) as HIn.
  destruct t as [|c t]; [contradiction|].
  destruct (HIn c (or_introl eq_refl)) as [Hc _].
  unfold match_here, inlineMathRegex, cats. norm_ch.
  cbn [fold_right rmatch rest pos caps N.eqb Pos.eqb app]. rewrite Hc.
  cbn [rmatch rest pos caps].
  rewrite star_lazy_skip.
  - rewrite star_lazy_unfold. cbn [pos rest caps N.eqb Pos.eqb rmatch].
    replace (S (S i) + List.length t - S i) with (S (List.length t)) by lia.
    change (c :: t ++ 36%N :: s) with ((c :: t) ++ 36%N :: s).
    rewrite firstn_exact by reflexivity.
    f_equal. f_equal. cbn [List.length]. lia.
  - intros x Hx. apply (HIn x). right. assumption.
  - intros j x tl Hx. cbn [rmatch rest pos caps].
    destruct (HIn x (or_intror Hx)) as [_ Hd]. norm_ch.
    destruct (N.eqb_spec x 36); [contradiction | reflexivity].
Qed.

Lemma inline_formula_replaced (p t s : jsstring) :
  Forall not_dollar p -> t <> [] -> plain_for (ch "$") t = true -> Forall not_dollar s ->
  replace_all inlineMathRegex (math_replacer (js "INLINE") false)
    (p ++ ch "$" :: t ++ ch "$" :: s) ([], 0)
  = (p ++ js "__MATH_INLINE_0__" ++ s,
     ([mkMathPlaceholder (js "__MATH_INLINE_0__") (trim t) false], 1)).
Proof.
  intros Hp Hne Ht Hs. unfold replace_all.
  rewrite replace_walk_prefix with (P := not_dollar);
    [| apply inlineMath_no_dollar | assumption].
  cbn [replace_walk Nat.add]. rewrite (inline_formula_match s (List.length p) Hne Ht).
  cbn [math_replacer pos]. unfold group. cbn [caps lookup Nat.eqb].
  replace (List.length p + 2 + List.length t - List.length p) with (S (S (List.length t))) by lia.
  rewrite replace_walk_skip by (rewrite length_app; cbn [List.length]; lia).
  replace (skipn (S (List.length t)) (t ++ ch "$" :: s)) with s.
  2: { change (t ++ ch "$" :: s) with (t ++ [ch "$"] ++ s). rewrite app_assoc.
       replace (S (List.length t)) with (List.length (t ++ [ch "$"]))
         by (rewrite length_app; cbn [List.length]; lia).
       rewrite skipn_app, skipn_all, Nat.sub_diag. reflexivity. }
  rewrite (@replace_walk_no_match _ inlineMathRegex) with (P := not_dollar);
    [| reflexivity | apply inlineMath_no_dollar | assumption].
  cbn [fst snd]. reflexivity.
Qed.

(** The placeholder of the first formula is a span between two
    underscores for the emphasis pattern. *)
Lemma placeholder_match (s : jsstring) (i : nat) :
  match_here combinedRegex i (js "__MATH_INLINE_0__" ++ s)
  = Some (MState (i + 17) s [(2, js "MATH_INLINE_0"); (1, js "__")]).
Proof.
  unfold match_here, combinedRegex, markerRegex, cats. norm_ch.
  change (js "__MATH_INLINE_0__") with
    [95; 95; 77; 65; 84; 72; 95; 73; 78; 76; 73; 78; 69; 95; 48; 95; 95]%N.
  cbn [app fold_right rmatch pos rest caps N.eqb Pos.eqb].
  pos_arith. cbn [firstn].
  repeat (rewrite star_lazy_unfold;
          cbn [pos rest caps lookup Nat.eqb rmatch startsWith N.eqb Pos.eqb andb dot
               is_line_terminator orb negb]).
  replace (S (S (S (S (S (S (S (S (S (S (S (S (S (S (S i)))))))))))))) - S (S i))
    with 13 by lia.
  cbn [firstn List.length skipn]. f_equal. f_equal. lia.
Qed.

Lemma includes_absent (c : char) (v : jsstring) :
  forall s, ~ In c s -> includes s (c :: v) = false.
Proof.
  induction s as [|x s IH]; intros H; [reflexivity|].
  cbn [includes]. rewrite (@startsWith_absent (x :: s) v c H).
  apply IH. intros Hin. apply H. right. assumption.
Qed.

(** A stretch without underscore holds no placeholder. *)
Lemma plain_segment_run (t ph content fnt : jsstring) (display : bool) (fontSize : Q)
  (col : jsstring) :
  ~ In 95%N t ->
  runs_of_segment [mkMathPlaceholder (95%N :: ph) content display] fnt fontSize col
    (mkSegment t None)
  = [plain_run t fnt (fontSize * 2)%Q col].
Proof.
  intros H. unfold runs_of_segment. cbn [find placeholder seg_text].
  rewrite (@includes_absent 95%N ph t H). reflexivity.
Qed.

(** X19. A formula in plain text is never exported as a formula.  In a
    line without any other delimiter character, a non-empty text without
    line terminator between two single dollar signs is replaced by the
    bold text [MATH_INLINE_0]: the placeholder that stands for the formula
    starts and ends with two underscores, so the emphasis pattern reads it
    as a bold span and the placeholder is not found again. *)
Theorem plain_formula_read_as_bold (p t s fnt : jsstring) (fontSize : Q) (col : jsstring) :
  delimiter_free p = true ->
  t <> [] ->
  plain_for (ch "$") t = true ->
  delimiter_free s = true ->
  parseInlineStyles (p ++ js "$" ++ t ++ js "$" ++ s) fnt fontSize col
  = plain_runs p fnt fontSize col
    ++ PTextRun (mkTextRun (js "MATH_INLINE_0") (Some fnt) (Some (fontSize * 2)%Q)
                   true false (Some col) None)
    :: plain_runs s fnt fontSize col.
Proof.
  intros Hp Hne Ht Hs.
  destruct (delimiter_free_Forall _ Hp) as [Hpd Hpm].
  destruct (delimiter_free_Forall _ Hs) as [Hsd Hsm].
  assert (Htd : Forall not_dollar t).
  { apply Forall_forall. intros x Hx. apply (plain_for_In _ _ Ht x Hx). }
  destruct (not_marker_absent Hpm) as (_ & Hp95 & _).
  destruct (not_marker_absent Hsm) as (_ & Hs95 & _).
  unfold parseInlineStyles.
  change (p ++ js "$" ++ t ++ js "$" ++ s) with (p ++ ch "$" :: t ++ ch "$" :: s).
  rewrite (display_formula_kept ([], 0) Hpd Hne Htd Hsd).
  rewrite (inline_formula_replaced Hpd Hne Ht Hsd).
  unfold segments_of.
  rewrite exec_loop_plain_prefix with (P := not_marker);
    [| apply combined_no_marker | assumption].
  cbn [app Nat.add].
  pose proof (placeholder_match s (List.length p)) as Hm.
  change (js "__MATH_INLINE_0__") with (95%N :: js "_MATH_INLINE_0__") in Hm |- *.
  cbn [app] in Hm |- *.
  erewrite exec_loop_match by exact Hm.
  cbn [pos]. replace (Nat.pred (List.length p + 17 - List.length p))
    with (List.length (js "_MATH_INLINE_0__")) by (cbn; lia).
  rewrite exec_loop_skip.
  change (match js "_MATH_INLINE_0__" with [] => @nil N | _ :: _ => [] end) with (@nil N).
  rewrite exec_loop_plain_end by assumption.
  cbn [app]. unfold group. cbn [caps lookup Nat.eqb].
  rewrite flat_map_app. cbn [flat_map].
  assert (Hmid : runs_of_segment
                   [mkMathPlaceholder (95%N :: js "_MATH_INLINE_0__") (trim t) false]
                   fnt fontSize col (mkSegment (js "MATH_INLINE_0") (Some (js "__")))
                 = [PTextRun (mkTextRun (js "MATH_INLINE_0") (Some fnt)
                                (Some (fontSize * 2)%Q) true false (Some col) None)])
    by reflexivity.
  rewrite Hmid. unfold plain_runs.
  destruct p as [|a p]; destruct s as [|b s]; cbn [nonempty flat_map app];
    rewrite ?plain_segment_run by assumption; reflexivity.
Qed.

(** The formula of Pythagoras in a sentence. *)
Lemma plain_formula_read_as_bold_witness :
  parseInlineStyles (js "so " ++ js "$" ++ js "a^2+b^2=c^2" ++ js "$" ++ js " holds")
    (js "SimSun") 12 (js "000000")
  = plain_runs (js "so ") (js "SimSun") 12 (js "000000")
    ++ PTextRun (mkTextRun (js "MATH_INLINE_0") (Some (js "SimSun")) (Some (12 * 2)%Q)
                   true false (Some (js "000000")) None)
    :: plain_runs (js " holds") (js "SimSun") 12 (js "000000").
Proof.
  apply plain_formula_read_as_bold; [reflexivity | discriminate | reflexivity | reflexivity].
Defined.

(** ** A formula between backticks *)

(** Between backticks the placeholder of the first formula is the content
    of a code span. *)
Lemma placeholder_code_match (s : jsstring) (i : nat) :
  match_here combinedRegex i (js "`__MATH_INLINE_0__`" ++ s)
  = Some (MState (i + 19) s [(2, js "__MATH_INLINE_0__"); (1, js "`")]).
Proof.
  unfold match_here, combinedRegex, markerRegex, cats. norm_ch.
  change (js "`__MATH_INLINE_0__`") with
    [96; 95; 95; 77; 65; 84; 72; 95; 73; 78; 76; 73; 78; 69; 95; 48; 95; 95; 96]%N.
  cbn [app fold_right rmatch pos rest caps N.eqb Pos.eqb].
  pos_arith. cbn [firstn].
  repeat (rewrite star_lazy_unfold;
          cbn [pos rest caps lookup Nat.eqb rmatch startsWith N.eqb Pos.eqb andb dot
               is_line_terminator orb negb]).
  replace (S (S (S (S (S (S (S (S (S (S (S (S (S (S (S (S (S (S i)))))))))))))))))
           - S i)
    with 17 by lia.
  cbn [firstn List.length skipn]. f_equal. f_equal. lia.
Qed.

(** X20. A formula that is the whole content of a code span is exported
    as a formula.  In a line without any other delimiter character, a
    non-empty text without line terminator between two single dollar signs
    that stand between two backticks becomes one math run that holds the
    trimmed text, not a code run: the segment of the code span holds the
    placeholder, and the branch of the placeholder comes before the
    branches of the styles. *)
Theorem code_formula_is_math (p t s fnt : jsstring) (fontSize : Q) (col : jsstring) :
  delimiter_free p = true ->
  t <> [] ->
  plain_for (ch "$") t = true ->
  delimiter_free s = true ->
  parseInlineStyles (p ++ js "`$" ++ t ++ js "$`" ++ s) fnt fontSize col
  = plain_runs p fnt fontSize col ++ PMath (trim t) :: plain_runs s fnt fontSize col.
Proof.
  intros Hp Hne Ht Hs.
  destruct (delimiter_free_Forall _ Hp) as [Hpd Hpm].
  destruct (delimiter_free_Forall _ Hs) as [Hsd Hsm].
  assert (Htd : Forall not_dollar t).
  { apply Forall_forall. intros x Hx. apply (plain_for_In _ _ Ht x Hx). }
  destruct (not_marker_absent Hpm) as (_ & Hp95 & _).
  destruct (not_marker_absent Hsm) as (_ & Hs95 & _).
  assert (Hpd' : Forall not_dollar (p ++ [96%N])).
  { apply Forall_app. split; [assumption|]. repeat constructor. discriminate. }
  assert (Hsd' : Forall not_dollar (96%N :: s)).
  { constructor; [discriminate | assumption]. }
  unfold parseInlineStyles.
  replace (p ++ js "`$" ++ t ++ js "$`" ++ s)
    with ((p ++ [96%N]) ++ ch "$" :: t ++ ch "$" :: 96%N :: s)
    by (rewrite <- app_assoc; reflexivity).
  rewrite (display_formula_kept ([], 0) Hpd' Hne Htd Hsd').
  rewrite (inline_formula_replaced Hpd' Hne Ht Hsd').
  unfold segments_of. rewrite <- app_assoc.
  rewrite exec_loop_plain_prefix with (P := not_marker);
    [| apply combined_no_marker | assumption].
  cbn [app Nat.add].
  pose proof (placeholder_code_match s (List.length p)) as Hm.
  change (js "`__MATH_INLINE_0__`") with (96%N :: js "__MATH_INLINE_0__" ++ [96%N]) in Hm.
  cbn [app] in Hm. rewrite <- app_assoc in Hm. cbn [app] in Hm.
  erewrite exec_loop_match by exact Hm.
  cbn [pos]. replace (Nat.pred (List.length p + 19 - List.length p))
    with (List.length (js "__MATH_INLINE_0__" ++ [96%N])) by (cbn; lia).
  change (js "__MATH_INLINE_0__" ++ 96%N :: s) with ((js "__MATH_INLINE_0__" ++ [96%N]) ++ s).
  rewrite exec_loop_skip.
  change (match js "__MATH_INLINE_0__" ++ [96%N] with [] => @nil N | _ :: _ => [] end)
    with (@nil N).
  rewrite exec_loop_plain_end by assumption.
  cbn [app]. unfold group. cbn [caps lookup Nat.eqb].
  rewrite flat_map_app. cbn [flat_map].
  assert (Hmid : runs_of_segment
                   [mkMathPlaceholder (js "__MATH_INLINE_0__") (trim t) false]
                   fnt fontSize col
                   (mkSegment (js "__MATH_INLINE_0__") (Some (js "`")))
                 = [PMath (trim t)])
    by reflexivity.
  rewrite Hmid. unfold plain_runs.
  change (js "__MATH_INLINE_0__") with (95%N :: js "_MATH_INLINE_0__").
  destruct p as [|a p]; destruct s as [|b s]; cbn [nonempty flat_map app];
    rewrite ?plain_segment_run by assumption; reflexivity.
Qed.

(** A formula typed as code. *)
Lemma code_formula_is_math_witness :
  parseInlineStyles (js "so " ++ js "`$" ++ js " E=mc^2 " ++ js "$`" ++ js " holds")
    (js "SimSun") 12 (js "000000")
  = plain_runs (js "so ") (js "SimSun") 12 (js "000000")
    ++ PMath (trim (js " E=mc^2 ")) :: plain_runs (js " holds") (js "SimSun") 12 (js "000000").
Proof.
  apply code_formula_is_math; [reflexivity | discriminate | reflexivity | reflexivity].
Defined.

(** ** White space around the lines *)

Lemma classify_trim (a b : jsstring) : trim a = trim b -> classify a = classify b.
Proof. unfold classify. intros ->. reflexivity. Qed.

Lemma step_out_trim (a b : jsstring) (st : ScanState) :
  trim a = trim b ->
  in_fence st = false ->
  step st a = step st b /\ out st a = out st b.
Proof.
  intros H Hst. pose proof (classify_trim a b H) as Hc.
  destruct st as [|c|t]; [|discriminate|]; cbn [step out];
    unfold step_scanning, out_scanning, is_pipe_line; rewrite Hc, H; split; reflexivity.
Qed.

Lemma step_not_fence (a : jsstring) (st : ScanState) :
  is_fence a = false -> in_fence st = false -> in_fence (step st a) = false.
Proof.
  intros Ha Hst.
  assert (Hs : in_fence (step_scanning a) = false).
  { unfold step_scanning. destruct (classify a) eqn:E; try reflexivity.
    apply classify_fence_inv in E. congruence. }
  destruct st as [|c|t]; [exact Hs | discriminate |].
  cbn [step]. destruct (is_pipe_line a); [reflexivity | exact Hs].
Qed.

Lemma nodes_trim :
  forall l1 l2 st,
    Forall2 (fun a b => trim a = trim b) l1 l2 ->
    (forall l, In l l1 -> is_fence l = false) ->
    in_fence st = false ->
    nodes st l1 = nodes st l2.
Proof.
  induction l1 as [|a l1 IH]; intros l2 st H Hf Hst; inversion H as [|? b ? l2' Hab Hrest]; subst.
  - reflexivity.
  - cbn [nodes]. destruct (step_out_trim a b st Hab Hst) as [Hs Ho].
    rewrite Ho, <- Hs. f_equal. apply IH.
    + assumption.
    + intros l Hl. apply Hf. right. assumption.
    + apply step_not_fence; [apply Hf; left; reflexivity | assumption].
Qed.

(** X21. Outside code fences the scanner reads a line through its trimmed
    form only: two inputs whose lines are equal once trimmed, the first
    without a line that opens a code fence, give the same sections and ask
    the same of the browser.  So carriage returns at the ends of the lines,
    and indentation, change nothing. *)
Theorem line_padding_ignored {W : Type} (B : Browser W) (style : DocumentStyle)
  (lines1 lines2 : list jsstring) (w : W) :
  Forall2 (fun a b => trim a = trim b) lines1 lines2 ->
  (forall l, In l lines1 -> startsWith (trim l) (js "```") = false) ->
  scan B style lines1 w = scan B style lines2 w.
Proof.
  intros H Hf. rewrite !scan_nodes.
  rewrite (nodes_trim Scanning H Hf eq_refl). reflexivity.
Qed.

(** Lines that end in a carriage return, the second one indented. *)
Lemma line_padding_ignored_witness :
  scan offline (style_of STANDARD None)
    [js "# Title" ++ [13%N]; js "  | a | b |" ++ [13%N]; js "text" ++ [13%N]] tt
  = scan offline (style_of STANDARD None) [js "# Title"; js "| a | b |"; js "text"] tt.
Proof.
  apply line_padding_ignored.
  - repeat constructor.
  - intros l [<-|[<-|[<-|[]]]]; reflexivity.
Defined.

(** ** An image that loads *)



